(** * omnia-langchain-runtime: session store, tool dispatch and turn orchestration

    A shallow embedding of the Python sources
    - [session/base.py], [session/memory.py], [session/redis.py]
    - [tools/config.py], [tools/adapter.py], [tools/http.py], [tools/manager.py]
    - [handler.py]
    followed by the properties established about them.

    Conventions.  Python objects that are shared by reference (a [Session]
    held both by the in-process store and by the running turn) live in an
    explicit heap; [datetime.utcnow()] is a counter into an arbitrary stream of
    clock readings; the network is an arbitrary function of the requests made
    so far; exceptions are values of [exn] threaded through a state-and-error
    monad.  Python [float]s are the binary64 primitive floats. *)

From Stdlib Require Import ZArith String Ascii List Lia Bool Floats.
From stdpp Require Import base option list gmap strings pretty.

Set Warnings "-register-all".

Local Open Scope string_scope.
Local Open Scope list_scope.
Local Open Scope Z_scope.

(* ===================================================================== *)
(** ** Python exceptions and the state-and-error monad                    *)
(* ===================================================================== *)

(** Instances of [Exception].  [ToolAdapterError] is the class of
    [tools/adapter.py]; every other class is carried by name, with the text
    [str(e)] gives. *)
Inductive exn :=
| ToolAdapterError (message tool_name : string) (is_retryable : bool)
| PyException (cls message : string).

(** [str(e)] *)
Definition exn_str (e : exn) : string :=
  match e with
  | ToolAdapterError m _ _ => m
  | PyException _ m => m
  end.

Inductive result (A : Type) :=
| Ok (a : A)
| Raise (e : exn).
Arguments Ok {A} a.
Arguments Raise {A} e.

Definition M (S A : Type) : Type := S -> result A * S.

Definition ret {S A} (a : A) : M S A := fun s => (Ok a, s).
Definition raise {S A} (e : exn) : M S A := fun s => (Raise e, s).
Definition bind {S A B} (m : M S A) (k : A -> M S B) : M S B :=
  fun s => match m s with
           | (Ok a, s') => k a s'
           | (Raise e, s') => (Raise e, s')
           end.
Definition gets {S A} (f : S -> A) : M S A := fun s => (Ok (f s), s).
Definition modify {S} (f : S -> S) : M S unit := fun s => (Ok tt, f s).
(** [try: m except Exception as e: h e] *)
Definition try_except {S A} (m : M S A) (h : exn -> M S A) : M S A :=
  fun s => match m s with
           | (Ok a, s') => (Ok a, s')
           | (Raise e, s') => h e s'
           end.

Declare Scope py_scope.
Delimit Scope py_scope with py.
Notation "x <- c1 ;; c2" := (bind c1 (fun x => c2))
  (at level 100, c1 at next level, right associativity) : py_scope.
Notation "c1 ;;; c2" := (bind c1 (fun _ => c2))
  (at level 100, right associativity) : py_scope.

(* ===================================================================== *)
(** ** Strings                                                            *)
(* ===================================================================== *)

Definition chars (s : string) : list ascii := list_ascii_of_string s.
Definition of_chars (l : list ascii) : string := string_of_list_ascii l.

(** [s.endswith(suf)] *)
Fixpoint is_prefix (p l : list ascii) : bool :=
  match p, l with
  | [], _ => true
  | _ :: _, [] => false
  | a :: p', b :: l' => if Ascii.eqb a b then is_prefix p' l' else false
  end.
Definition endswith (s suf : string) : bool :=
  is_prefix (rev (chars suf)) (rev (chars s)).

(** [s[:-1]] *)
Definition drop_last (s : string) : string :=
  of_chars (removelast (chars s)).

(** [repr(s)], for a string without quotes, backslashes and control
    characters. *)
Definition repr_str (s : string) : string := "'" +:+ s +:+ "'".

(** The double quote character, as a string. *)
Definition dquote : string := String "034"%char "".

(* ===================================================================== *)
(** ** [float(str)]                                                       *)
(* ===================================================================== *)

(** The builtin [float] applied to a [str], for ASCII input: surrounding
    whitespace (tab, line feed, vertical tab, form feed, carriage return
    and space) is stripped, then the text must be
    [[sign] (number [exponent] | "inf" | "infinity" | "nan")] with
    [number ::= digitpart ["." [digitpart]] | "." digitpart] and
    [digitpart ::= digit (["_"] digit)*]; anything else is a [ValueError]
    ([None] here).  The value is the decimal correctly rounded to binary64. *)
Module PyFloat.

Definition is_space (c : ascii) : bool :=
  let n := N_of_ascii c in
  ((9 <=? n) && (n <=? 13) || (n =? 32))%N.

Definition digit_val (c : ascii) : option Z :=
  let n := Z.of_N (N_of_ascii c) in
  if (48 <=? n) && (n <=? 57) then Some (n - 48) else None.

Definition lower (c : ascii) : ascii :=
  let n := N_of_ascii c in
  if ((65 <=? n) && (n <=? 90))%N then ascii_of_N (n + 32) else c.

Fixpoint lstrip (l : list ascii) : list ascii :=
  match l with
  | c :: l' => if is_space c then lstrip l' else l
  | [] => []
  end.
Definition strip (l : list ascii) : list ascii :=
  rev (lstrip (rev (lstrip l))).

(** [digitpart]: reads [digit (["_"] digit)*] from the front of [l],
    accumulating the value in [acc] and counting the digits read.
    [after_digit] tells whether the previous character was a digit (an
    underscore is legal only between two digits). *)
Fixpoint digitpart (l : list ascii) (acc : Z) (n : Z) (after_digit : bool)
  : Z * Z * list ascii * bool :=
  match l with
  | c :: l' =>
      match digit_val c with
      | Some d => digitpart l' (10 * acc + d) (n + 1) true
      | None =>
          if Ascii.eqb c "_" && after_digit then
            match l' with
            | c' :: _ =>
                match digit_val c' with
                | Some _ => digitpart l' acc n false
                | None => (acc, n, l, after_digit)
                end
            | [] => (acc, n, l, after_digit)
            end
          else (acc, n, l, after_digit)
      end
  | [] => (acc, n, l, after_digit)
  end.

Definition sign (l : list ascii) : bool * list ascii :=
  match l with
  | c :: l' =>
      if Ascii.eqb c "-" then (true, l')
      else if Ascii.eqb c "+" then (false, l')
      else (false, l)
  | [] => (false, l)
  end.

(** [[("e"|"E") [sign] digitpart]]; [None] when an exponent starts but is
    malformed or when text is left over. *)
Definition exponent (l : list ascii) : option Z :=
  match l with
  | [] => Some 0
  | c :: l' =>
      if Ascii.eqb (lower c) "e" then
        let '(neg, l'') := sign l' in
        match digitpart l'' 0 0 false with
        | (e, n, [], _) =>
            if 0 <? n then Some (if neg then - e else e) else None
        | _ => None
        end
      else None
  end.

(** The decimal [m * 10^e] rounded to nearest-even binary64. *)
Definition round_decimal (neg : bool) (m e : Z) : spec_float :=
  if m =? 0 then S754_zero neg
  else
    let r :=
      if 0 <=? e then binary_normalize prec emax (m * 10 ^ e) 0 false
      else
        let d := 10 ^ (- e) in
        let s := Z.max 0 (Z.log2 d + 64 - Z.log2 m) in
        let q := (m * 2 ^ s) / d in
        let sticky := if (m * 2 ^ s) mod d =? 0 then 0 else 1 in
        binary_normalize prec emax (2 * q + sticky) (- s - 1) false in
    if neg then SFopp r else r.

Definition number (neg : bool) (l : list ascii) : option float :=
  let '(ip, ni, l1, _) := digitpart l 0 0 false in
  let '(m, nf, l2, ok) :=
    match l1 with
    | c :: l1' =>
        if Ascii.eqb c "." then
          let '(m, nf, l2, _) := digitpart l1' ip 0 false in
          (m, nf, l2, (0 <? ni) || (0 <? nf))
        else (ip, 0, l1, 0 <? ni)
    | [] => (ip, 0, l1, 0 <? ni)
    end in
  if ok then
    match exponent l2 with
    | Some e => Some (SF2Prim (round_decimal neg m (e - nf)))
    | None => None
    end
  else None.

Definition float_of_str (s : string) : option float :=
  let '(neg, l) := sign (strip (chars s)) in
  let w := of_chars (map lower l) in
  if String.eqb w "inf" || String.eqb w "infinity" then
    Some (if neg then neg_infinity else infinity)
  else if String.eqb w "nan" then Some nan
  else number neg l.

End PyFloat.

(** [float(s)], raising [ValueError] on malformed text. *)
Definition py_float {S} (s : string) : M S float :=
  match PyFloat.float_of_str s with
  | Some f => ret f
  | None => raise (PyException "ValueError"
                     ("could not convert string to float: " +:+ repr_str s))
  end.

(* ===================================================================== *)
(** ** JSON-native Python values                                          *)
(* ===================================================================== *)

(** What [json.loads] returns and [json.dumps] accepts: [None], [bool], [int],
    [float], [str], [list], and [dict] with [str] keys (in insertion order). *)
Inductive json :=
| JNull
| JBool (b : bool)
| JInt (n : Z)
| JFloat (f : float)
| JStr (s : string)
| JArr (items : list json)
| JObj (fields : list (string * json)).

(** [d.get(key)] on a [dict]. *)
Fixpoint assoc {A} (key : string) (fields : list (string * A)) : option A :=
  match fields with
  | [] => None
  | (k, v) :: rest => if String.eqb k key then Some v else assoc key rest
  end.

(** [type(v).__name__] *)
Definition type_name (v : json) : string :=
  match v with
  | JNull => "NoneType"
  | JBool _ => "bool"
  | JInt _ => "int"
  | JFloat _ => "float"
  | JStr _ => "str"
  | JArr _ => "list"
  | JObj _ => "dict"
  end.

(** Python truthiness. *)
Definition truthy (v : json) : bool :=
  match v with
  | JNull => false
  | JBool b => b
  | JInt n => negb (n =? 0)
  | JFloat f => negb (PrimFloat.eqb f 0)
  | JStr s => negb (String.eqb s "")
  | JArr l => match l with [] => false | _ => true end
  | JObj l => match l with [] => false | _ => true end
  end.

(* ===================================================================== *)
(** ** tools/config.py                                                    *)
(* ===================================================================== *)

Module ToolDefinition.
Record t := mk {
  name : string;
  description : string;
  input_schema : json;
  output_schema : option json }.
End ToolDefinition.

Module HTTPConfig.
Record t := mk {
  endpoint : string;
  method : string;
  headers : gmap string string;
  content_type : string }.
End HTTPConfig.

(** The [grpc_config], [mcp_config] and [openapi_config] fields are parsed
    and never read again; they are left out. *)
Module HandlerConfig.
Record t := mk {
  name : string;
  type : string;
  endpoint : string;
  tool : option ToolDefinition.t;
  http_config : option HTTPConfig.t;
  timeout : string;
  retries : Z }.
End HandlerConfig.

Module ToolsConfig.
Record t := mk { handlers : list HandlerConfig.t }.

Fixpoint find_handler (p : HandlerConfig.t -> bool)
    (hs : list HandlerConfig.t) : option HandlerConfig.t :=
  match hs with
  | [] => None
  | h :: rest => if p h then Some h else find_handler p rest
  end.

Definition get_handler (self : t) (name : string) : option HandlerConfig.t :=
  find_handler (fun h => String.eqb (HandlerConfig.name h) name)
    (handlers self).

(** [handler.tool and handler.tool.name == tool_name] *)
Definition declares_tool (tool_name : string) (h : HandlerConfig.t) : bool :=
  match HandlerConfig.tool h with
  | Some td => String.eqb (ToolDefinition.name td) tool_name
  | None => false
  end.

Definition get_tool_handler (self : t) (tool_name : string)
  : option HandlerConfig.t :=
  find_handler (declares_tool tool_name) (handlers self).
End ToolsConfig.

(* ===================================================================== *)
(** ** tools/http.py                                                      *)
(* ===================================================================== *)

(** One call of [httpx.AsyncClient.request]. *)
Record request := mkRequest {
  req_method : string;
  req_url : string;
  req_headers : gmap string string;
  req_json : json }.

(** What the call comes back with: a response, or one of the exception
    families that [HTTPToolAdapter.execute] tells apart.  [text] is
    [response.text].  [Response] is a response whose body [response.json()]
    can decode; [Undecodable] is one whose bytes it cannot, so that it
    raises [UnicodeDecodeError(message)]. *)
Inductive http_reply :=
| Response (status_code : Z) (text : string)
| Undecodable (status_code : Z) (text : string) (message : string)
| TimeoutException (message : string)
| RequestError (message : string)
| OtherFailure (e : exn).

(** The network log: every request sent so far, oldest first. *)
Abbreviation Net := (list request).

Module HTTPToolAdapter.

Record t := mk {
  handler : HandlerConfig.t;
  endpoint : string;
  method : string;
  headers : gmap string string;
  content_type : string;
  timeout : float }.

Definition _parse_timeout {S} (timeout_str : string) : M S float :=
  if endswith timeout_str "s" then
    py_float (drop_last timeout_str)
  else if endswith timeout_str "m" then
    (f <- py_float (drop_last timeout_str) ;; ret (f * 60)%float)%py
  else if endswith timeout_str "h" then
    (f <- py_float (drop_last timeout_str) ;; ret (f * 3600)%float)%py
  else
    try_except (py_float timeout_str)
      (fun e => match e with
                | PyException "ValueError" _ => ret 30%float
                | _ => raise e
                end).

(** [__init__] *)
Definition init {S} (handler : HandlerConfig.t) : M S t :=
  let '(endpoint, method, headers, content_type) :=
    match HandlerConfig.http_config handler with
    | Some c => (HTTPConfig.endpoint c, HTTPConfig.method c,
                 HTTPConfig.headers c, HTTPConfig.content_type c)
    | None => (HandlerConfig.endpoint handler, "POST", ∅, "application/json")
    end in
  (timeout <- _parse_timeout (HandlerConfig.timeout handler) ;;
   ret (mk handler endpoint method headers content_type timeout))%py.

Definition tool_name (self : t) : string :=
  match HandlerConfig.tool (handler self) with
  | Some td => ToolDefinition.name td
  | None => HandlerConfig.name (handler self)
  end.

Section Execute.
(** The remote side: the reply to a request given everything sent
    before it; and [json.loads] on a response body. *)
Variable network : Net -> request -> http_reply.
Variable json_loads : string -> option json.

Definition build_request (self : t) (arguments : json) : request :=
  mkRequest (method self) (endpoint self)
    (<["Content-Type" := content_type self]> (headers self)) arguments.

Definition send (req : request) : M Net http_reply :=
  fun log => (Ok (network log req), log ++ [req]).

Definition execute (self : t) (arguments : json) : M Net json :=
  (reply <- send (build_request self arguments) ;;
   match reply with
   | Response status_code text =>
       if (200 <=? status_code) && (status_code <=? 299) then
         match json_loads text with
         | Some v => ret v
         | None => ret (JStr text)
         end
       else
         raise (ToolAdapterError
                  ("HTTP error " +:+ pretty status_code +:+ ": " +:+ text)
                  (tool_name self) (500 <=? status_code))
   | Undecodable status_code text message =>
       if (200 <=? status_code) && (status_code <=? 299) then
         raise (PyException "UnicodeDecodeError" message)
       else
         raise (ToolAdapterError
                  ("HTTP error " +:+ pretty status_code +:+ ": " +:+ text)
                  (tool_name self) (500 <=? status_code))
   | TimeoutException msg =>
       raise (ToolAdapterError ("Request timed out: " +:+ msg)
                (tool_name self) true)
   | RequestError msg =>
       raise (ToolAdapterError ("Request failed: " +:+ msg)
                (tool_name self) true)
   | OtherFailure e => raise e
   end)%py.
End Execute.

End HTTPToolAdapter.

(* ===================================================================== *)
(** ** [asyncio.get_event_loop]                                           *)
(* ===================================================================== *)

Module asyncio.

(** The thread a function is called from, as [asyncio.get_event_loop()]
    finds it: the thread of a loop that is running; a thread whose loop is
    not running; or a thread that has no event loop, which is every thread
    but the main one unless a loop was set for it. *)
Inductive thread :=
| running_loop
| idle_loop
| no_loop (thread_name : string).

(** [asyncio.get_event_loop().is_running()] *)
Definition get_event_loop {S} (caller : thread) : M S bool :=
  match caller with
  | running_loop => ret true
  | idle_loop => ret false
  | no_loop thread_name =>
      raise (PyException "RuntimeError"
               ("There is no current event loop in thread "
                +:+ repr_str thread_name +:+ "."))
  end.

End asyncio.

(* ===================================================================== *)
(** ** tools/manager.py                                                   *)
(* ===================================================================== *)

Module ToolManager.

Record t := mk {
  tools_config : option ToolsConfig.t;
  _adapters : gmap string HTTPToolAdapter.t }.

(** [ToolManager(tools_config)] *)
Definition new (tools_config : option ToolsConfig.t) : t := mk tools_config ∅.

Definition _create_adapter {S} (handler : HandlerConfig.t)
  : M S (option HTTPToolAdapter.t) :=
  if String.eqb (HandlerConfig.type handler) "http" then
    (a <- HTTPToolAdapter.init handler ;; ret (Some a))%py
  else ret None.

(** The body of [initialize]'s [for] loop, over the adapter registry. *)
Fixpoint register_all (hs : list HandlerConfig.t)
  : M (gmap string HTTPToolAdapter.t) unit :=
  match hs with
  | [] => ret tt
  | handler :: rest =>
      (adapter <- _create_adapter handler ;;
       match adapter with
       | Some a => modify (<[HTTPToolAdapter.tool_name a := a]>)
       | None => ret tt
       end ;;;
       register_all rest)%py
  end.

Definition initialize (self : t) : result unit * t :=
  match tools_config self with
  | None => (Ok tt, self)
  | Some cfg =>
      let '(r, adapters) := register_all (ToolsConfig.handlers cfg)
                              (_adapters self) in
      (r, mk (tools_config self) adapters)
  end.

(** The retry budget [execute] computes for [tool_name]. *)
Definition max_retries (self : t) (tool_name : string) : Z :=
  let handler :=
    match tools_config self with
    | Some cfg => ToolsConfig.get_tool_handler cfg tool_name
    | None => None
    end in
  match handler with
  | Some h => HandlerConfig.retries h
  | None => 0
  end.

Section Execute.
Variable network : Net -> request -> http_reply.
Variable json_loads : string -> option json.
Variable json_dumps : json -> string.

(** [for attempt in range(max_retries + 1): ...], then the [raise] that
    follows the loop. *)
Fixpoint attempt_loop (adapter : HTTPToolAdapter.t) (tool_name : string)
    (arguments : json) (max_retries : Z)
    (attempts : list Z) (last_error : option exn) : M Net json :=
  match attempts with
  | [] =>
      raise (match last_error with
             | Some e => e
             | None => ToolAdapterError "Unknown error" tool_name false
             end)
  | attempt :: rest =>
      try_except
        (HTTPToolAdapter.execute network json_loads adapter arguments)
        (fun e =>
           match e with
           | ToolAdapterError _ _ is_retryable =>
               if negb is_retryable || (max_retries <=? attempt)
               then raise e
               else attempt_loop adapter tool_name arguments max_retries
                      rest (Some e)
           | _ => raise e
           end)
  end.

Definition execute (self : t) (tool_name : string) (arguments : json)
  : M Net json :=
  match _adapters self !! tool_name with
  | None =>
      raise (ToolAdapterError ("No adapter found for tool: " +:+ tool_name)
               tool_name false)
  | Some adapter =>
      let max_retries := max_retries self tool_name in
      attempt_loop adapter tool_name arguments max_retries
        (seqZ 0 (max_retries + 1)) None
  end.

(** Inside the handler's [try], up to [result]: the handler looks for the
    event loop of the thread it is called from, and runs [execute] to its
    end, in a new thread by [asyncio.run] when that loop is running and by
    [run_until_complete] otherwise. *)
Definition run_tool (self : t) (tool_name : string)
    (caller : asyncio.thread) (kwargs : json) : M Net json :=
  (is_running <- asyncio.get_event_loop caller ;;
   if is_running : bool then execute self tool_name kwargs
   else execute self tool_name kwargs)%py.

(** The function [_create_tool_handler(tool_name)] returns, called from
    the thread [caller] with its keyword arguments. *)
Definition _create_tool_handler (self : t) (tool_name : string)
    (caller : asyncio.thread) (kwargs : json) : Net -> string * Net :=
  fun log =>
    match run_tool self tool_name caller kwargs log with
    | (Ok (JStr s), log') => (s, log')
    | (Ok v, log') => (json_dumps v, log')
    | (Raise e, log') =>
        (json_dumps (JObj [("error", JStr (exn_str e));
                           ("tool", JStr tool_name)]), log')
    end.
End Execute.

(** [close]: each adapter's [close] releases its HTTP client, which is not
    part of this model (a request goes out through [network] whether or not
    a client exists yet); the registry is then cleared. *)
Definition close (self : t) : t := mk (tools_config self) ∅.

End ToolManager.

(* ===================================================================== *)
(** ** [datetime] and [timedelta]                                         *)
(* ===================================================================== *)

(** Naive datetimes, as [datetime.utcnow()] produces them.  A [timedelta] is
    its total number of microseconds. *)
Module datetime.

Record t := mk {
  year : Z; month : Z; day : Z;
  hour : Z; minute : Z; second : Z; microsecond : Z }.

Definition is_leap (y : Z) : bool :=
  (y mod 4 =? 0) && (negb (y mod 100 =? 0) || (y mod 400 =? 0)).

Definition days_in_month (y m : Z) : Z :=
  if m =? 2 then (if is_leap y then 29 else 28)
  else if (m =? 4) || (m =? 6) || (m =? 9) || (m =? 11) then 30
  else 31.

Definition valid (d : t) : bool :=
  (1 <=? year d) && (year d <=? 9999)
  && (1 <=? month d) && (month d <=? 12)
  && (1 <=? day d) && (day d <=? days_in_month (year d) (month d))
  && (0 <=? hour d) && (hour d <=? 23)
  && (0 <=? minute d) && (minute d <=? 59)
  && (0 <=? second d) && (second d <=? 59)
  && (0 <=? microsecond d) && (microsecond d <=? 999999).

Definition days_before_year (y : Z) : Z :=
  let y' := y - 1 in y' * 365 + y' / 4 - y' / 100 + y' / 400.

Definition days_before_month (y m : Z) : Z :=
  fold_right Z.add 0
    (map (days_in_month y) (seqZ 1 (m - 1))).

Definition toordinal (d : t) : Z :=
  days_before_year (year d) + days_before_month (year d) (month d) + day d.

(** Microseconds since 0001-01-01T00:00:00. *)
Definition to_micros (d : t) : Z :=
  (((toordinal d - 1) * 24 + hour d) * 60 + minute d) * 60000000
  + second d * 1000000 + microsecond d.

(** [a - b], a [timedelta]. *)
Definition sub (a b : t) : Z := to_micros a - to_micros b.

(** [timedelta(seconds=n)] *)
Definition seconds (n : Z) : Z := n * 1000000.

(** [timedelta(seconds=n)] for an [int]: the days must fit a C [int] and
    stay within 999999999 either way. *)
Definition timedelta {S} (n : Z) : M S Z :=
  let days := n / 86400 in
  if (days <? -2147483648) || (2147483647 <? days) then
    raise (PyException "OverflowError"
             "Python int too large to convert to C int")
  else if (days <? -999999999) || (999999999 <? days) then
    raise (PyException "OverflowError"
             ("days=" +:+ pretty days
              +:+ "; must have magnitude <= 999999999"))
  else ret (seconds n).

(** ** [isoformat] *)

Definition digit_char (d : Z) : ascii := ascii_of_N (Z.to_N (48 + d mod 10)).

(** [n] in decimal, zero-padded to [w] characters ([{n:0wd}] when [n] has
    at most [w] digits, which the fields of a valid datetime have). *)
Fixpoint zero_padded (w : nat) (n : Z) : list ascii :=
  match w with
  | O => []
  | S w' => zero_padded w' (n / 10) ++ [digit_char n]
  end.

Definition isoformat_chars (d : t) : list ascii :=
  zero_padded 4 (year d) ++ "-"%char :: zero_padded 2 (month d)
  ++ "-"%char :: zero_padded 2 (day d)
  ++ "T"%char :: zero_padded 2 (hour d)
  ++ ":"%char :: zero_padded 2 (minute d)
  ++ ":"%char :: zero_padded 2 (second d)
  ++ (if microsecond d =? 0 then []
      else "."%char :: zero_padded 6 (microsecond d)).

Definition isoformat (d : t) : string := of_chars (isoformat_chars d).

(** ** [fromisoformat]

    The two layouts [isoformat] emits for a naive datetime,
    [YYYY-MM-DDTHH:MM:SS] and [YYYY-MM-DDTHH:MM:SS.ffffff].  The library
    function reads further layouts (a date alone, other separators, UTC
    offsets); this program never writes them, and they are reported as
    malformed here. *)

Fixpoint number (w : nat) (acc : Z) (l : list ascii)
  : option (Z * list ascii) :=
  match w with
  | O => Some (acc, l)
  | S w' =>
      match l with
      | c :: l' =>
          match PyFloat.digit_val c with
          | Some d => number w' (10 * acc + d) l'
          | None => None
          end
      | [] => None
      end
  end.

Definition expect (c : ascii) (l : list ascii) : option (list ascii) :=
  match l with
  | c' :: l' => if Ascii.eqb c c' then Some l' else None
  | [] => None
  end.

Definition fraction (l : list ascii) : option Z :=
  match l with
  | [] => Some 0
  | _ =>
      l ← expect "." l;
      '(us, l) ← number 6 0 l;
      match l with [] => Some us | _ => None end
  end.

Definition parse (l : list ascii) : option t :=
  '(y, l) ← number 4 0 l;
  l ← expect "-" l;
  '(mo, l) ← number 2 0 l;
  l ← expect "-" l;
  '(d, l) ← number 2 0 l;
  l ← expect "T" l;
  '(h, l) ← number 2 0 l;
  l ← expect ":" l;
  '(mi, l) ← number 2 0 l;
  l ← expect ":" l;
  '(s, l) ← number 2 0 l;
  us ← fraction l;
  let r := mk y mo d h mi s us in
  if valid r then Some r else None.

(** [datetime.fromisoformat] on the layouts [isoformat] writes,
    [YYYY-MM-DDTHH:MM:SS] with or without a six-digit fraction.  Python
    reads further layouts (a date alone, another separator, a utc offset);
    they lie outside this definition, which answers [None] for them, and
    no property below rests on such an answer. *)
Definition fromisoformat (s : string) : option t := parse (chars s).

End datetime.

(* ===================================================================== *)
(** ** session/base.py                                                    *)
(* ===================================================================== *)

(** LangChain messages, by class.  [content] and [additional_kwargs] are the
    only attributes this program reads, together with [tool_call_id] on tool
    messages.  [OtherMessage] stands for any other [BaseMessage] subclass;
    its [tool_call_id] is present when it is an instance of [ToolMessage]. *)
Inductive message :=
| HumanMessage (content additional_kwargs : json)
| AIMessage (content additional_kwargs : json)
| SystemMessage (content additional_kwargs : json)
| ToolMessage (content tool_call_id additional_kwargs : json)
| OtherMessage (class_name : string) (content additional_kwargs : json)
    (tool_call_id : option json).

(** [msg.__class__.__name__] *)
Definition class_name (m : message) : string :=
  match m with
  | HumanMessage _ _ => "HumanMessage"
  | AIMessage _ _ => "AIMessage"
  | SystemMessage _ _ => "SystemMessage"
  | ToolMessage _ _ _ => "ToolMessage"
  | OtherMessage c _ _ _ => c
  end.

Definition content (m : message) : json :=
  match m with
  | HumanMessage c _ | AIMessage c _ | SystemMessage c _
  | ToolMessage c _ _ | OtherMessage _ c _ _ => c
  end.

Definition additional_kwargs (m : message) : json :=
  match m with
  | HumanMessage _ k | AIMessage _ k | SystemMessage _ k
  | ToolMessage _ _ k | OtherMessage _ _ k _ => k
  end.

(** [msg.tool_call_id] when [isinstance(msg, ToolMessage)]. *)
Definition tool_call_id (m : message) : option json :=
  match m with
  | ToolMessage _ i _ => Some i
  | OtherMessage _ _ _ i => i
  | _ => None
  end.

Module Session.
Record t := mk {
  session_id : string;
  messages : list message;
  metadata : json;
  created_at : datetime.t;
  updated_at : datetime.t }.

Definition set_updated_at (now : datetime.t) (s : t) : t :=
  mk (session_id s) (messages s) (metadata s) (created_at s) now.

Definition append (m : message) (s : t) : t :=
  mk (session_id s) (messages s ++ [m]) (metadata s)
    (created_at s) (updated_at s).

Definition extend (ms : list message) (s : t) : t :=
  mk (session_id s) (messages s ++ ms) (metadata s)
    (created_at s) (updated_at s).

Definition set_messages (ms : list message) (s : t) : t :=
  mk (session_id s) ms (metadata s) (created_at s) (updated_at s).
End Session.

(** A reference to a [Session] object. *)
Abbreviation loc := nat.

(** The state a turn runs in: the [Session] objects allocated so far, the
    number of clock readings taken, the session store's own state, and the
    network log. *)
Record Env (St : Type) := mkEnv {
  heap : list Session.t;
  ticks : nat;
  store : St;
  net : Net }.
Arguments mkEnv {St}.
Arguments heap {St}.
Arguments ticks {St}.
Arguments store {St}.
Arguments net {St}.

Definition set_heap {St} (f : list Session.t -> list Session.t) (e : Env St) :=
  mkEnv (f (heap e)) (ticks e) (store e) (net e).
Definition set_store {St} (f : St -> St) (e : Env St) :=
  mkEnv (heap e) (ticks e) (f (store e)) (net e).

Definition epoch : datetime.t := datetime.mk 1 1 1 0 0 0 0.

(** The object a reference points to.  References come from [alloc] only, so
    the default is never reached by the code below. *)
Definition deref (h : list Session.t) (l : loc) : Session.t :=
  default (Session.mk "" [] (JObj []) epoch epoch) (h !! l).

Section Objects.
Context {St : Type}.
(** The [n]-th reading of [datetime.utcnow()]. *)
Variable clock : nat -> datetime.t.

Definition utcnow : M (Env St) datetime.t :=
  fun e => (Ok (clock (ticks e)),
            mkEnv (heap e) (S (ticks e)) (store e) (net e)).

Definition alloc (s : Session.t) : M (Env St) loc :=
  fun e => (Ok (length (heap e)), set_heap (fun h => h ++ [s]) e).

Definition read (l : loc) : M (Env St) Session.t :=
  gets (fun e => deref (heap e) l).

Definition write (l : loc) (f : Session.t -> Session.t) : M (Env St) unit :=
  modify (set_heap (alter f l)).

(** [Session(session_id=session_id)]: both timestamps default to their own
    [utcnow()] call. *)
Definition Session_new (session_id : string) : M (Env St) loc :=
  (created <- utcnow ;;
   updated <- utcnow ;;
   alloc (Session.mk session_id [] (JObj []) created updated))%py.

(** [Session.add_message] *)
Definition add_message (self : loc) (msg : message) : M (Env St) unit :=
  (write self (Session.append msg) ;;;
   now <- utcnow ;;
   write self (Session.set_updated_at now))%py.

(** [Session.add_messages] *)
Definition add_messages (self : loc) (messages : list message)
  : M (Env St) unit :=
  (write self (Session.extend messages) ;;;
   now <- utcnow ;;
   write self (Session.set_updated_at now))%py.

(** [Session.clear_messages] *)
Definition clear_messages (self : loc) : M (Env St) unit :=
  (write self (Session.set_messages []) ;;;
   now <- utcnow ;;
   write self (Session.set_updated_at now))%py.
End Objects.

(** The abstract base class [SessionStore]: the abstract methods, each over
    the store's own state [St]. *)
Module SessionStore.
Class t (St : Type) := {
  get : string -> M (Env St) (option loc);
  save : loc -> M (Env St) unit;
  delete : string -> M (Env St) unit;
  close : M (Env St) unit }.

(** The one concrete method of the base class. *)
Definition get_or_create {St} `{t St} (clock : nat -> datetime.t)
    (session_id : string) : M (Env St) loc :=
  (found <- get session_id ;;
   match found with
   | Some session => ret session
   | None =>
       session <- Session_new clock session_id ;;
       save session ;;;
       ret session
   end)%py.
End SessionStore.

(* ===================================================================== *)
(** ** session/memory.py                                                  *)
(* ===================================================================== *)

Module InMemorySessionStore.

(** [_sessions] is the [OrderedDict], oldest entry first. *)
Record t := mk {
  ttl : Z;
  max_sessions : Z;
  _sessions : list (string * loc) }.

(** The store [__init__] builds when [timedelta] accepts the TTL. *)
Definition new (ttl_seconds max_sessions : Z) : t :=
  mk (datetime.seconds ttl_seconds) max_sessions [].

(** [__init__] *)
Definition init {S} (ttl_seconds max_sessions : Z) : M S t :=
  (ttl <- datetime.timedelta ttl_seconds ;;
   ret (mk ttl max_sessions []))%py.

Definition set_sessions (f : list (string * loc) -> list (string * loc))
    (self : t) : t :=
  mk (ttl self) (max_sessions self) (f (_sessions self)).

(** [del d[key]] for a key that is present; [d.pop(key, None)]. *)
Definition remove (key : string) (d : list (string * loc))
  : list (string * loc) :=
  filter (fun kv => fst kv <> key) d.
Global Arguments remove key d : simpl never.

(** [d.move_to_end(key)] for a key bound to [v]. *)
Definition move_to_end (key : string) (v : loc) (d : list (string * loc))
  : list (string * loc) :=
  remove key d ++ [(key, v)].

(** [while len(d) >= max_sessions: d.popitem(last=False)]: the dictionary
    left behind, and whether [popitem] met an empty dictionary. *)
Fixpoint evict (max_sessions : Z) (d : list (string * loc))
  : list (string * loc) * bool :=
  match d with
  | [] => ([], Z.of_nat 0 >=? max_sessions)
  | _ :: d' =>
      if Z.of_nat (length d) >=? max_sessions then evict max_sessions d'
      else (d, false)
  end.

Section Methods.
Variable clock : nat -> datetime.t.

Definition get (session_id : string) : M (Env t) (option loc) :=
  (found <- gets (fun e => assoc session_id (_sessions (store e))) ;;
   match found with
   | None => ret None
   | Some session =>
       now <- utcnow clock ;;
       s <- read session ;;
       ttl <- gets (fun e => ttl (store e)) ;;
       if datetime.sub now (Session.updated_at s) >? ttl then
         modify (set_store (set_sessions (remove session_id))) ;;;
         ret None
       else
         modify (set_store
                   (set_sessions (move_to_end session_id session))) ;;;
         ret (Some session)
   end)%py.

Definition save (session : loc) : M (Env t) unit :=
  (now <- utcnow clock ;;
   write session (Session.set_updated_at now) ;;;
   s <- read session ;;
   let session_id := Session.session_id s in
   modify (set_store (set_sessions (remove session_id))) ;;;
   self <- gets store ;;
   let '(d, empty) := evict (max_sessions self) (_sessions self) in
   modify (set_store (set_sessions (fun _ => d))) ;;;
   if empty then
     raise (PyException "KeyError" "'dictionary is empty'")
   else
     modify (set_store
               (set_sessions (fun d => d ++ [(session_id, session)]))))%py.

Definition delete (session_id : string) : M (Env t) unit :=
  modify (set_store (set_sessions (remove session_id))).

Definition close : M (Env t) unit := ret tt.

Definition cleanup_expired : M (Env t) Z :=
  (now <- utcnow clock ;;
   e <- gets id ;;
   let expired :=
     List.filter (fun kv => datetime.sub now
                         (Session.updated_at (deref (heap e) (snd kv)))
                       >? ttl (store e))
       (_sessions (store e)) in
   modify (set_store
             (set_sessions
                (fun d => fold_left (fun d kv => remove (fst kv) d)
                            expired d))) ;;;
   ret (Z.of_nat (length expired)))%py.

Definition size (self : t) : Z := Z.of_nat (length (_sessions self)).
End Methods.

Definition session_store (clock : nat -> datetime.t) : SessionStore.t t :=
  {| SessionStore.get := get clock;
     SessionStore.save := save clock;
     SessionStore.delete := delete;
     SessionStore.close := close |}.
End InMemorySessionStore.

(* ===================================================================== *)
(** ** session/redis.py: the stored record                                *)
(* ===================================================================== *)

(** [v.get(key, default)], [d[key]] on a [dict], and [for x in v], on
    JSON-native values, with the exceptions Python raises when the value has
    the wrong shape. *)
Definition py_get {S} (v : json) (key : string) (default : json) : M S json :=
  match v with
  | JObj fields => ret (match assoc key fields with
                        | Some x => x
                        | None => default
                        end)
  | _ => raise (PyException "AttributeError"
                  ("'" +:+ type_name v +:+ "' object has no attribute 'get'"))
  end.

Definition dict_getitem {S} (fields : list (string * json)) (key : string)
  : M S json :=
  match assoc key fields with
  | Some x => ret x
  | None => raise (PyException "KeyError" (repr_str key))
  end.

Definition py_iter {S} (v : json) : M S (list json) :=
  match v with
  | JArr items => ret items
  | JObj fields => ret (map (fun kv => JStr (fst kv)) fields)
  | JStr s => ret (map (fun c => JStr (String c EmptyString)) (chars s))
  | _ => raise (PyException "TypeError"
                  ("'" +:+ type_name v +:+ "' object is not iterable"))
  end.

(** The [redis.asyncio] client, an external collaborator: the calls this
    program makes on it, over the state [R] of the connection and of the
    server behind it.  [get] is the client created with
    [decode_responses=True]; every call may raise. *)
Module redis.
Class Redis (R : Type) := {
  from_url : string -> M R unit;
  get : string -> M R (option string);
  setex : string -> Z -> string -> M R unit;
  delete : string -> M R unit;
  close : M R unit }.
End redis.

Module RedisSessionStore.

Definition _key (key_prefix session_id : string) : string :=
  key_prefix +:+ session_id.

Section Codec.
Variable json_dumps : json -> string.
Variable json_loads : string -> option json.

Definition serialize_message (msg : message) : json :=
  JObj ([("type", JStr (class_name msg)); ("content", content msg)]
        ++ [("additional_kwargs", additional_kwargs msg)]
        ++ match tool_call_id msg with
           | Some i => [("tool_call_id", i)]
           | None => []
           end).

Definition _serialize (session : Session.t) : string :=
  json_dumps
    (JObj [("messages",
            JArr (map serialize_message (Session.messages session)));
           ("metadata", Session.metadata session);
           ("created_at",
            JStr (datetime.isoformat (Session.created_at session)));
           ("updated_at",
            JStr (datetime.isoformat (Session.updated_at session)))]).

(** The message constructors are taken to accept the content they are
    given, as they do for what [_serialize] wrote; LangChain validates it
    and refuses content that is neither text nor a list. *)
Definition deserialize_message {S} (msg_data : json) : M S message :=
  (msg_type <- py_get msg_data "type" (JStr "HumanMessage") ;;
   content <- py_get msg_data "content" (JStr "") ;;
   additional_kwargs <- py_get msg_data "additional_kwargs" (JObj []) ;;
   match msg_type with
   | JStr "HumanMessage" => ret (HumanMessage content additional_kwargs)
   | JStr "AIMessage" => ret (AIMessage content additional_kwargs)
   | JStr "SystemMessage" => ret (SystemMessage content additional_kwargs)
   | JStr "ToolMessage" =>
       i <- py_get msg_data "tool_call_id" (JStr "") ;;
       ret (ToolMessage content i additional_kwargs)
   | _ => ret (HumanMessage content (JObj []))
   end)%py.

Fixpoint deserialize_messages {S} (items : list json)
  : M S (list message) :=
  match items with
  | [] => ret []
  | msg_data :: rest =>
      (m <- deserialize_message msg_data ;;
       ms <- deserialize_messages rest ;;
       ret (m :: ms))%py
  end.

Definition fromisoformat {S} (v : json) : M S datetime.t :=
  match v with
  | JStr s => match datetime.fromisoformat s with
              | Some d => ret d
              | None => raise (PyException "ValueError"
                                 ("Invalid isoformat string: " +:+ repr_str s))
              end
  | _ => raise (PyException "TypeError"
                  "fromisoformat: argument must be str")
  end.

(** [parsed.get] is the first thing asked of [parsed], so anything but a
    [dict] stops there. *)
Definition _deserialize {S} (session_id data : string) : M S Session.t :=
  match json_loads data with
  | None => raise (PyException "JSONDecodeError" data)
  | Some parsed =>
      (raw <- py_get parsed "messages" (JArr []) ;;
       items <- py_iter raw ;;
       messages <- deserialize_messages items ;;
       metadata <- py_get parsed "metadata" (JObj []) ;;
       let fields := match parsed with JObj fields => fields | _ => [] end in
       c <- dict_getitem fields "created_at" ;;
       created_at <- fromisoformat c ;;
       u <- dict_getitem fields "updated_at" ;;
       updated_at <- fromisoformat u ;;
       ret (Session.mk session_id messages metadata created_at
              updated_at))%py
  end.
End Codec.

(** The store's attributes.  [_client] tells whether the client object has
    been created; [server] is what that client talks to. *)
Record t (R : Type) := mk {
  url : string;
  ttl_seconds : Z;
  key_prefix : string;
  _client : bool;
  server : R }.
Arguments mk {R}.
Arguments url {R}.
Arguments ttl_seconds {R}.
Arguments key_prefix {R}.
Arguments _client {R}.
Arguments server {R}.

(** [RedisSessionStore(url, ttl_seconds, key_prefix)] *)
Definition new {R} (url : string) (ttl_seconds : Z) (key_prefix : string)
    (server : R) : t R :=
  mk url ttl_seconds key_prefix false server.

Definition set_client {R} (c : bool) (self : t R) : t R :=
  mk (url self) (ttl_seconds self) (key_prefix self) c (server self).

Definition set_server {R} (r : R) (self : t R) : t R :=
  mk (url self) (ttl_seconds self) (key_prefix self) (_client self) r.

Section Methods.
Context {R : Type} `{redis.Redis R}.
Variable clock : nat -> datetime.t.
Variable json_dumps : json -> string.
Variable json_loads : string -> option json.

(** A call on the client. *)
Definition command {A} (c : M R A) : M (Env (t R)) A :=
  fun e => let '(r, s) := c (server (store e)) in
           (r, set_store (set_server s) e).

Definition _get_client : M (Env (t R)) unit :=
  (self <- gets store ;;
   if _client self then ret tt
   else
     command (redis.from_url (url self)) ;;;
     modify (set_store (set_client true)))%py.

Definition get (session_id : string) : M (Env (t R)) (option loc) :=
  (_get_client ;;;
   self <- gets store ;;
   data <- command (redis.get (_key (key_prefix self) session_id)) ;;
   match data with
   | None => ret None
   | Some data =>
       try_except
         (session <- _deserialize json_loads session_id data ;;
          l <- alloc session ;;
          ret (Some l))
         (fun _ => ret None)
   end)%py.

Definition save (session : loc) : M (Env (t R)) unit :=
  (_get_client ;;;
   now <- utcnow clock ;;
   write session (Session.set_updated_at now) ;;;
   s <- read session ;;
   self <- gets store ;;
   command (redis.setex (_key (key_prefix self) (Session.session_id s))
              (ttl_seconds self) (_serialize json_dumps s)))%py.

Definition delete (session_id : string) : M (Env (t R)) unit :=
  (_get_client ;;;
   self <- gets store ;;
   command (redis.delete (_key (key_prefix self) session_id)))%py.

Definition close : M (Env (t R)) unit :=
  (self <- gets store ;;
   if _client self then
     command redis.close ;;;
     modify (set_store (set_client false))
   else ret tt)%py.

Definition session_store : SessionStore.t (t R) :=
  {| SessionStore.get := get;
     SessionStore.save := save;
     SessionStore.delete := delete;
     SessionStore.close := close |}.
End Methods.

End RedisSessionStore.

(* ===================================================================== *)
(** ** The wire protocol and the agent engine                             *)
(* ===================================================================== *)

(** Modelled from the spec: the generated protocol module [runtime_pb2] is
    not among the sources.  [ServerMessage] is the tagged union
    chunk / tool-call / tool-result / done / error of the specification, with
    the fields [handler.py] fills in. *)
Module runtime_pb2.
Record Usage := mkUsage {
  input_tokens : Z;
  output_tokens : Z;
  cost_usd : float }.

Inductive ServerMessage :=
| chunk (content : string)
| tool_call (id name arguments_json : string)
| tool_result (id result_json : string) (is_error : bool)
| done (final_content : string) (usage : Usage)
| error (code message : string).

Record Media := mkMedia { url : string; data : string; mime_type : string }.
Record ContentPart := mkPart {
  type : string;
  text : string;
  media : option Media }.

Record ClientMessage := mkClientMessage {
  session_id : string;
  content : string;
  parts : list ContentPart;
  metadata : gmap string string }.

Record HealthResponse := mkHealthResponse {
  healthy : bool;
  status : string }.
End runtime_pb2.

(** A Python object handed over by the engine: JSON-native, or something
    [json.dumps] rejects. *)
Inductive pyval :=
| Json (v : json)
| Opaque (type_name : string).

Record token_usage := mkTokenUsage {
  prompt_tokens : option Z;
  completion_tokens : option Z }.

(** The events of [astream_events(version="v2")] by their ["event"] key, each
    with the part of ["data"] that [handle_message] reads:
    - [on_chat_model_stream]: [chunk.content], absent when there is no chunk
      or the chunk has no content attribute;
    - [on_tool_start]: ["run_id"], ["name"], [data["input"]];
    - [on_tool_end]: ["run_id"], [data["output"]];
    - [on_llm_end]: [output.llm_output["token_usage"]], absent when
      [output.llm_output] is missing or empty. *)
Inductive event :=
| on_chat_model_stream (content : option json)
| on_tool_start (run_id name : string) (input : pyval)
| on_tool_end (run_id : string) (output : pyval)
| on_llm_end (usage : option token_usage)
| other_event (event_type : string).

(** One run of the agent engine, an external collaborator: it ends, yields
    an event and goes on, raises, or calls one of the tools it was given,
    from a thread of its choice, and goes on with what the tool handler
    returned ([None] when it was given no tool of that name). *)
Inductive stream :=
| Stop
| Yield (ev : event) (rest : stream)
| Throw (e : exn)
| CallTool (caller : asyncio.thread) (name : string) (kwargs : json)
    (k : option string -> stream).

(** The part of a [PromptPack] the runtime looks at. *)
Record PromptPack := mkPack {
  prompts : list string;
  get_tools_for_prompt : string -> list string }.

(* ===================================================================== *)
(** ** handler.py                                                         *)
(* ===================================================================== *)

Module LangChainHandler.
Import runtime_pb2.

(** The handler's fields that a turn reads.  The session store's state is
    the [store] component of the environment. *)
Record t := mk {
  prompt_name : string;
  pack : PromptPack;
  tool_manager : option ToolManager.t }.

(** [_create_session_store] for [SessionType.MEMORY]: the capacity is left
    at the constructor's default. *)
Definition _create_session_store (session_ttl_seconds : Z)
  : InMemorySessionStore.t :=
  InMemorySessionStore.new session_ttl_seconds 10000.

Definition lc_part (part : ContentPart) : list json :=
  if String.eqb (type part) "text" then
    [JObj [("type", JStr "text"); ("text", JStr (text part))]]
  else if String.eqb (type part) "image" then
    match media part with
    | Some m =>
        if negb (String.eqb (url m) "") then
          [JObj [("type", JStr "image_url");
                 ("image_url", JObj [("url", JStr (url m))])]]
        else if negb (String.eqb (data m) "") then
          [JObj [("type", JStr "image_url");
                 ("image_url",
                  JObj [("url", JStr ("data:" +:+ mime_type m
                                      +:+ ";base64," +:+ data m))])]]
        else []
    | None => []
    end
  else [].

Definition _build_user_message (content : option string)
    (parts : list ContentPart) : message :=
  match parts with
  | _ :: _ => HumanMessage (JArr (concat (map lc_part parts))) (JObj [])
  | [] => HumanMessage (JStr (default "" content)) (JObj [])
  end.

Section Turn.
Context {St : Type} `{SessionStore.t St}.
Variable clock : nat -> datetime.t.
Variable network : Net -> request -> http_reply.
Variable json_loads : string -> option json.
Variable json_dumps : json -> string.
(** [create_react_agent(llm, tools, ...)] followed by
    [astream_events({"messages": ..., "variables": ...})]. *)
Variable engine : list string -> list message -> json -> stream.

Definition _extract_variables (metadata : gmap string string) : json :=
  match metadata !! "variables" with
  | Some variables_str =>
      if negb (String.eqb variables_str "") then
        match json_loads variables_str with
        | Some v => v
        | None => JObj []
        end
      else JObj []
  | None => JObj []
  end.

(** A generator's state: the environment and what has been yielded. *)
Definition Gen (A : Type) : Type := M (Env St * list ServerMessage) A.

Definition lift {A} (m : M (Env St) A) : Gen A :=
  fun '(e, out) => let '(r, e') := m e in (r, (e', out)).

Definition yield (msg : ServerMessage) : Gen unit :=
  modify (fun '(e, out) => (e, out ++ [msg])).

(** [json.dumps] on an arbitrary object. *)
Definition dumps (v : pyval) : Gen string :=
  match v with
  | Json j => ret (json_dumps j)
  | Opaque c =>
      raise (PyException "TypeError"
               ("Object of type " +:+ c +:+ " is not JSON serializable"))
  end.

(** [tools]: the names [get_langchain_tools] builds handlers for. *)
Definition tools (self : t) : list string :=
  match tool_manager self with
  | Some _ => get_tools_for_prompt (pack self) (prompt_name self)
  | None => []
  end.

(** The engine calling the tool [name] from the thread [caller]. *)
Definition call_tool (self : t) (caller : asyncio.thread) (name : string)
    (kwargs : json) : Gen (option string) :=
  match tool_manager self with
  | Some tm =>
      if bool_decide (name ∈ tools self) then
        lift (fun e =>
                let '(r, log) :=
                  ToolManager._create_tool_handler network json_loads
                    json_dumps tm name caller kwargs (net e) in
                (Ok (Some r), mkEnv (heap e) (ticks e) (store e) log))
      else ret None
  | None => ret None
  end.

(** [create_agent] *)
Definition create_agent (self : t) : Gen unit :=
  if bool_decide (prompt_name self ∈ prompts (pack self)) then ret tt
  else raise (PyException "ValueError"
                ("Prompt '" +:+ prompt_name self
                 +:+ "' not found in pack")).

(** The [async for] loop: the accumulators are [final_content],
    [total_input_tokens] and [total_output_tokens]. *)
Fixpoint consume (self : t) (events : stream) (final_content : string)
    (total_input_tokens total_output_tokens : Z) : Gen (string * Z * Z) :=
  match events with
  | Stop => ret (final_content, total_input_tokens, total_output_tokens)
  | Throw e => raise e
  | CallTool caller name kwargs k =>
      (r <- call_tool self caller name kwargs ;;
       consume self (k r) final_content
         total_input_tokens total_output_tokens)%py
  | Yield ev rest =>
      match ev with
      | on_chat_model_stream (Some c) =>
          if truthy c then
            match c with
            | JStr s =>
                (yield (chunk s) ;;;
                 consume self rest (final_content +:+ s)
                   total_input_tokens total_output_tokens)%py
            | _ =>
                raise (PyException "TypeError"
                         ("can only concatenate str (not " +:+ dquote
                          +:+ type_name c +:+ dquote +:+ ") to str"))
            end
          else consume self rest final_content
                 total_input_tokens total_output_tokens
      | on_chat_model_stream None =>
          consume self rest final_content
            total_input_tokens total_output_tokens
      | on_tool_start run_id tool_name tool_input =>
          (arguments_json <- dumps tool_input ;;
           yield (tool_call run_id tool_name arguments_json) ;;;
           consume self rest final_content
             total_input_tokens total_output_tokens)%py
      | on_tool_end run_id output =>
          (output <- match output with
                     | Json (JStr s) => ret s
                     | _ => dumps output
                     end ;;
           yield (tool_result run_id output false) ;;;
           consume self rest final_content
             total_input_tokens total_output_tokens)%py
      | on_llm_end (Some usage) =>
          consume self rest final_content
            (total_input_tokens + default 0 (prompt_tokens usage))
            (total_output_tokens + default 0 (completion_tokens usage))
      | on_llm_end None | other_event _ =>
          consume self rest final_content
            total_input_tokens total_output_tokens
      end
  end.

(** The body of the [try] block. *)
Definition turn (self : t) (session_id : string) (content : option string)
    (parts : list ContentPart) (metadata : gmap string string)
  : Gen unit :=
  (session <- lift (SessionStore.get_or_create clock session_id) ;;
   lift (add_message clock session (_build_user_message content parts)) ;;;
   create_agent self ;;;
   let variables := _extract_variables metadata in
   s <- lift (read session) ;;
   totals <-
     consume self (engine (tools self) (Session.messages s) variables)
       "" 0 0 ;;
   let '(final_content, total_input_tokens, total_output_tokens) :=
     totals in
   (if negb (String.eqb final_content "") then
      lift (add_message clock session
              (AIMessage (JStr final_content) (JObj [])))
    else ret tt) ;;;
   lift (SessionStore.save session) ;;;
   yield (done final_content
            (mkUsage total_input_tokens total_output_tokens 0%float)))%py.

(** [handle_message]: everything it yields, and the environment it
    leaves. *)
Definition handle_message (self : t) (session_id : string)
    (content : option string) (parts : list ContentPart)
    (metadata : gmap string string) (e : Env St)
  : list ServerMessage * Env St :=
  let '(_, (e', out)) :=
    try_except (turn self session_id content parts metadata)
      (fun exc => yield (error "HANDLER_ERROR" (exn_str exc)))
      (e, []) in
  (out, e').
End Turn.

(** [__init__], given what [parse_promptpack] and, when
    [config.tools_config_path] is set, [load_tools_config] read from disk.
    The session store it creates is the [store] of the environment. *)
Definition init (prompt_name : string) (pack : PromptPack)
    (tools_config : option ToolsConfig.t) : t :=
  mk prompt_name pack
    match tools_config with
    | Some cfg => Some (ToolManager.new (Some cfg))
    | None => None
    end.

(** [initialize] *)
Definition initialize (self : t) : result unit * t :=
  match tool_manager self with
  | Some tm =>
      let '(r, tm') := ToolManager.initialize tm in
      (r, mk (prompt_name self) (pack self) (Some tm'))
  | None => (Ok tt, self)
  end.

(** [health_check]: [self.pack] is set by [__init__] and is never [None];
    what is left is whether the pack has the configured prompt. *)
Definition health_check (self : t) : bool :=
  bool_decide (prompt_name self ∈ prompts (pack self)).

End LangChainHandler.

(* ===================================================================== *)
(** ** server.py                                                          *)
(* ===================================================================== *)

Module RuntimeServicer.
Import runtime_pb2.

(** The request iterator of one [Converse] call: the client closes the
    stream, sends a message and goes on, or the stream breaks with an
    exception.  Cancellation reaches the servicer as
    [asyncio.CancelledError], which is not an [Exception]; it is outside this
    model, as it is outside that of [handle_message]. *)
Inductive requests :=
| Closed
| Next (client_msg : ClientMessage) (rest : requests)
| Broken (e : exn).

Section Converse.
Context {St : Type} `{SessionStore.t St}.
Variable clock : nat -> datetime.t.
Variable network : Net -> request -> http_reply.
Variable json_loads : string -> option json.
Variable json_dumps : json -> string.
Variable engine : list string -> list message -> json -> stream.

(** [Converse]: everything it yields, and the environment it leaves. *)
Fixpoint Converse (handler : LangChainHandler.t)
    (request_iterator : requests) (e : Env St)
  : list ServerMessage * Env St :=
  match request_iterator with
  | Closed => ([], e)
  | Broken exc => ([error "INTERNAL_ERROR" (exn_str exc)], e)
  | Next client_msg rest =>
      let content_parts := parts client_msg in
      let '(responses, e1) :=
        LangChainHandler.handle_message clock network json_loads json_dumps
          engine handler (session_id client_msg)
          (match content_parts with
           | [] => Some (content client_msg)
           | _ :: _ => None
           end)
          content_parts (metadata client_msg) e in
      let '(later, e2) := Converse handler rest e1 in
      (responses ++ later, e2)
  end.
End Converse.

(** [Health] *)
Definition Health (handler : LangChainHandler.t) : HealthResponse :=
  let is_healthy := LangChainHandler.health_check handler in
  mkHealthResponse is_healthy (if is_healthy then "ready" else "not ready").

End RuntimeServicer.

(* ===================================================================== *)
(** ** config.py                                                          *)
(* ===================================================================== *)

(** [repr] of a list of strings, as an f-string prints it. *)
Definition repr_list (l : list string) : string :=
  "[" +:+ String.concat ", " (map repr_str l) +:+ "]".

Module ProviderType.
Inductive t := CLAUDE | OPENAI | GEMINI | OLLAMA | MOCK.

Definition value (p : t) : string :=
  match p with
  | CLAUDE => "claude"
  | OPENAI => "openai"
  | GEMINI => "gemini"
  | OLLAMA => "ollama"
  | MOCK => "mock"
  end.

(** The members, in definition order. *)
Definition members : list t := [CLAUDE; OPENAI; GEMINI; OLLAMA; MOCK].

(** [cls(value)]: the member with that value. *)
Definition of_value (v : string) : option t :=
  List.find (fun p => String.eqb (value p) v) members.

Definition from_string {S} (lower : string -> string) (v : string) : M S t :=
  match of_value (lower v) with
  | Some p => ret p
  | None =>
      raise (PyException "ValueError"
               ("Invalid provider type '" +:+ v +:+ "'. Must be one of: "
                +:+ repr_list (map value members)))
  end.
End ProviderType.

Module SessionType.
Inductive t := MEMORY | REDIS.

Definition value (s : t) : string :=
  match s with
  | MEMORY => "memory"
  | REDIS => "redis"
  end.

Definition members : list t := [MEMORY; REDIS].

Definition of_value (v : string) : option t :=
  List.find (fun s => String.eqb (value s) v) members.
End SessionType.

Module Config.
Record t := mk {
  agent_name : string;
  namespace : string;
  promptpack_path : string;
  promptpack_name : string;
  promptpack_namespace : string;
  prompt_name : string;
  session_type : SessionType.t;
  session_url : string;
  session_ttl_seconds : Z;
  provider_type : ProviderType.t;
  provider_model : string;
  provider_base_url : string;
  provider_ref_name : string;
  provider_ref_namespace : string;
  context_window : Z;
  truncation_strategy : string;
  mock_config_path : string;
  media_base_path : string;
  tools_config_path : string;
  grpc_port : Z;
  health_port : Z;
  api_keys : gmap string string }.
End Config.

(** [ConfigError(message)] *)
Definition ConfigError (message : string) : exn :=
  PyException "ConfigError" message.

(** The functions of the module, over the process environment [environ]
    and two builtins of the interpreter: [int] on a string ([None] for a
    [ValueError]) and [str.lower]. *)
Section Loading.
Variable environ : gmap string string.
Variable int : string -> option Z.
Variable lower : string -> string.

(** [os.getenv(name)] and [os.getenv(name, default)] *)
Definition getenv (name : string) : option string := environ !! name.
Definition getenv_or (name default : string) : string :=
  match getenv name with
  | Some value => value
  | None => default
  end.

Definition _get_required {S} (name : string) : M S string :=
  match getenv name with
  | Some value =>
      if String.eqb value "" then raise (ConfigError (name +:+ " is required"))
      else ret value
  | None => raise (ConfigError (name +:+ " is required"))
  end.

Definition _get_or_default (name default : string) : string :=
  match getenv name with
  | Some value => if String.eqb value "" then default else value
  | None => default
  end.

Definition _parse_int {S} (name : string) (default : Z) : M S Z :=
  match getenv name with
  | Some value =>
      if String.eqb value "" then ret default
      else
        match int value with
        | Some n => ret n
        | None =>
            raise (ConfigError ("Invalid " +:+ name
                                +:+ ": must be an integer"))
        end
  | None => ret default
  end.

Definition _parse_provider_type {S} (value : string) : M S ProviderType.t :=
  try_except (ProviderType.from_string lower value)
    (fun e => match e with
              | PyException "ValueError" _ => raise (ConfigError (exn_str e))
              | _ => raise e
              end).

Definition _parse_session_type {S} (value : string) : M S SessionType.t :=
  match SessionType.of_value (lower value) with
  | Some s => ret s
  | None =>
      raise (ConfigError
               ("Invalid OMNIA_SESSION_TYPE '" +:+ value
                +:+ "'. Must be one of: "
                +:+ repr_list (map SessionType.value SessionType.members)))
  end.

(** [config.api_keys.get(key)] is falsy *)
Definition missing_key (config : Config.t) (key : string) : bool :=
  match Config.api_keys config !! key with
  | Some value => String.eqb value ""
  | None => true
  end.

Definition _validate_config {S} (config : Config.t) : M S unit :=
  (match Config.session_type config with
   | SessionType.REDIS =>
       if String.eqb (Config.session_url config) "" then
         raise (ConfigError
                  "OMNIA_SESSION_URL is required when using Redis sessions")
       else ret tt
   | _ => ret tt
   end ;;;
   match Config.provider_type config with
   | ProviderType.CLAUDE =>
       if missing_key config "anthropic" then
         raise (ConfigError
                  "ANTHROPIC_API_KEY is required for Claude provider")
       else ret tt
   | _ => ret tt
   end ;;;
   match Config.provider_type config with
   | ProviderType.OPENAI =>
       if missing_key config "openai" then
         raise (ConfigError "OPENAI_API_KEY is required for OpenAI provider")
       else ret tt
   | _ => ret tt
   end ;;;
   match Config.provider_type config with
   | ProviderType.GEMINI =>
       if missing_key config "google" then
         raise (ConfigError "GOOGLE_API_KEY is required for Gemini provider")
       else ret tt
   | _ => ret tt
   end)%py.

(** [load_config]: the arguments of [Config(...)] are evaluated in the
    order they are written, so the first variable at fault is the one
    reported. *)
Definition load_config {S} : M S Config.t :=
  (agent_name <- _get_required "OMNIA_AGENT_NAME" ;;
   namespace <- _get_required "OMNIA_NAMESPACE" ;;
   let promptpack_path :=
     _get_or_default "OMNIA_PROMPTPACK_PATH" "/etc/omnia/pack/pack.json" in
   let promptpack_name := getenv_or "OMNIA_PROMPTPACK_NAME" "" in
   let promptpack_namespace := getenv_or "OMNIA_PROMPTPACK_NAMESPACE" "" in
   let prompt_name := _get_or_default "OMNIA_PROMPT_NAME" "default" in
   session_type <-
     _parse_session_type (getenv_or "OMNIA_SESSION_TYPE" "memory") ;;
   let session_url := getenv_or "OMNIA_SESSION_URL" "" in
   session_ttl_seconds <- _parse_int "OMNIA_SESSION_TTL" 86400 ;;
   provider_type <-
     _parse_provider_type (getenv_or "OMNIA_PROVIDER_TYPE" "mock") ;;
   let provider_model := getenv_or "OMNIA_PROVIDER_MODEL" "" in
   let provider_base_url := getenv_or "OMNIA_PROVIDER_BASE_URL" "" in
   let provider_ref_name := getenv_or "OMNIA_PROVIDER_REF_NAME" "" in
   let provider_ref_namespace :=
     getenv_or "OMNIA_PROVIDER_REF_NAMESPACE" "" in
   context_window <- _parse_int "OMNIA_CONTEXT_WINDOW" 0 ;;
   let truncation_strategy := getenv_or "OMNIA_TRUNCATION_STRATEGY" "" in
   let mock_config_path :=
     _get_or_default "OMNIA_MOCK_CONFIG"
       (getenv_or "OMNIA_PROVIDER_MOCK_CONFIG" "") in
   let media_base_path :=
     _get_or_default "OMNIA_MEDIA_BASE_PATH" "/etc/omnia/media" in
   let tools_config_path := getenv_or "OMNIA_TOOLS_CONFIG" "" in
   grpc_port <- _parse_int "OMNIA_GRPC_PORT" 9000 ;;
   health_port <- _parse_int "OMNIA_HEALTH_PORT" 9001 ;;
   let api_keys : gmap string string :=
     <["google" := getenv_or "GOOGLE_API_KEY" ""]>
       (<["openai" := getenv_or "OPENAI_API_KEY" ""]>
          (<["anthropic" := getenv_or "ANTHROPIC_API_KEY" ""]> ∅)) in
   let config :=
     Config.mk agent_name namespace promptpack_path promptpack_name
       promptpack_namespace prompt_name session_type session_url
       session_ttl_seconds provider_type provider_model provider_base_url
       provider_ref_name provider_ref_namespace context_window
       truncation_strategy mock_config_path media_base_path
       tools_config_path grpc_port health_port api_keys in
   _validate_config config ;;;
   ret config)%py.
End Loading.

(* ===================================================================== *)
(** ** Vocabulary of the properties                                       *)
(* ===================================================================== *)

(** [attempts_fail network json_loads a args n log log']: starting from the
    network log [log], [n] consecutive calls of the adapter's [execute] each
    raise a retryable [ToolAdapterError], and leave the log at [log']. *)
Inductive attempts_fail (network : Net -> request -> http_reply)
    (json_loads : string -> option json) (a : HTTPToolAdapter.t) (args : json)
  : nat -> Net -> Net -> Prop :=
| attempts_fail_O log : attempts_fail network json_loads a args O log log
| attempts_fail_S n log log1 log2 m t :
    HTTPToolAdapter.execute network json_loads a args log
    = (Raise (ToolAdapterError m t true), log1) ->
    attempts_fail network json_loads a args n log1 log2 ->
    attempts_fail network json_loads a args (S n) log log2.


(** The key under which [initialize] registers the adapter built from the
    handler [h]: the [tool_name] of that adapter. *)
Definition registers_as (h : HandlerConfig.t) : string :=
  match HandlerConfig.tool h with
  | Some td => ToolDefinition.name td
  | None => HandlerConfig.name h
  end.


(** The last [n] elements of a list. *)
Definition lastn {A} (n : nat) (l : list A) : list A :=
  drop (length l - n) l.

(** Calls on an in-process store, made one after the other by callers that
    go on after an exception. *)
Inductive store_op :=
| op_get (session_id : string)
| op_save (session : loc)
| op_delete (session_id : string)
| op_cleanup_expired.

Definition run_op (clock : nat -> datetime.t) (o : store_op)
    (e : Env InMemorySessionStore.t) : Env InMemorySessionStore.t :=
  match o with
  | op_get sid => snd (InMemorySessionStore.get clock sid e)
  | op_save l => snd (InMemorySessionStore.save clock l e)
  | op_delete sid => snd (InMemorySessionStore.delete sid e)
  | op_cleanup_expired => snd (InMemorySessionStore.cleanup_expired clock e)
  end.

Definition run_ops (clock : nat -> datetime.t) (ops : list store_op)
    (e : Env InMemorySessionStore.t) : Env InMemorySessionStore.t :=
  fold_left (fun e o => run_op clock o e) ops e.

Definition is_save (o : store_op) : bool :=
  match o with op_save _ => true | _ => false end.

(** The keys of the store's dictionary, least recently used first. *)
Definition stored_ids (e : Env InMemorySessionStore.t) : list string :=
  map fst (InMemorySessionStore._sessions (store e)).

(** The dictionary of a store of capacity [C], over the heap [h]: no id
    twice, at most [C] entries, each entry filed under its session's id. *)
Definition dict_ok (C : Z) (h : list Session.t) (d : list (string * loc))
  : Prop :=
  NoDup (map fst d)
  /\ (length d <= Z.to_nat C)%nat
  /\ forall k l, (k, l) ∈ d -> Session.session_id (deref h l) = k.

(** The invariant of an in-process store created with [ttl] and capacity
    [C]; [h0] is the heap it started on (session ids never change). *)
Definition store_ok (ttl C : Z) (h0 : list Session.t)
    (e : Env InMemorySessionStore.t) : Prop :=
  InMemorySessionStore.ttl (store e) = ttl
  /\ InMemorySessionStore.max_sessions (store e) = C
  /\ (forall l, Session.session_id (deref (heap e) l)
                = Session.session_id (deref h0 l))
  /\ dict_ok C (heap e) (InMemorySessionStore._sessions (store e)).

(** The session object the dictionary holds for an id. *)
Definition stored_session (e : Env InMemorySessionStore.t)
    (session_id : string) : option Session.t :=
  deref (heap e) <$> assoc session_id (InMemorySessionStore._sessions (store e)).


(** The store after the saves of a turn on a new session held at [l]. *)
Definition saved (st : InMemorySessionStore.t) (session_id : string)
    (l : loc) : InMemorySessionStore.t :=
  InMemorySessionStore.mk (InMemorySessionStore.ttl st)
    (InMemorySessionStore.max_sessions st)
    (lastn (Z.to_nat (InMemorySessionStore.max_sessions st - 1))
       (InMemorySessionStore.remove session_id
          (InMemorySessionStore._sessions st))
     ++ [(session_id, l)]).

(** The message classes the session record keeps apart. *)
Definition core_message (m : message) : Prop :=
  match m with
  | OtherMessage _ _ _ _ => False
  | _ => True
  end.

(** The record [_serialize] hands to [json.dumps]. *)
Definition session_record (session : Session.t) : json :=
  JObj [("messages",
         JArr (map RedisSessionStore.serialize_message
                 (Session.messages session)));
        ("metadata", Session.metadata session);
        ("created_at",
         JStr (datetime.isoformat (Session.created_at session)));
        ("updated_at",
         JStr (datetime.isoformat (Session.updated_at session)))].

(** The terminal messages of a turn. *)
Definition is_terminal (m : runtime_pb2.ServerMessage) : bool :=
  match m with
  | runtime_pb2.done _ _ | runtime_pb2.error _ _ => true
  | _ => false
  end.

Definition no_terminal (ms : list runtime_pb2.ServerMessage) : Prop :=
  Forall (fun m => is_terminal m = false) ms.

(** A generator step all of whose yields satisfy [P], whatever it returns. *)
Definition emits {St A} (P : runtime_pb2.ServerMessage -> Prop)
    (m : M (Env St * list runtime_pb2.ServerMessage) A) : Prop :=
  forall e out, exists ys,
    snd (snd (m (e, out))) = out ++ ys /\ Forall P ys.

(** A generator step that yields no terminal message. *)
Definition quiet {St A} (m : M (Env St * list runtime_pb2.ServerMessage) A)
  : Prop :=
  emits (fun msg => is_terminal msg = false) m.

(** A message whose error flag, if it has one, is not set. *)
Definition unflagged (msg : runtime_pb2.ServerMessage) : Prop :=
  match msg with
  | runtime_pb2.tool_result _ _ is_error => is_error = false
  | _ => True
  end.

(** A generator step that yields one [done], as its last message, when it
    returns, and no terminal message when it raises. *)
Definition closing {St A} (m : M (Env St * list runtime_pb2.ServerMessage) A)
  : Prop :=
  forall e out, exists ys,
    no_terminal ys
    /\ match m (e, out) with
       | (Ok _, (_, out')) =>
           exists final_content usage,
             out' = out ++ ys ++ [runtime_pb2.done final_content usage]
       | (Raise _, (_, out')) => out' = out ++ ys
       end.

(** The engine yielding the events [evs] and going on as [rest]. *)
Definition emit (evs : list event) (rest : stream) : stream :=
  foldr Yield rest evs.

(** A text-delta event. *)
Definition text_delta (s : string) : event :=
  on_chat_model_stream (Some (JStr s)).

(** Whether the session an entry of the dictionary points to has outlived
    [ttl] at the clock reading [now]. *)
Definition expired (now : datetime.t) (ttl : Z) (h : list Session.t)
    (kv : string * loc) : bool :=
  datetime.sub now (Session.updated_at (deref h (snd kv))) >? ttl.

(** A network that gives the same reply to every request. *)
Definition always (reply : http_reply) : Net -> request -> http_reply :=
  fun _ _ => reply.

(** What [HTTPToolAdapter(handler)] gives: the adapter, or the exception
    the constructor raises. *)
Definition built (h : HandlerConfig.t) : result HTTPToolAdapter.t :=
  fst (HTTPToolAdapter.init h tt).

(** The text a list of server messages streams: the contents of its chunks,
    one after the other. *)
Fixpoint chunk_text (ms : list runtime_pb2.ServerMessage) : string :=
  match ms with
  | [] => ""
  | runtime_pb2.chunk s :: rest => s +:+ chunk_text rest
  | _ :: rest => chunk_text rest
  end.

(** What the event loop may yield: a chunk that is not empty, a tool call,
    or a tool result. *)
Definition streamed (m : runtime_pb2.ServerMessage) : Prop :=
  match m with
  | runtime_pb2.chunk s => s <> ""
  | runtime_pb2.tool_call _ _ _ => True
  | runtime_pb2.tool_result _ _ _ => True
  | _ => False
  end.



(** The assistant message a turn files for the text [final_content]. *)
Definition reply_for (final_content : string) : list message :=
  if String.eqb final_content "" then []
  else [AIMessage (JStr final_content) (JObj [])].

(** The session a turn on [session_id] starts from: the stored one, if it
    has not outlived the TTL at the turn's first clock reading. *)
Definition live_session (clock : nat -> datetime.t)
    (e : Env InMemorySessionStore.t) (session_id : string) : option loc :=
  match assoc session_id (InMemorySessionStore._sessions (store e)) with
  | Some l =>
      if datetime.sub (clock (ticks e)) (Session.updated_at (deref (heap e) l))
         >? InMemorySessionStore.ttl (store e)
      then None else Some l
  | None => None
  end.

Definition live_history (clock : nat -> datetime.t)
    (e : Env InMemorySessionStore.t) (session_id : string) : list message :=
  match live_session clock e session_id with
  | Some l => Session.messages (deref (heap e) l)
  | None => []
  end.

(** The number of messages a request stream delivers, and whether it ends
    by breaking. *)
Fixpoint received (rs : RuntimeServicer.requests) : nat :=
  match rs with
  | RuntimeServicer.Next _ rest => S (received rest)
  | _ => O
  end.

Fixpoint broken (rs : RuntimeServicer.requests) : bool :=
  match rs with
  | RuntimeServicer.Next _ rest => broken rest
  | RuntimeServicer.Broken _ => true
  | RuntimeServicer.Closed => false
  end.

(** The text of a LangChain text part, and the URL of an image part. *)
Definition part_text (j : json) : option string :=
  match j with
  | JObj [("type", JStr "text"); ("text", JStr s)] => Some s
  | _ => None
  end.

Definition part_image_url (j : json) : option string :=
  match j with
  | JObj [("type", JStr "image_url"); ("image_url", JObj [("url", JStr u)])] =>
      Some u
  | _ => None
  end.

Definition is_text_part (p : runtime_pb2.ContentPart) : bool :=
  String.eqb (runtime_pb2.type p) "text".

(** Where the image of a content part is: its URL or, without one, its
    inline data as a [data:] URL.  A part of another type, and an image
    part with neither, has none. *)
Definition image_source (p : runtime_pb2.ContentPart) : option string :=
  if String.eqb (runtime_pb2.type p) "image" then
    match runtime_pb2.media p with
    | Some m =>
        if String.eqb (runtime_pb2.url m) "" then
          if String.eqb (runtime_pb2.data m) "" then None
          else Some ("data:" +:+ runtime_pb2.mime_type m +:+ ";base64,"
                     +:+ runtime_pb2.data m)
        else Some (runtime_pb2.url m)
    | None => None
    end
  else None.

(** A LangChain content part as [_build_user_message] writes it. *)
Definition lc_content_part (j : json) : Prop :=
  is_Some (part_text j)
  \/ exists u, part_image_url j = Some u /\ u <> "".

(** A stored text that is no session record whatever the messages in it:
    it is not JSON, or not a JSON object, or an object without
    [created_at] or [updated_at]. *)
Definition unreadable (json_loads : string -> option json) (data : string)
  : Prop :=
  match json_loads data with
  | Some (JObj fields) =>
      assoc "created_at" fields = None \/ assoc "updated_at" fields = None
  | _ => True
  end.

(** What [_deserialize] makes of the text stored for a session: the
    session, or the exception it raises. *)
Definition decoded (json_loads : string -> option json)
    (session_id data : string) : result Session.t :=
  fst (RedisSessionStore._deserialize json_loads session_id data tt).

(* ===================================================================== *)
(** ** Example configurations                                             *)
(* ===================================================================== *)

Module Demo.

(** The handler of [tests/test_tools.py], with its two retries. *)
Definition weather : HandlerConfig.t :=
  HandlerConfig.mk "weather" "http" "http://api.weather.com/v1"
    (Some (ToolDefinition.mk "get_weather" "Get weather for a location"
             (JObj [("type", JStr "object")]) None))
    (Some (HTTPConfig.mk "http://api.weather.com/v1" "POST"
             {["X-API-Key" := "test-key"]} "application/json"))
    "30s" 2.

Definition weather_manager : ToolManager.t :=
  snd (ToolManager.initialize
         (ToolManager.new (Some (ToolsConfig.mk [weather])))).

Definition weather_adapter : HTTPToolAdapter.t :=
  HTTPToolAdapter.mk weather "http://api.weather.com/v1" "POST"
    {["X-API-Key" := "test-key"]} "application/json" 30%float.

Definition weather_request : request :=
  HTTPToolAdapter.build_request weather_adapter (JObj []).

(** A server that is unavailable for the first [n] requests. *)
Definition up_after (n : nat) : Net -> request -> http_reply :=
  fun log _ =>
    if (length log <? n)%nat then Response 503 "unavailable"
    else Response 200 "sunny".

Definition always_down : Net -> request -> http_reply :=
  fun _ _ => Response 503 "unavailable".

Definition rejecting : Net -> request -> http_reply :=
  fun _ _ => Response 404 "no such city".

Definition no_json : string -> option json := fun _ => None.

(** Sessions and clocks for the in-process store. *)
Definition new_year : datetime.t := datetime.mk 2025 1 1 0 0 0 0.
Definition next_day : datetime.t := datetime.mk 2025 1 2 0 0 0 0.

Definition fresh_session (session_id : string) : Session.t :=
  Session.mk session_id [] (JObj []) new_year new_year.

(** A store with a one-minute TTL holding one session, read a day later. *)
Definition stale : Env InMemorySessionStore.t :=
  mkEnv [fresh_session "a"] 0
    (InMemorySessionStore.mk (datetime.seconds 60) 10 [("a", 0%nat)]) [].
Definition a_day_later : nat -> datetime.t := fun _ => next_day.

(** An empty store of capacity [capacity]; two session objects. *)
Definition empty_store (ttl_seconds capacity : Z)
  : Env InMemorySessionStore.t :=
  mkEnv [fresh_session "a"; fresh_session "b"] 0
    (InMemorySessionStore.new ttl_seconds capacity) [].
(** The clock stands still for two readings, then jumps by a day. *)
Definition jumping : nat -> datetime.t :=
  fun n => if (n <? 2)%nat then new_year else next_day.
Definition standing : nat -> datetime.t := fun _ => new_year.

(** [json.dumps] with its default separators, for values without floats
    (a float, which no example here contains, is written as [0.0]) and
    strings whose only special characters are quotes, backslashes and
    newlines. *)
Definition quote : string := dquote.

Fixpoint escape (l : list ascii) : string :=
  match l with
  | [] => ""
  | c :: l' =>
      (if Ascii.eqb c "034" then "\" +:+ quote
       else if Ascii.eqb c "\" then "\\"
       else if Ascii.eqb c "010" then "\n"
       else String c "") +:+ escape l'
  end.

Fixpoint render (v : json) : string :=
  match v with
  | JNull => "null"
  | JBool true => "true"
  | JBool false => "false"
  | JInt n => pretty n
  | JFloat _ => "0.0"
  | JStr s => quote +:+ escape (chars s) +:+ quote
  | JArr items =>
      "[" +:+ (fix go (l : list json) : string :=
                 match l with
                 | [] => ""
                 | [x] => render x
                 | x :: l' => render x +:+ ", " +:+ go l'
                 end) items +:+ "]"
  | JObj fields =>
      "{" +:+ (fix go (l : list (string * json)) : string :=
                 match l with
                 | [] => ""
                 | [(k, x)] =>
                     quote +:+ escape (chars k) +:+ quote +:+ ": "
                     +:+ render x
                 | (k, x) :: l' =>
                     quote +:+ escape (chars k) +:+ quote +:+ ": "
                     +:+ render x +:+ ", " +:+ go l'
                 end) fields +:+ "}"
  end.

(** [json.loads] for the same fragment: [null], booleans, integers, strings
    with the three escapes above, arrays and objects. *)
Fixpoint skip_ws (l : list ascii) : list ascii :=
  match l with
  | c :: l' => if PyFloat.is_space c then skip_ws l' else l
  | [] => []
  end.

Fixpoint read_string (l acc : list ascii) : option (string * list ascii) :=
  match l with
  | [] => None
  | c :: l' =>
      if Ascii.eqb c "034" then Some (of_chars (rev acc), l')
      else if Ascii.eqb c "\" then
        match l' with
        | c' :: l'' =>
            if Ascii.eqb c' "034" then read_string l'' ("034"%char :: acc)
            else if Ascii.eqb c' "\" then read_string l'' ("\"%char :: acc)
            else if Ascii.eqb c' "n" then read_string l'' ("010"%char :: acc)
            else None
        | [] => None
        end
      else read_string l' (c :: acc)
  end.

Fixpoint read_digits (l : list ascii) (acc : Z) (n : nat)
  : Z * nat * list ascii :=
  match l with
  | c :: l' =>
      match PyFloat.digit_val c with
      | Some d => read_digits l' (10 * acc + d) (S n)
      | None => (acc, n, l)
      end
  | [] => (acc, n, l)
  end.

Definition read_int (l : list ascii) : option (json * list ascii) :=
  let '(neg, l') :=
    match l with
    | c :: l' => if Ascii.eqb c "-" then (true, l') else (false, l)
    | [] => (false, l)
    end in
  let '(v, n, rest) := read_digits l' 0 0 in
  match n with
  | O => None
  | _ => Some (JInt (if neg then - v else v), rest)
  end.

Fixpoint read_value (fuel : nat) (l : list ascii)
  : option (json * list ascii) :=
  match fuel with
  | O => None
  | S fuel =>
      match skip_ws l with
      | "n"%char :: "u"%char :: "l"%char :: "l"%char :: r => Some (JNull, r)
      | "t"%char :: "r"%char :: "u"%char :: "e"%char :: r =>
          Some (JBool true, r)
      | "f"%char :: "a"%char :: "l"%char :: "s"%char :: "e"%char :: r =>
          Some (JBool false, r)
      | "034"%char :: r =>
          match read_string r [] with
          | Some (s, r') => Some (JStr s, r')
          | None => None
          end
      | "["%char :: r =>
          match skip_ws r with
          | "]"%char :: r' => Some (JArr [], r')
          | _ => match read_items fuel r [] with
                 | Some (items, r') => Some (JArr items, r')
                 | None => None
                 end
          end
      | "{"%char :: r =>
          match skip_ws r with
          | "}"%char :: r' => Some (JObj [], r')
          | _ => match read_fields fuel r [] with
                 | Some (fields, r') => Some (JObj fields, r')
                 | None => None
                 end
          end
      | r => read_int r
      end
  end
with read_items (fuel : nat) (l : list ascii) (acc : list json)
  : option (list json * list ascii) :=
  match fuel with
  | O => None
  | S fuel =>
      match read_value fuel l with
      | Some (v, r) =>
          match skip_ws r with
          | ","%char :: r' => read_items fuel r' (v :: acc)
          | "]"%char :: r' => Some (rev (v :: acc), r')
          | _ => None
          end
      | None => None
      end
  end
with read_fields (fuel : nat) (l : list ascii) (acc : list (string * json))
  : option (list (string * json) * list ascii) :=
  match fuel with
  | O => None
  | S fuel =>
      match skip_ws l with
      | "034"%char :: r =>
          match read_string r [] with
          | Some (k, r1) =>
              match skip_ws r1 with
              | ":"%char :: r2 =>
                  match read_value fuel r2 with
                  | Some (v, r3) =>
                      match skip_ws r3 with
                      | ","%char :: r4 => read_fields fuel r4 ((k, v) :: acc)
                      | "}"%char :: r4 => Some (rev ((k, v) :: acc), r4)
                      | _ => None
                      end
                  | None => None
                  end
              | _ => None
              end
          | None => None
          end
      | _ => None
      end
  end.

Definition parse (s : string) : option json :=
  match read_value (2 * String.length s + 2) (chars s) with
  | Some (v, r) => match skip_ws r with [] => Some v | _ => None end
  | None => None
  end.

(** A conversation with one message of each class. *)
Definition conversation : Session.t :=
  Session.mk "s-42"
    [SystemMessage (JStr "You are terse.") (JObj []);
     HumanMessage
       (JArr [JObj [("type", JStr "text"); ("text", JStr "weather?")]])
       (JObj []);
     AIMessage (JStr "") (JObj [("tool_calls", JArr [JStr "run-1"])]);
     ToolMessage (JStr "sunny, 21 degrees") (JStr "run-1") (JObj []);
     AIMessage (JStr "Sunny.") (JObj [])]
    (JObj [("tenant", JStr "acme"); ("turns", JInt 2)])
    (datetime.mk 2025 1 1 9 30 0 0)
    (datetime.mk 2025 1 1 9 30 7 250000).

(** Handlers, engines and a newly started process. *)
Definition pack : PromptPack := mkPack ["default"] (fun _ => ["get_weather"]).

Definition plain : LangChainHandler.t :=
  LangChainHandler.mk "default" pack None.

Definition with_weather : LangChainHandler.t :=
  LangChainHandler.mk "default" pack (Some weather_manager).

Definition started : Env InMemorySessionStore.t :=
  mkEnv [] 0 (LangChainHandler._create_session_store 86400) [].

Definition greeting : list string -> list message -> json -> stream :=
  fun _ _ _ =>
    emit [text_delta "Hi"; text_delta " there";
          on_llm_end (Some (mkTokenUsage (Some 5) (Some 3)))] Stop.

Definition overloaded : exn := PyException "RuntimeError" "model overloaded".

Definition breaking : list string -> list message -> json -> stream :=
  fun _ _ _ => emit [text_delta "Hi"] (Throw overloaded).

Definition paris : json := JObj [("location", JStr "Paris")].

(** An engine that asks for the weather from the thread [caller], reports
    what the tool handler returned, and apologises. *)
Definition reporting (r : option string) : stream :=
  Yield (on_tool_end "run-1" (Json (JStr (default "" r))))
    (Yield (text_delta "Sorry") Stop).

Definition forecasting_from (caller : asyncio.thread)
  : list string -> list message -> json -> stream :=
  fun _ _ _ =>
    Yield (on_tool_start "run-1" "get_weather" (Json paris))
      (CallTool caller "get_weather" paris reporting).

(** The tool is called where a loop is running, and from a worker thread
    of an executor. *)
Definition forecasting : list string -> list message -> json -> stream :=
  forecasting_from asyncio.running_loop.

Definition forecasting_worker
  : list string -> list message -> json -> stream :=
  forecasting_from (asyncio.no_loop "asyncio_0").

(** A handler without [tool] block named like the tool another handler
    declares. *)
Definition lookup : HandlerConfig.t :=
  HandlerConfig.mk "lookup" "http" "http://lookup.internal" None None "30s" 5.

Definition search : HandlerConfig.t :=
  HandlerConfig.mk "search" "http" "http://search.internal"
    (Some (ToolDefinition.mk "lookup" "Look something up" (JObj []) None))
    None "30s" 3.

Definition shadowed : ToolsConfig.t := ToolsConfig.mk [search; lookup].

Definition shadowed_manager : ToolManager.t :=
  snd (ToolManager.initialize (ToolManager.new (Some shadowed))).

(** A store with a one-minute TTL holding a session last saved the day
    before and one saved just now. *)
Definition mixed : Env InMemorySessionStore.t :=
  mkEnv [fresh_session "a";
         Session.mk "b" [] (JObj []) next_day next_day] 0
    (InMemorySessionStore.mk (datetime.seconds 60) 10
       [("a", 0%nat); ("b", 1%nat)]) [].

(** The clock stands still for three readings, then jumps by a day. *)
Definition late : nat -> datetime.t :=
  fun n => if (n <? 3)%nat then new_year else next_day.

(** A store that can hold nothing. *)
Definition no_room : Env InMemorySessionStore.t :=
  mkEnv [fresh_session "a"] 0 (InMemorySessionStore.new 60 0) [].

(** A handler whose retry count is below zero. *)
Definition never : HandlerConfig.t :=
  HandlerConfig.mk "never" "http" "http://never.internal"
    (Some (ToolDefinition.mk "never" "Never called" (JObj []) None))
    None "5s" (-1).

Definition never_manager : ToolManager.t :=
  snd (ToolManager.initialize
         (ToolManager.new (Some (ToolsConfig.mk [never])))).

(** A second handler for the tool that [search] declares. *)
Definition mirror : HandlerConfig.t :=
  HandlerConfig.mk "mirror" "http" "http://mirror.internal"
    (Some (ToolDefinition.mk "lookup" "Look something up" (JObj []) None))
    None "30s" 0.

Definition mirrored : ToolsConfig.t := ToolsConfig.mk [search; mirror].

(** A handler whose timeout is given in milliseconds. *)
Definition hasty : HandlerConfig.t :=
  HandlerConfig.mk "hasty" "http" "http://hasty.internal" None None "500ms" 0.

Definition mistimed : ToolsConfig.t :=
  ToolsConfig.mk [weather; hasty; lookup].

(** [str.lower] and [int] on ASCII text: upper-case letters are lowered;
    an integer is, between optional whitespace, an optional sign and
    digits, single underscores allowed between digits. *)
Definition lowercase (s : string) : string :=
  of_chars (map PyFloat.lower (chars s)).

Definition decimal (s : string) : option Z :=
  let '(neg, l) := PyFloat.sign (PyFloat.strip (chars s)) in
  match PyFloat.digitpart l 0 0 false with
  | (n, digits, [], _) =>
      if 0 <? digits then Some (if neg then - n else n) else None
  | _ => None
  end.

(** The environment of a deployment on Claude with Redis sessions. *)
Definition deployment : gmap string string :=
  <["OMNIA_AGENT_NAME" := "support-bot"]>
    (<["OMNIA_NAMESPACE" := "prod"]>
       (<["OMNIA_SESSION_TYPE" := "Redis"]>
          (<["OMNIA_SESSION_URL" := "redis://cache:6379"]>
             (<["OMNIA_SESSION_TTL" := "3_600"]>
                (<["OMNIA_PROVIDER_TYPE" := "CLAUDE"]>
                   (<["ANTHROPIC_API_KEY" := "sk-test"]> ∅)))))).

(** A handler configured for a prompt its pack does not have. *)
Definition unready : LangChainHandler.t :=
  LangChainHandler.mk "missing" pack None.

(** A Redis server on which nothing expires and no call fails. *)
Definition kv : redis.Redis (gmap string string) :=
  {| redis.from_url := fun _ => ret tt;
     redis.get := fun key => gets (fun m => m !! key);
     redis.setex := fun key _ value => modify (<[key := value]>);
     redis.delete := fun key => modify (delete key);
     redis.close := ret tt |}.

Definition redis_store (server : gmap string string)
  : RedisSessionStore.t (gmap string string) :=
  RedisSessionStore.new "redis://localhost:6379" 86400 "omnia:session:" server.

(** A process whose Redis holds nothing, one whose Redis holds a record
    that is not JSON, and one that holds a conversation in memory. *)
Definition redis_started : Env (RedisSessionStore.t (gmap string string)) :=
  mkEnv [] 0 (redis_store ∅) [].

Definition garbled : gmap string string :=
  {["omnia:session:s1" := "not json"]}.

Definition redis_garbled : Env (RedisSessionStore.t (gmap string string)) :=
  mkEnv [] 0 (redis_store garbled) [].

Definition redis_talking : Env (RedisSessionStore.t (gmap string string)) :=
  mkEnv [conversation] 0 (redis_store ∅) [].

End Demo.

(* ===================================================================== *)
(** * Properties                                                          *)
(* ===================================================================== *)

(** ** Timeout strings *)

(** C9.  [_parse_timeout] maps ["30s"] to 30.0, ["2m"] to 120.0, ["1h"] to
    3600.0, a bare number to itself and an unparseable string without unit
    suffix to the default 30.0; but a string that ends in [s], [m] or [h]
    whose front is not a number -- ["500ms"], ["1 hours"]... -- raises
    [ValueError] instead of yielding the default: the [try] covers the
    suffix-free branch only. *)
Theorem parse_timeout_cases (S : Type) (s : S) :
  HTTPToolAdapter._parse_timeout "30s" s = (Ok 30%float, s)
  /\ HTTPToolAdapter._parse_timeout "2m" s = (Ok 120%float, s)
  /\ HTTPToolAdapter._parse_timeout "1h" s = (Ok 3600%float, s)
  /\ HTTPToolAdapter._parse_timeout "45" s = (Ok 45%float, s)
  /\ HTTPToolAdapter._parse_timeout "soon" s = (Ok 30%float, s)
  /\ HTTPToolAdapter._parse_timeout "" s = (Ok 30%float, s)
  /\ HTTPToolAdapter._parse_timeout "500ms" s
     = (Raise (PyException "ValueError"
                 "could not convert string to float: '500m'"), s)
  /\ HTTPToolAdapter._parse_timeout "1 hours" s
     = (Raise (PyException "ValueError"
                 "could not convert string to float: '1 hour'"), s).
Proof. repeat split; vm_compute; reflexivity. Qed.

(** ** Tool dispatch *)

Section DispatchFacts.
Variable network : Net -> request -> http_reply.
Variable json_loads : string -> option json.

Local Abbreviation adapter_execute :=
  (HTTPToolAdapter.execute network json_loads).
Local Abbreviation retrying := (ToolManager.attempt_loop network json_loads).
Local Abbreviation failing := (attempts_fail network json_loads).

(** Every call of the adapter sends exactly one request. *)
Lemma adapter_execute_log a args log :
  snd (adapter_execute a args log)
  = log ++ [HTTPToolAdapter.build_request a args].
Proof.
  unfold HTTPToolAdapter.execute, bind, HTTPToolAdapter.send; simpl.
  destruct (network log _) as [status text|status text msg| | |]; simpl;
    try reflexivity.
  - destruct (_ && _); simpl; [destruct (json_loads text)|]; reflexivity.
  - destruct (_ && _); reflexivity.
Qed.

Lemma adapter_execute_length a args log r log' :
  adapter_execute a args log = (r, log') ->
  length log' = S (length log).
Proof.
  intros E. pose proof (adapter_execute_log a args log) as L.
  rewrite E in L; simpl in L; subst log'.
  rewrite length_app; simpl; lia.
Qed.

Lemma attempts_fail_length a args n log log' :
  failing a args n log log' -> length log' = (length log + n)%nat.
Proof.
  induction 1 as [|n log log1 log2 m t E F IH]; [lia|].
  apply adapter_execute_length in E. lia.
Qed.

Lemma attempts_fail_snoc a args n log log1 log2 m t :
  failing a args n log log1 ->
  adapter_execute a args log1 = (Raise (ToolAdapterError m t true), log2) ->
  failing a args (S n) log log2.
Proof.
  induction 1 as [|n log log1 log1' m' t' E F IH]; intros E2.
  - eapply attempts_fail_S; [exact E2 | constructor].
  - eapply attempts_fail_S; [exact E | auto].
Qed.

Lemma attempts_fail_last a args n log log2 :
  failing a args (S n) log log2 ->
  exists log1 m t,
    failing a args n log log1
    /\ adapter_execute a args log1 = (Raise (ToolAdapterError m t true), log2).
Proof.
  revert log log2.
  induction n as [|n IH]; intros log log2 F; inversion F; subst.
  - match goal with X : failing _ _ O _ _ |- _ => inversion X; subst end.
    eexists _, _, _; split; [constructor | eassumption].
  - match goal with X : failing _ _ (S n) _ _ |- _ =>
      destruct (IH _ _ X) as (l & m' & t' & Fn & E) end.
    eexists _, _, _; split; [eapply attempts_fail_S|]; eassumption.
Qed.

(** While attempts fail retryably and the budget is not used up, the loop
    moves on to the next attempt. *)
Lemma attempt_loop_skips a tool args N n log log1 :
  failing a args n log log1 ->
  forall i last, 0 <= i -> i + Z.of_nat n <= N ->
    exists last',
      retrying a tool args N (seqZ i (N + 1 - i)) last log
      = retrying a tool args N
          (seqZ (i + Z.of_nat n) (N + 1 - i - Z.of_nat n)) last' log1.
Proof.
  induction 1 as [|n log log1 log2 m t E F IH]; intros i last Hi Hn.
  - exists last. do 2 f_equal; lia.
  - destruct (IH (i + 1) (Some (ToolAdapterError m t true)))
      as [last' IH']; [lia | lia |].
    exists last'.
    rewrite seqZ_cons by lia. simpl. unfold try_except at 1. rewrite E.
    simpl. destruct (Z.leb_spec N i); [lia|].
    replace (Z.succ i) with (i + 1) by lia.
    replace (Z.pred (N + 1 - i)) with (N + 1 - (i + 1)) by lia.
    rewrite IH'. do 2 f_equal; lia.
Qed.

Lemma attempt_loop_success a tool args N i rest last log r log' :
  adapter_execute a args log = (Ok r, log') ->
  retrying a tool args N (i :: rest) last log = (Ok r, log').
Proof. intros E. simpl. unfold try_except. rewrite E. reflexivity. Qed.

Lemma attempt_loop_final a tool args N i rest last log m t b log' :
  adapter_execute a args log = (Raise (ToolAdapterError m t b), log') ->
  b = false \/ N <= i ->
  retrying a tool args N (i :: rest) last log
  = (Raise (ToolAdapterError m t b), log').
Proof.
  intros E Hb. simpl. unfold try_except. rewrite E.
  destruct Hb as [->|Hb]; [reflexivity|].
  destruct (Z.leb_spec N i); [|lia]. rewrite orb_true_r. reflexivity.
Qed.

End DispatchFacts.

(** C2.  Let [execute] find the adapter [a] for [tool] and the retry budget
    [N >= 0].  If the adapter fails retryably on its first [N] attempts and
    then succeeds with [r], [execute] returns [r] after exactly [N+1]
    requests; if it fails retryably [N+1] times in a row, [execute] raises
    (the last error) after exactly [N+1] requests; if its first attempt fails
    with a non-retryable error, [execute] raises that error after exactly one
    request. *)
Theorem execute_retry_budget network json_loads tm tool a args N log :
  ToolManager._adapters tm !! tool = Some a ->
  ToolManager.max_retries tm tool = N ->
  0 <= N ->
  (forall log1 log2 r,
      attempts_fail network json_loads a args (Z.to_nat N) log log1 ->
      HTTPToolAdapter.execute network json_loads a args log1 = (Ok r, log2) ->
      ToolManager.execute network json_loads tm tool args log = (Ok r, log2)
      /\ Z.of_nat (length log2) = Z.of_nat (length log) + N + 1)
  /\ (forall log2,
      attempts_fail network json_loads a args (S (Z.to_nat N)) log log2 ->
      (exists m t,
          ToolManager.execute network json_loads tm tool args log
          = (Raise (ToolAdapterError m t true), log2))
      /\ Z.of_nat (length log2) = Z.of_nat (length log) + N + 1)
  /\ (forall m t log1,
      HTTPToolAdapter.execute network json_loads a args log
      = (Raise (ToolAdapterError m t false), log1) ->
      ToolManager.execute network json_loads tm tool args log
      = (Raise (ToolAdapterError m t false), log1)
      /\ length log1 = S (length log)).
Proof.
  intros Ha HN N0. unfold ToolManager.execute. rewrite Ha, HN.
  replace (seqZ 0 (N + 1)) with (seqZ 0 (N + 1 - 0)) by (f_equal; lia).
  split; [|split].
  - intros log1 log2 r F E.
    destruct (attempt_loop_skips network json_loads a tool args N _ _ _ F 0 None)
      as [last' ->]; [lia | lia |].
    pose proof (attempts_fail_length _ _ _ _ _ _ _ F) as L1.
    pose proof (adapter_execute_length _ _ _ _ _ _ _ E) as L2.
    split; [|lia].
    replace (N + 1 - 0 - Z.of_nat (Z.to_nat N)) with 1 by lia.
    rewrite seqZ_cons by lia.
    eapply attempt_loop_success; eassumption.
  - intros log2 F.
    pose proof (attempts_fail_length _ _ _ _ _ _ _ F) as L.
    destruct (attempts_fail_last _ _ _ _ _ _ _ F) as (log1 & m & t & Fn & E).
    split; [|lia]. exists m, t.
    destruct (attempt_loop_skips network json_loads a tool args N _ _ _ Fn 0 None)
      as [last' ->]; [lia | lia |].
    replace (N + 1 - 0 - Z.of_nat (Z.to_nat N)) with 1 by lia.
    rewrite seqZ_cons by lia.
    eapply attempt_loop_final; [eassumption | right; lia].
  - intros m t log1 E. split.
    + rewrite seqZ_cons by lia.
      eapply attempt_loop_final; [eassumption | left; reflexivity].
    + eapply adapter_execute_length; eassumption.
Qed.

(** A run of [execute] from an empty log where the weather service is down
    twice, always, or rejects the request. *)
Lemma execute_retry_budget_witness :
  ToolManager.execute (Demo.up_after 2) Demo.no_json Demo.weather_manager
    "get_weather" (JObj []) []
  = (Ok (JStr "sunny"), replicate 3 Demo.weather_request)
  /\ (exists m t,
         ToolManager.execute Demo.always_down Demo.no_json
           Demo.weather_manager "get_weather" (JObj []) []
         = (Raise (ToolAdapterError m t true),
            replicate 3 Demo.weather_request))
  /\ ToolManager.execute Demo.rejecting Demo.no_json Demo.weather_manager
       "get_weather" (JObj []) []
     = (Raise (ToolAdapterError "HTTP error 404: no such city"
                 "get_weather" false), [Demo.weather_request]).
Proof.
  assert (Ha : ToolManager._adapters Demo.weather_manager !! "get_weather"
               = Some Demo.weather_adapter) by (vm_compute; reflexivity).
  assert (HN : ToolManager.max_retries Demo.weather_manager "get_weather" = 2)
    by (vm_compute; reflexivity).
  split; [|split].
  - destruct (execute_retry_budget (Demo.up_after 2) Demo.no_json
                Demo.weather_manager "get_weather" Demo.weather_adapter
                (JObj []) 2 [] Ha HN ltac:(lia)) as (H1 & _ & _).
    apply (H1 (replicate 2 Demo.weather_request)).
    + do 2 (eapply attempts_fail_S; [vm_compute; reflexivity|]).
      apply attempts_fail_O.
    + vm_compute; reflexivity.
  - destruct (execute_retry_budget Demo.always_down Demo.no_json
                Demo.weather_manager "get_weather" Demo.weather_adapter
                (JObj []) 2 [] Ha HN ltac:(lia)) as (_ & H2 & _).
    apply (H2 (replicate 3 Demo.weather_request)).
    do 3 (eapply attempts_fail_S; [vm_compute; reflexivity|]).
    apply attempts_fail_O.
  - destruct (execute_retry_budget Demo.rejecting Demo.no_json
                Demo.weather_manager "get_weather" Demo.weather_adapter
                (JObj []) 2 [] Ha HN ltac:(lia)) as (_ & _ & H3).
    apply (H3 "HTTP error 404: no such city" "get_weather").
    vm_compute; reflexivity.
Defined.

(** *** Registration and the budget lookup *)

Lemma tool_name_registers_as a :
  HTTPToolAdapter.tool_name a = registers_as (HTTPToolAdapter.handler a).
Proof. reflexivity. Qed.

Lemma init_handler (S : Type) h (a : HTTPToolAdapter.t) (s s' : S) :
  HTTPToolAdapter.init h s = (Ok a, s') ->
  HTTPToolAdapter.handler a = h /\ s' = s.
Proof.
  unfold HTTPToolAdapter.init, bind.
  destruct (HandlerConfig.http_config h) as [c|];
    destruct (HTTPToolAdapter._parse_timeout _ s) as [[f|e] s1] eqn:E;
    simpl; intros [= <- <-]; (split; [reflexivity|]).
  all: revert E; unfold HTTPToolAdapter._parse_timeout, py_float, bind,
         try_except, ret, raise;
       repeat match goal with
         | |- context [if ?b then _ else _] => destruct b
         | |- context [match PyFloat.float_of_str ?x with _ => _ end] =>
             destruct (PyFloat.float_of_str x)
         end; congruence.
Qed.

(** One step of [initialize]'s loop. *)
Lemma register_all_cons h rest m0 m :
  ToolManager.register_all (h :: rest) m0 = (Ok tt, m) ->
  exists m1,
    ToolManager.register_all rest m1 = (Ok tt, m)
    /\ ((HandlerConfig.type h = "http"
         /\ exists a, HTTPToolAdapter.handler a = h
                      /\ m1 = <[registers_as h := a]> m0)
        \/ (HandlerConfig.type h <> "http" /\ m1 = m0)).
Proof.
  simpl. unfold bind at 1. unfold ToolManager._create_adapter.
  destruct (String.eqb_spec (HandlerConfig.type h) "http") as [Ht|Ht].
  - unfold bind at 1.
    destruct (HTTPToolAdapter.init h m0) as [[a|e] s1] eqn:E; [|discriminate].
    apply init_handler in E as [Hh ->].
    unfold ret at 1. unfold bind at 1, modify at 1. intros R.
    exists (<[HTTPToolAdapter.tool_name a := a]> m0). split; [exact R|].
    left. split; [exact Ht|]. exists a. split; [exact Hh|].
    rewrite tool_name_registers_as, Hh. reflexivity.
  - unfold ret at 1. unfold bind at 1, ret at 1. intros R.
    exists m0. split; [exact R|]. right. split; [exact Ht | reflexivity].
Qed.

(** A key bound to an adapter of that name stays bound to one. *)
Lemma register_all_keeps hs : forall m0 m n a,
  ToolManager.register_all hs m0 = (Ok tt, m) ->
  m0 !! n = Some a -> HTTPToolAdapter.tool_name a = n ->
  exists a', m !! n = Some a' /\ HTTPToolAdapter.tool_name a' = n.
Proof.
  induction hs as [|h rest IH]; intros m0 m n a R Hn Ha.
  - injection R as <-. eauto.
  - apply register_all_cons in R as (m1 & R & [(_ & a1 & Hh & ->)|(_ & ->)]).
    + destruct (decide (registers_as h = n)) as [<-|Hne].
      * eapply (IH _ _ _ a1); [exact R | apply lookup_insert_eq |].
        rewrite tool_name_registers_as, Hh. reflexivity.
      * eapply (IH _ _ _ a); [exact R | | exact Ha].
        rewrite lookup_insert_ne by exact Hne. exact Hn.
    + eapply IH; eassumption.
Qed.

(** A binding survives the handlers that register under other names. *)
Lemma register_all_untouched hs : forall m0 m n,
  ToolManager.register_all hs m0 = (Ok tt, m) ->
  (forall h', h' ∈ hs -> HandlerConfig.type h' = "http" ->
              registers_as h' <> n) ->
  m !! n = m0 !! n.
Proof.
  induction hs as [|h rest IH]; intros m0 m n R Hfree.
  - injection R as <-. reflexivity.
  - apply register_all_cons in R as (m1 & R & [(Ht & a1 & Hh & ->)|(_ & ->)]).
    + rewrite (IH _ _ n R) by (intros; apply Hfree; [set_solver|assumption]).
      apply lookup_insert_ne. apply Hfree; [set_solver|exact Ht].
    + apply (IH _ _ n R). intros; apply Hfree; [set_solver|assumption].
Qed.

Lemma register_all_registers before h after m0 m :
  ToolManager.register_all (before ++ h :: after) m0 = (Ok tt, m) ->
  HandlerConfig.type h = "http" ->
  exists a,
    m !! registers_as h = Some a
    /\ HTTPToolAdapter.tool_name a = registers_as h
    /\ ((forall h', h' ∈ after -> HandlerConfig.type h' = "http" ->
                    registers_as h' <> registers_as h) ->
        HTTPToolAdapter.handler a = h).
Proof.
  revert m0. induction before as [|h0 before IH]; intros m0 R Ht.
  - simpl in R.
    apply register_all_cons in R as (m1 & R & [(_ & a1 & Hh & ->)|(Hn & _)]);
      [|contradiction].
    destruct (register_all_keeps _ _ _ (registers_as h) a1 R)
      as (a' & Ha' & Hn'); [apply lookup_insert_eq| |].
    { rewrite tool_name_registers_as, Hh. reflexivity. }
    exists a'. split; [exact Ha'|]. split; [exact Hn'|].
    intros Hfree.
    rewrite (register_all_untouched _ _ _ _ R Hfree), lookup_insert_eq in Ha'.
    congruence.
  - simpl in R.
    apply register_all_cons in R as (m1 & R & _). eapply IH; eassumption.
Qed.

Lemma find_handler_none p hs :
  (forall h, h ∈ hs -> p h = false) -> ToolsConfig.find_handler p hs = None.
Proof.
  induction hs as [|h rest IH]; intros Hp; [reflexivity|].
  simpl. rewrite Hp by set_solver. apply IH. intros; apply Hp; set_solver.
Qed.

Lemma find_handler_some p hs h :
  ToolsConfig.find_handler p hs = Some h -> h ∈ hs /\ p h = true.
Proof.
  induction hs as [|h0 rest IH]; [discriminate|].
  simpl. destruct (p h0) eqn:E.
  - intros [= <-]. split; [apply list_elem_of_here|exact E].
  - intros F. destruct (IH F).
    split; [apply list_elem_of_further|]; assumption.
Qed.

Lemma initialize_config cfg tm r :
  ToolManager.initialize (ToolManager.new (Some cfg)) = (r, tm) ->
  ToolManager.tools_config tm = Some cfg
  /\ ToolManager.register_all (ToolsConfig.handlers cfg) ∅
     = (r, ToolManager._adapters tm).
Proof.
  unfold ToolManager.initialize, ToolManager.new; simpl.
  destruct (ToolManager.register_all _ _) as [r' m]. intros [= <- <-].
  split; reflexivity.
Qed.

(** With budget 0 a single request is sent, whatever comes back. *)
Lemma execute_single_attempt network json_loads tm tool a args log :
  ToolManager._adapters tm !! tool = Some a ->
  ToolManager.max_retries tm tool = 0 ->
  ToolManager.execute network json_loads tm tool args log
  = HTTPToolAdapter.execute network json_loads a args log.
Proof.
  intros Ha HN. unfold ToolManager.execute. rewrite Ha, HN. simpl.
  unfold try_except.
  destruct (HTTPToolAdapter.execute _ _ _ _ _) as [[r|[m t b|c m]] log'];
    try reflexivity.
  destruct b; reflexivity.
Qed.

(** C10, as amended.  After a successful [initialize], a handler [h] of type
    [http] without [tool] block has an adapter registered under its own name
    ([h]'s own adapter unless a later handler registers under that name).
    [execute] takes the retry budget from the first handler whose [tool]
    block carries the executed name, and 0 when there is none: so when no
    handler declares a tool named like [h], executing [h]'s name sends one
    request whatever [h.retries] says; when some handler does, that handler's
    [retries] is the budget. *)
Theorem toolless_handler_budget cfg tm before h after :
  ToolsConfig.handlers cfg = before ++ h :: after ->
  ToolManager.initialize (ToolManager.new (Some cfg)) = (Ok tt, tm) ->
  HandlerConfig.tool h = None ->
  HandlerConfig.type h = "http" ->
  (exists a,
      ToolManager._adapters tm !! HandlerConfig.name h = Some a
      /\ HTTPToolAdapter.tool_name a = HandlerConfig.name h
      /\ ((forall h', h' ∈ after -> HandlerConfig.type h' = "http" ->
                      registers_as h' <> HandlerConfig.name h) ->
          HTTPToolAdapter.handler a = h)
      /\ ((forall h', h' ∈ ToolsConfig.handlers cfg ->
                      ToolsConfig.declares_tool (HandlerConfig.name h) h'
                      = false) ->
          ToolManager.max_retries tm (HandlerConfig.name h) = 0
          /\ forall network json_loads args log,
              ToolManager.execute network json_loads tm
                (HandlerConfig.name h) args log
              = HTTPToolAdapter.execute network json_loads a args log
              /\ length (snd (ToolManager.execute network json_loads tm
                                (HandlerConfig.name h) args log))
                 = S (length log)))
  /\ (forall tool,
        match ToolsConfig.get_tool_handler cfg tool with
        | Some h' =>
            h' ∈ ToolsConfig.handlers cfg
            /\ ToolsConfig.declares_tool tool h' = true
            /\ ToolManager.max_retries tm tool = HandlerConfig.retries h'
        | None => ToolManager.max_retries tm tool = 0
        end).
Proof.
  intros Hcfg Hinit Htool Htype.
  apply initialize_config in Hinit as [Hc Hreg]. rewrite Hcfg in Hreg.
  assert (Hname : registers_as h = HandlerConfig.name h)
    by (unfold registers_as; rewrite Htool; reflexivity).
  split.
  - destruct (register_all_registers _ _ _ _ _ Hreg Htype)
      as (a & Ha & Hn & Hown).
    rewrite Hname in *. exists a. repeat split; try assumption.
    + unfold ToolManager.max_retries. rewrite Hc.
      unfold ToolsConfig.get_tool_handler.
      rewrite find_handler_none by assumption. reflexivity.
    + apply execute_single_attempt; [exact Ha|].
      unfold ToolManager.max_retries. rewrite Hc.
      unfold ToolsConfig.get_tool_handler.
      rewrite find_handler_none by assumption. reflexivity.
    + rewrite (execute_single_attempt _ _ _ _ a); [|exact Ha|].
      * rewrite adapter_execute_log, length_app. simpl. lia.
      * unfold ToolManager.max_retries. rewrite Hc.
        unfold ToolsConfig.get_tool_handler.
        rewrite find_handler_none by assumption. reflexivity.
  - intros tool. unfold ToolManager.max_retries. rewrite Hc.
    unfold ToolsConfig.get_tool_handler.
    destruct (ToolsConfig.find_handler _ _) as [h'|] eqn:F; [|reflexivity].
    apply find_handler_some in F as [Hin Hd]. repeat split; assumption.
Qed.

(** A handler without [tool] block, alone in its configuration. *)
Lemma toolless_handler_budget_witness :
  exists a,
    ToolManager._adapters
      (snd (ToolManager.initialize
              (ToolManager.new (Some (ToolsConfig.mk [Demo.lookup])))))
    !! "lookup" = Some a
    /\ HTTPToolAdapter.handler a = Demo.lookup
    /\ ToolManager.max_retries
         (snd (ToolManager.initialize
                 (ToolManager.new (Some (ToolsConfig.mk [Demo.lookup])))))
         "lookup" = 0.
Proof.
  destruct (toolless_handler_budget (ToolsConfig.mk [Demo.lookup])
              (snd (ToolManager.initialize
                      (ToolManager.new (Some (ToolsConfig.mk [Demo.lookup])))))
              [] Demo.lookup [] eq_refl
              ltac:(vm_compute; reflexivity) eq_refl eq_refl)
    as [(a & Ha & _ & Hown & Hzero) _].
  exists a. split; [exact Ha|]. split.
  - apply Hown. intros h' Hin. inversion Hin.
  - apply Hzero. intros h' Hin.
    apply list_elem_of_singleton in Hin as ->. reflexivity.
Defined.

(** C10, as stated, fails when another handler's [tool] block carries the
    name of the handler without one: in [Demo.shadowed] the adapter of
    [lookup] is the one registered under ["lookup"], and it runs with the
    budget 3 of [search]. *)
Lemma toolless_handler_budget_shadowed :
  ~ (forall cfg tm h,
        ToolManager.initialize (ToolManager.new (Some cfg)) = (Ok tt, tm) ->
        h ∈ ToolsConfig.handlers cfg ->
        HandlerConfig.tool h = None ->
        HandlerConfig.type h = "http" ->
        ToolManager.max_retries tm (HandlerConfig.name h) = 0).
Proof.
  intros H.
  specialize (H Demo.shadowed Demo.shadowed_manager Demo.lookup
                ltac:(vm_compute; reflexivity)
                ltac:(unfold Demo.shadowed; simpl; set_solver)
                eq_refl eq_refl).
  vm_compute in H. discriminate H.
Qed.

(** ** The in-process session store *)

Ltac run_store :=
  unfold InMemorySessionStore.get, InMemorySessionStore.save,
    InMemorySessionStore.delete, InMemorySessionStore.cleanup_expired,
    bind, ret, raise, gets, modify, utcnow, read, write,
    set_store, set_heap, InMemorySessionStore.set_sessions;
  simpl.

Lemma assoc_None {A} key (d : list (string * A)) :
  assoc key d = None <-> key ∉ map fst d.
Proof.
  induction d as [|[k v] d IH]; simpl.
  - split; [intros _; apply not_elem_of_nil | reflexivity].
  - rewrite not_elem_of_cons. destruct (String.eqb_spec k key) as [->|Hne].
    + split; [discriminate | intros [[] _]; reflexivity].
    + rewrite IH. split; [intros; split; congruence | tauto].
Qed.

Lemma assoc_Some_elem {A} key (d : list (string * A)) v :
  assoc key d = Some v -> (key, v) ∈ d.
Proof.
  induction d as [|[k w] d IH]; simpl; [discriminate|].
  destruct (String.eqb_spec k key) as [->|Hne].
  - intros [= ->]. apply list_elem_of_here.
  - intros Hd. apply list_elem_of_further, IH, Hd.
Qed.

Lemma assoc_app {A} key (d1 d2 : list (string * A)) :
  assoc key (d1 ++ d2)
  = match assoc key d1 with Some v => Some v | None => assoc key d2 end.
Proof.
  induction d1 as [|[k v] d1 IH]; simpl; [reflexivity|].
  destruct (String.eqb k key); [reflexivity | exact IH].
Qed.

Lemma stored_keys_remove key (d : list (string * loc)) :
  map fst (InMemorySessionStore.remove key d)
  = filter (fun k => k <> key) (map fst d).
Proof.
  unfold InMemorySessionStore.remove.
  induction d as [|[k v] d IH]; [reflexivity|].
  rewrite filter_cons; simpl. rewrite filter_cons.
  destruct (decide (k <> key)); simpl; rewrite IH; reflexivity.
Qed.

Lemma assoc_remove_eq key (d : list (string * loc)) :
  assoc key (InMemorySessionStore.remove key d) = None.
Proof.
  apply assoc_None. rewrite stored_keys_remove, list_elem_of_filter. tauto.
Qed.

Lemma lastn_all {A} n (l : list A) : (length l <= n)%nat -> lastn n l = l.
Proof.
  intros H. unfold lastn. replace (length l - n)%nat with O by lia.
  reflexivity.
Qed.

Lemma lastn_length {A} n (l : list A) :
  length (lastn n l) = Nat.min n (length l).
Proof. unfold lastn. rewrite length_drop. lia. Qed.

Lemma lastn_app_r {A} n (l1 l2 : list A) :
  (n <= length l2)%nat -> lastn n (l1 ++ l2) = lastn n l2.
Proof.
  intros H. unfold lastn. rewrite length_app, drop_app.
  rewrite drop_ge by lia. simpl. f_equal. lia.
Qed.

Lemma lastn_snoc {A} n (l : list A) x :
  lastn (S n) (l ++ [x]) = lastn n l ++ [x].
Proof.
  unfold lastn. rewrite length_app, drop_app. simpl.
  replace (length l + 1 - S n)%nat with (length l - n)%nat by lia.
  replace (length l - n - length l)%nat with O by lia. reflexivity.
Qed.

(** The [while] loop keeps the newest [max_sessions - 1] entries, and trips
    over an empty dictionary exactly when [max_sessions <= 0]. *)
Lemma evict_spec C (d : list (string * loc)) :
  InMemorySessionStore.evict C d
  = if 1 <=? C then (lastn (Z.to_nat (C - 1)) d, false) else ([], true).
Proof.
  induction d as [|x d IH].
  - cbn [InMemorySessionStore.evict]. rewrite Z.geb_leb.
    destruct (Z.leb_spec 1 C), (Z.leb_spec C (Z.of_nat 0));
      try lia; reflexivity.
  - cbn [InMemorySessionStore.evict]. rewrite Z.geb_leb.
    destruct (Z.leb_spec C (Z.of_nat (length (x :: d)))) as [Hge|Hlt].
    + rewrite IH. destruct (Z.leb_spec 1 C); [|reflexivity].
      f_equal. unfold lastn. simpl length.
      replace (S (length d) - Z.to_nat (C - 1))%nat
        with (S (length d - Z.to_nat (C - 1))) by (simpl in Hge; lia).
      reflexivity.
    + destruct (Z.leb_spec 1 C); [|simpl in Hlt; lia].
      rewrite lastn_all by (simpl in *; lia). reflexivity.
Qed.

Lemma deref_alter_id now l l' h :
  Session.session_id (deref (alter (Session.set_updated_at now) l h) l')
  = Session.session_id (deref h l').
Proof.
  unfold deref. destruct (decide (l = l')) as [->|Hne].
  - rewrite list_lookup_alter_eq. destruct (h !! l'); reflexivity.
  - rewrite list_lookup_alter_ne by exact Hne. reflexivity.
Qed.

(** What one [save] does. *)
Lemma save_spec clock l e :
  let sid := Session.session_id (deref (heap e) l) in
  let C := InMemorySessionStore.max_sessions (store e) in
  InMemorySessionStore.save clock l e
  = (if 1 <=? C then Ok tt
     else Raise (PyException "KeyError" "'dictionary is empty'"),
     mkEnv (alter (Session.set_updated_at (clock (ticks e))) l (heap e))
       (S (ticks e))
       (InMemorySessionStore.mk (InMemorySessionStore.ttl (store e)) C
          (if 1 <=? C then
             lastn (Z.to_nat (C - 1))
               (InMemorySessionStore.remove sid
                  (InMemorySessionStore._sessions (store e)))
             ++ [(sid, l)]
           else []))
       (net e)).
Proof.
  intros sid C. run_store. rewrite deref_alter_id. fold sid. rewrite evict_spec.
  fold C. destruct (1 <=? C); reflexivity.
Qed.

(** What one [get] does. *)
Lemma get_spec clock sid e :
  InMemorySessionStore.get clock sid e
  = match assoc sid (InMemorySessionStore._sessions (store e)) with
    | None => (Ok None, e)
    | Some l =>
        let st := store e in
        if datetime.sub (clock (ticks e))
             (Session.updated_at (deref (heap e) l))
           >? InMemorySessionStore.ttl st
        then
          (Ok None,
           mkEnv (heap e) (S (ticks e))
             (InMemorySessionStore.mk (InMemorySessionStore.ttl st)
                (InMemorySessionStore.max_sessions st)
                (InMemorySessionStore.remove sid
                   (InMemorySessionStore._sessions st)))
             (net e))
        else
          (Ok (Some l),
           mkEnv (heap e) (S (ticks e))
             (InMemorySessionStore.mk (InMemorySessionStore.ttl st)
                (InMemorySessionStore.max_sessions st)
                (InMemorySessionStore.remove sid
                   (InMemorySessionStore._sessions st) ++ [(sid, l)]))
             (net e))
    end.
Proof.
  run_store. destruct (assoc sid _) as [l|]; [|reflexivity].
  simpl. destruct (_ >? _); reflexivity.
Qed.

Lemma stored_keys_remove_subset key k (d : list (string * loc)) :
  k ∈ map fst (InMemorySessionStore.remove key d) -> k ∈ map fst d.
Proof. rewrite stored_keys_remove, list_elem_of_filter. tauto. Qed.

Lemma stored_keys_fold_remove (expired d : list (string * loc)) k :
  k ∈ map fst (fold_left (fun d kv => InMemorySessionStore.remove (fst kv) d)
                 expired d) ->
  k ∈ map fst d.
Proof.
  revert d. induction expired as [|x expired IH]; intros d; simpl; [tauto|].
  intros H. apply IH in H. eapply stored_keys_remove_subset, H.
Qed.

(** Only [save] adds an id to the store. *)
Lemma run_op_no_new_id clock o e k :
  is_save o = false ->
  k ∈ stored_ids (run_op clock o e) -> k ∈ stored_ids e.
Proof.
  unfold stored_ids. destruct o as [sid|l|sid|]; intros Ho; try discriminate.
  - simpl. rewrite get_spec.
    destruct (assoc sid _) as [l|] eqn:A; [|tauto].
    simpl. destruct (_ >? _); simpl.
    + apply stored_keys_remove_subset.
    + rewrite map_app, elem_of_app; simpl.
      intros [H|H]; [eapply stored_keys_remove_subset, H|].
      apply list_elem_of_singleton in H as ->.
      apply dec_stable. intros Hn. apply assoc_None in Hn. congruence.
  - simpl. run_store. apply stored_keys_remove_subset.
  - simpl. run_store. apply stored_keys_fold_remove.
Qed.

Lemma run_ops_no_new_id clock ops : forall e k,
  forallb (fun o => negb (is_save o)) ops = true ->
  k ∈ stored_ids (run_ops clock ops e) -> k ∈ stored_ids e.
Proof.
  unfold run_ops.
  induction ops as [|o ops IH]; intros e k Hops; simpl; [tauto|].
  simpl in Hops. apply andb_true_iff in Hops as [Ho Hops].
  intros H. apply IH in H; [|exact Hops].
  eapply run_op_no_new_id; [|exact H].
  destruct (is_save o); [discriminate|reflexivity].
Qed.

(** C8.  If the store holds an entry for [sid] and, at the time of a [get],
    [now - updated_at > ttl], then that [get] returns [None] and removes the
    entry; after any further calls other than [save], a [get] for [sid]
    still returns [None]. *)
Theorem expired_get_absent clock e sid l :
  assoc sid (InMemorySessionStore._sessions (store e)) = Some l ->
  datetime.sub (clock (ticks e)) (Session.updated_at (deref (heap e) l))
  > InMemorySessionStore.ttl (store e) ->
  exists e',
    InMemorySessionStore.get clock sid e = (Ok None, e')
    /\ InMemorySessionStore._sessions (store e')
       = InMemorySessionStore.remove sid
           (InMemorySessionStore._sessions (store e))
    /\ (sid ∉ stored_ids e')
    /\ forall ops,
        forallb (fun o => negb (is_save o)) ops = true ->
        (sid ∉ stored_ids (run_ops clock ops e'))
        /\ InMemorySessionStore.get clock sid (run_ops clock ops e')
           = (Ok None, run_ops clock ops e').
Proof.
  intros Hl Hexp. rewrite get_spec, Hl. simpl.
  destruct (Z.gtb_spec (datetime.sub (clock (ticks e))
                          (Session.updated_at (deref (heap e) l)))
              (InMemorySessionStore.ttl (store e))) as [_|Hle]; [|lia].
  eexists. split; [reflexivity|]. simpl.
  assert (Hout : sid ∉ map fst (InMemorySessionStore.remove sid
                   (InMemorySessionStore._sessions (store e))))
    by (apply assoc_None, assoc_remove_eq).
  split; [reflexivity|]. split; [exact Hout|].
  intros ops Hops.
  match goal with |- (?x ∉ stored_ids ?e2) /\ _ =>
    assert (Hstill : x ∉ stored_ids e2)
      by (intros H; apply (run_ops_no_new_id _ _ _ _ Hops) in H;
          exact (Hout H)) end.
  split; [exact Hstill|].
  rewrite get_spec. apply assoc_None in Hstill. rewrite Hstill. reflexivity.
Qed.

(** A session saved a day ago in a store with a one-minute TTL. *)
Lemma expired_get_absent_witness :
  exists e',
    InMemorySessionStore.get Demo.a_day_later "a" Demo.stale = (Ok None, e')
    /\ stored_ids e' = []
    /\ fst (InMemorySessionStore.get Demo.a_day_later "a"
              (run_ops Demo.a_day_later
                 [op_get "b"; op_delete "a"; op_cleanup_expired; op_get "a"]
                 e'))
       = Ok None.
Proof.
  destruct (expired_get_absent Demo.a_day_later Demo.stale "a" 0%nat
              eq_refl ltac:(vm_compute; reflexivity))
    as (e' & Hget & Hd & _ & Hlater).
  exists e'. split; [exact Hget|]. split.
  - unfold stored_ids. rewrite Hd. vm_compute. reflexivity.
  - destruct (Hlater [op_get "b"; op_delete "a"; op_cleanup_expired;
                      op_get "a"] eq_refl) as [_ ->].
    reflexivity.
Defined.

(** *** Capacity and eviction order *)

Lemma remove_dups_snoc (l : list string) x :
  remove_dups (l ++ [x]) = filter (fun k => k <> x) (remove_dups l) ++ [x].
Proof.
  induction l as [|a l IH]; [reflexivity|].
  cbn [app remove_dups]. rewrite IH. unfold decide_rel.
  destruct (list_elem_of_dec a (l ++ [x])) as [Hin|Hout];
    destruct (list_elem_of_dec a l) as [Hin'|Hout'].
  - reflexivity.
  - apply elem_of_app in Hin as [Hin|Hin]; [contradiction|].
    apply list_elem_of_singleton in Hin as ->.
    rewrite filter_cons_False by tauto. reflexivity.
  - exfalso. apply Hout, elem_of_app. left. exact Hin'.
  - rewrite filter_cons_True; [reflexivity|].
    intros ->. apply Hout, elem_of_app. right. apply list_elem_of_here.
Qed.

Lemma length_filter_ne_NoDup (l : list string) x :
  NoDup l -> (length l <= S (length (filter (fun k => k <> x) l)))%nat.
Proof.
  induction 1 as [|a l Hout Hnd IH]; [simpl; lia|].
  destruct (decide (a = x)) as [->|Hne].
  - rewrite filter_cons_False by tauto.
    assert (filter (fun k => k <> x) l = l) as ->; [|simpl; lia].
    clear -Hout. induction l as [|b l IH]; [reflexivity|].
    apply not_elem_of_cons in Hout as [Hb Hl].
    rewrite filter_cons_True by congruence. f_equal. exact (IH Hl).
  - rewrite filter_cons_True by exact Hne. simpl. lia.
Qed.

Lemma lastn_filter_lastn (X : list string) x n :
  NoDup X ->
  lastn n (filter (fun k => k <> x) (lastn (S n) X))
  = lastn n (filter (fun k => k <> x) X).
Proof.
  intros Hnd. destruct (Nat.le_gt_cases (length X) (S n)) as [Hle|Hgt].
  - rewrite (lastn_all (S n)) by exact Hle. reflexivity.
  - unfold lastn at 2.
    rewrite <- (take_drop (length X - S n) X) at 3.
    rewrite filter_app.
    symmetry. apply lastn_app_r.
    pose proof (length_filter_ne_NoDup (drop (length X - S n) X) x
                  (sublist_NoDup _ _ Hnd (sublist_drop _ _))) as H.
    rewrite length_drop in H. lia.
Qed.

Lemma map_lastn {A B} (f : A -> B) n (l : list A) :
  map f (lastn n l) = lastn n (map f l).
Proof. unfold lastn. rewrite length_map. apply (fmap_drop f). Qed.

Lemma lastn_O {A} (l : list A) : lastn 0 l = [].
Proof. unfold lastn. apply drop_ge. lia. Qed.

Lemma elem_of_lastn {A} n (l : list A) x : x ∈ lastn n l -> x ∈ l.
Proof.
  unfold lastn. intros H.
  rewrite <- (take_drop (length l - n) l). apply elem_of_app. right. exact H.
Qed.

Lemma run_ops_snoc clock ops o e :
  run_ops clock (ops ++ [o]) e = run_op clock o (run_ops clock ops e).
Proof. unfold run_ops. rewrite fold_left_app. reflexivity. Qed.

Lemma remove_dups_NoDup (l : list string) : NoDup l -> remove_dups l = l.
Proof.
  induction 1 as [|a l Hout _ IH]; [reflexivity|].
  cbn [remove_dups]. unfold decide_rel.
  destruct (list_elem_of_dec a l); [contradiction|]. rewrite IH. reflexivity.
Qed.

Lemma dict_ok_remove C h key d :
  dict_ok C h d -> dict_ok C h (InMemorySessionStore.remove key d).
Proof.
  intros (Hnd & Hlen & Hent). split; [|split].
  - rewrite stored_keys_remove. apply NoDup_filter, Hnd.
  - unfold InMemorySessionStore.remove.
    pose proof (length_filter (fun kv : string * loc => fst kv <> key) d).
    lia.
  - intros k l Hin. apply list_elem_of_filter in Hin as [_ Hin].
    apply Hent, Hin.
Qed.

Lemma dict_ok_fold_remove C h (expired d : list (string * loc)) :
  dict_ok C h d ->
  dict_ok C h
    (fold_left (fun d kv => InMemorySessionStore.remove (fst kv) d) expired d).
Proof.
  revert d. induction expired as [|x expired IH]; intros d Hd; [exact Hd|].
  simpl. apply IH, dict_ok_remove, Hd.
Qed.

Lemma dict_ok_move_to_end C h key l d :
  dict_ok C h d -> assoc key d = Some l ->
  dict_ok C h (InMemorySessionStore.remove key d ++ [(key, l)]).
Proof.
  intros (Hnd & Hlen & Hent) Hl. pose proof (assoc_Some_elem _ _ _ Hl) as Hin.
  split; [|split].
  - rewrite map_app, stored_keys_remove. apply NoDup_app.
    split; [apply NoDup_filter, Hnd|]. split; [|apply NoDup_singleton].
    intros x Hx Hx'. apply list_elem_of_singleton in Hx'.
    apply list_elem_of_filter in Hx as [Hx _]. contradiction.
  - rewrite length_app. simpl. unfold InMemorySessionStore.remove.
    pose proof (length_filter_lt (fun kv : string * loc => fst kv <> key)
                  d (key, l) Hin ltac:(simpl; tauto)).
    lia.
  - intros k l' Hin'. apply elem_of_app in Hin' as [Hin'|Hin'].
    + apply list_elem_of_filter in Hin' as [_ Hin']. apply Hent, Hin'.
    + apply list_elem_of_singleton in Hin' as [= -> ->]. apply Hent, Hin.
Qed.

Lemma dict_ok_saved C h key l d :
  1 <= C ->
  dict_ok C h d -> Session.session_id (deref h l) = key ->
  dict_ok C h
    (lastn (Z.to_nat (C - 1)) (InMemorySessionStore.remove key d)
     ++ [(key, l)]).
Proof.
  intros HC (Hnd & Hlen & Hent) Hl. split; [|split].
  - rewrite map_app, map_lastn, stored_keys_remove. apply NoDup_app.
    split; [|split; [|apply NoDup_singleton]].
    + apply (sublist_NoDup _ (filter (fun k => k <> key) (map fst d)));
        [apply NoDup_filter, Hnd | apply sublist_drop].
    + intros x Hx Hx'. apply list_elem_of_singleton in Hx'.
      apply elem_of_lastn, list_elem_of_filter in Hx as [Hx _]. contradiction.
  - rewrite length_app, lastn_length. simpl. lia.
  - intros k l' Hin. apply elem_of_app in Hin as [Hin|Hin].
    + apply elem_of_lastn, list_elem_of_filter in Hin as [_ Hin].
      apply Hent, Hin.
    + apply list_elem_of_singleton in Hin as [= -> ->]. exact Hl.
Qed.

Lemma dict_ok_heap C h h' d :
  (forall l, Session.session_id (deref h' l) = Session.session_id (deref h l)) ->
  dict_ok C h d -> dict_ok C h' d.
Proof.
  intros Hid (Hnd & Hlen & Hent). split; [exact Hnd|]. split; [exact Hlen|].
  intros k l Hin. rewrite Hid. apply Hent, Hin.
Qed.

(** Every call keeps the store's invariant. *)
Lemma store_ok_run_op clock ttl C h0 o e :
  store_ok ttl C h0 e -> store_ok ttl C h0 (run_op clock o e).
Proof.
  intros (Httl & HC & Hid & Hd). destruct o as [sid|l|sid|]; cbn [run_op].
  - rewrite get_spec.
    destruct (assoc sid _) as [l|] eqn:A;
      [|cbn [snd]; split; [exact Httl|]; split; [exact HC|];
        split; [exact Hid | exact Hd]].
    cbn zeta. destruct (_ >? _); cbn [snd];
      (split; [exact Httl|]; split; [exact HC|]; split; [exact Hid|]);
      cbn [store heap InMemorySessionStore._sessions].
    + apply dict_ok_remove, Hd.
    + apply dict_ok_move_to_end; assumption.
  - rewrite save_spec. cbn [snd].
    split; [exact Httl|]. split; [exact HC|].
    split; [intros l'; cbn [heap]; rewrite deref_alter_id; apply Hid|].
    cbn [store heap InMemorySessionStore._sessions]. rewrite HC.
    destruct (Z.leb_spec 1 C).
    + apply dict_ok_saved; [assumption| |apply deref_alter_id].
      eapply dict_ok_heap; [|exact Hd]. intros; apply deref_alter_id.
    + split; [constructor|]. split; [simpl; lia|]. intros k l' Hin.
      inversion Hin.
  - run_store. split; [exact Httl|]. split; [exact HC|]. split; [exact Hid|].
    apply dict_ok_remove, Hd.
  - run_store. split; [exact Httl|]. split; [exact HC|]. split; [exact Hid|].
    apply dict_ok_fold_remove, Hd.
Qed.

Lemma store_ok_run_ops clock ttl C h0 ops : forall e,
  store_ok ttl C h0 e -> store_ok ttl C h0 (run_ops clock ops e).
Proof.
  unfold run_ops. induction ops as [|o ops IH]; intros e He; [exact He|].
  simpl. apply IH, store_ok_run_op, He.
Qed.

Lemma store_ok_new ttl C h n nt :
  store_ok ttl C h (mkEnv h n (InMemorySessionStore.mk ttl C []) nt).
Proof.
  repeat split; try reflexivity; simpl; try lia; [constructor|].
  intros k l Hin. inversion Hin.
Qed.

(** The ids a store holds after a sequence of saves. *)
Lemma saves_stored_ids clock ttl C h0 e0 (saves : list loc) :
  store_ok ttl C h0 e0 ->
  stored_ids (run_ops clock (map op_save saves) e0)
  = lastn (Z.to_nat C)
      (remove_dups (stored_ids e0
                    ++ map (fun l => Session.session_id (deref h0 l)) saves)).
Proof.
  intros H0. induction saves as [|l saves IH] using rev_ind.
  - destruct H0 as (_ & _ & _ & Hnd & Hlen & _). simpl.
    rewrite app_nil_r, remove_dups_NoDup by exact Hnd.
    symmetry. apply lastn_all. unfold stored_ids. rewrite length_map.
    exact Hlen.
  - rewrite !map_app. cbn [map]. rewrite run_ops_snoc.
    pose proof (store_ok_run_ops clock ttl C h0 (map op_save saves) e0 H0)
      as (_ & HC & Hid & _).
    set (e := run_ops clock (map op_save saves) e0) in *.
    cbn [run_op]. rewrite save_spec. unfold stored_ids at 1.
    cbn [snd store InMemorySessionStore._sessions]. rewrite HC, Hid.
    rewrite app_assoc, remove_dups_snoc.
    destruct (Z.leb_spec 1 C) as [HC1|HC0].
    + replace (Z.to_nat C) with (S (Z.to_nat (C - 1))) by lia.
      rewrite lastn_snoc, map_app, map_lastn, stored_keys_remove.
      fold (stored_ids e). rewrite IH.
      replace (Z.to_nat C) with (S (Z.to_nat (C - 1))) by lia.
      rewrite lastn_filter_lastn by apply NoDup_remove_dups.
      reflexivity.
    + replace (Z.to_nat C) with O by lia. rewrite lastn_O. reflexivity.
Qed.

(** C3, as amended.  Take a store created with capacity [C], any calls made
    on it since, and then any sequence of saves.  The ids stored afterwards
    are the last [C] distinct ids in order of use -- the ids held before the
    saves, then the saved ids, each counted at its latest occurrence -- least
    recently used first; exactly [C] of them once that many distinct ids are
    involved.  A [get] for any other id returns [None]; a [get] for one of
    them returns its session unless [now - updated_at > ttl] at that moment,
    in which case it returns [None].  In any store a successful [get] moves
    its id to the most-recently-used end, and a [save] drops entries from the
    least-recently-used end only and puts its id at the most-recently-used
    end. *)
Theorem lru_capacity clock ttl C h n nt history (saves : list loc) :
  let e0 := run_ops clock history
              (mkEnv h n (InMemorySessionStore.mk ttl C []) nt) in
  let e := run_ops clock (map op_save saves) e0 in
  let ids := map (fun l => Session.session_id (deref h l)) saves in
  let kept := lastn (Z.to_nat C) (remove_dups (stored_ids e0 ++ ids)) in
  stored_ids e = kept
  /\ ((Z.to_nat C <= length (remove_dups (stored_ids e0 ++ ids)))%nat ->
      length (stored_ids e) = Z.to_nat C)
  /\ (forall sid, sid ∉ kept ->
        InMemorySessionStore.get clock sid e = (Ok None, e))
  /\ (forall sid, sid ∈ kept ->
        exists l,
          assoc sid (InMemorySessionStore._sessions (store e)) = Some l
          /\ Session.session_id (deref (heap e) l) = sid
          /\ fst (InMemorySessionStore.get clock sid e)
             = Ok (if datetime.sub (clock (ticks e))
                        (Session.updated_at (deref (heap e) l)) >? ttl
                   then None else Some l))
  /\ (forall e1 sid l,
        fst (InMemorySessionStore.get clock sid e1) = Ok (Some l) ->
        stored_ids (snd (InMemorySessionStore.get clock sid e1))
        = filter (fun k => k <> sid) (stored_ids e1) ++ [sid])
  /\ (forall e1 l,
        1 <= InMemorySessionStore.max_sessions (store e1) ->
        let sid := Session.session_id (deref (heap e1) l) in
        exists k,
          stored_ids (run_op clock (op_save l) e1)
          = drop k (filter (fun k => k <> sid) (stored_ids e1)) ++ [sid]).
Proof.
  intros e0 e ids kept.
  assert (H0 : store_ok ttl C h e0)
    by apply store_ok_run_ops, store_ok_new.
  pose proof (saves_stored_ids clock ttl C h e0 saves H0) as Hkeys.
  pose proof (store_ok_run_ops clock ttl C h (map op_save saves) e0 H0)
    as (Httl & HC & Hid & _ & _ & Hent).
  fold e in Hkeys, Httl, HC, Hid, Hent. fold ids in Hkeys. fold kept in Hkeys.
  split; [exact Hkeys|]. split; [|split; [|split; [|split]]].
  - intros Hlen. rewrite Hkeys. unfold kept. rewrite lastn_length. lia.
  - intros sid Hout. rewrite <- Hkeys in Hout. apply assoc_None in Hout.
    rewrite get_spec, Hout. reflexivity.
  - intros sid Hin. rewrite <- Hkeys in Hin.
    destruct (assoc sid (InMemorySessionStore._sessions (store e)))
      as [l|] eqn:A; [|apply assoc_None in A; contradiction].
    exists l. split; [reflexivity|].
    split; [apply Hent, assoc_Some_elem, A|].
    rewrite get_spec, A. simpl. rewrite Httl. destruct (_ >? _); reflexivity.
  - intros e1 sid l. rewrite get_spec.
    destruct (assoc sid _) as [l'|]; [|discriminate].
    simpl. destruct (_ >? _); [discriminate|]. intros _.
    unfold stored_ids. simpl. rewrite map_app, stored_keys_remove.
    reflexivity.
  - intros e1 l HC1 sid. cbn [run_op]. rewrite save_spec.
    unfold stored_ids. cbn [snd store InMemorySessionStore._sessions].
    fold sid. destruct (Z.leb_spec 1 (InMemorySessionStore.max_sessions
                                        (store e1))); [|lia].
    rewrite map_app, map_lastn, stored_keys_remove.
    eexists. reflexivity.
Qed.

(** C3, as stated, fails once time is taken into account: with capacity 1
    and a one-minute TTL, the id saved last is the most recently used one,
    yet a [get] a day later returns [None]. *)
Lemma lru_capacity_expired :
  ~ (forall clock ttl_seconds C h n nt (saves : list loc) sid,
        let e := run_ops clock (map op_save saves)
                   (mkEnv h n (InMemorySessionStore.new ttl_seconds C) nt) in
        let ids := map (fun l => Session.session_id (deref h l)) saves in
        (Z.to_nat C < length (remove_dups ids))%nat ->
        sid ∈ lastn (Z.to_nat C) (remove_dups ids) ->
        exists l, fst (InMemorySessionStore.get clock sid e) = Ok (Some l)).
Proof.
  intros H.
  destruct (H Demo.jumping 60 1 [Demo.fresh_session "a"; Demo.fresh_session "b"]
              O [] [0%nat; 1%nat] "b"
              ltac:(vm_compute; lia)
              ltac:(vm_compute; apply list_elem_of_here)) as [l Hl].
  vm_compute in Hl. discriminate Hl.
Qed.

(** ** The turn orchestrator *)

Section TurnFacts.
Context {St : Type} `{SessionStore.t St}.
Variable clock : nat -> datetime.t.
Variable network : Net -> request -> http_reply.
Variable json_loads : string -> option json.
Variable json_dumps : json -> string.
Variable engine : list string -> list message -> json -> stream.

Local Abbreviation consume :=
  (LangChainHandler.consume (St:=St) network json_loads json_dumps).

Lemma no_terminal_app ys zs :
  no_terminal ys -> no_terminal zs -> no_terminal (ys ++ zs).
Proof. apply Forall_app_2. Qed.

Section Emits.
Variable P : runtime_pb2.ServerMessage -> Prop.

Lemma emits_ret {A} (a : A) : emits (St:=St) P (ret a).
Proof.
  intros e out. exists []. split; [simpl; rewrite app_nil_r|constructor];
    reflexivity.
Qed.

Lemma emits_raise {A} exc : emits (St:=St) (A:=A) P (raise exc).
Proof.
  intros e out. exists []. split; [simpl; rewrite app_nil_r|constructor];
    reflexivity.
Qed.

Lemma emits_lift {A} (m : M (Env St) A) : emits P (LangChainHandler.lift m).
Proof.
  intros e out. exists []. unfold LangChainHandler.lift.
  destruct (m e) as [r e']. split; [simpl; rewrite app_nil_r|constructor];
    reflexivity.
Qed.

Lemma emits_yield msg : P msg -> emits (St:=St) P (LangChainHandler.yield msg).
Proof.
  intros Hm e out. exists [msg]. split; [reflexivity|].
  constructor; [exact Hm|constructor].
Qed.

Lemma emits_bind {A B} (m : M _ A) (k : A -> M _ B) :
  emits (St:=St) P m -> (forall a, emits P (k a)) -> emits P (bind m k).
Proof.
  intros Hm Hk e out. destruct (Hm e out) as (ys & Hys & Hq).
  unfold bind. destruct (m (e, out)) as [[a|exc] [e1 out1]]; simpl in Hys.
  - destruct (Hk a e1 out1) as (zs & Hzs & Hq'). exists (ys ++ zs).
    rewrite Hzs, Hys, app_assoc. split; [reflexivity|].
    apply Forall_app_2; assumption.
  - exists ys. split; assumption.
Qed.

Lemma emits_dumps v : emits (St:=St) P (LangChainHandler.dumps json_dumps v).
Proof. destruct v; [apply emits_ret | apply emits_raise]. Qed.

Lemma emits_call_tool self caller name kwargs :
  emits P (LangChainHandler.call_tool (St:=St) network json_loads json_dumps
             self caller name kwargs).
Proof.
  unfold LangChainHandler.call_tool.
  destruct (LangChainHandler.tool_manager self); [|apply emits_ret].
  destruct (bool_decide _); [apply emits_lift | apply emits_ret].
Qed.

(** The event loop yields chunks, tool calls, and tool results with the
    error flag unset, and nothing else. *)
Lemma emits_consume self events :
  (forall s, P (runtime_pb2.chunk s)) ->
  (forall i n a, P (runtime_pb2.tool_call i n a)) ->
  (forall i r, P (runtime_pb2.tool_result i r false)) ->
  forall final_content tin tout,
    emits P (consume self events final_content tin tout).
Proof.
  intros Pchunk Pcall Presult.
  induction events as [|ev rest IH|exc|caller name kwargs k IH];
    intros final_content tin tout; cbn [LangChainHandler.consume].
  - apply emits_ret.
  - destruct ev as [[c|]|run_id name input|run_id output|[u|]|t];
      try apply IH.
    + destruct (truthy c); [|apply IH].
      destruct c; try apply emits_raise.
      apply emits_bind; [apply emits_yield, Pchunk | intros; apply IH].
    + apply emits_bind; [apply emits_dumps|]. intros a.
      apply emits_bind; [apply emits_yield, Pcall | intros; apply IH].
    + apply emits_bind.
      * destruct output as [[]|]; try apply emits_dumps. apply emits_ret.
      * intros a.
        apply emits_bind; [apply emits_yield, Presult | intros; apply IH].
  - apply emits_raise.
  - apply emits_bind; [apply emits_call_tool | intros; apply IH].
Qed.

End Emits.

Lemma quiet_ret {A} (a : A) : quiet (St:=St) (ret a).
Proof. apply emits_ret. Qed.

Lemma quiet_raise {A} exc : quiet (St:=St) (A:=A) (raise exc).
Proof. apply emits_raise. Qed.

Lemma quiet_lift {A} (m : M (Env St) A) : quiet (LangChainHandler.lift m).
Proof. apply emits_lift. Qed.

Lemma quiet_consume self events final_content tin tout :
  quiet (consume self events final_content tin tout).
Proof. apply emits_consume; reflexivity. Qed.

Lemma closing_bind {A B} (m : M _ A) (k : A -> M _ B) :
  quiet (St:=St) m -> (forall a, closing (k a)) -> closing (bind m k).
Proof.
  intros Hm Hk e out. destruct (Hm e out) as (ys & Hys & Hq).
  unfold bind. destruct (m (e, out)) as [[a|exc] [e1 out1]]; simpl in Hys.
  - destruct (Hk a e1 out1) as (zs & Hq' & Hzs). exists (ys ++ zs).
    split; [apply no_terminal_app; assumption|].
    destruct (k a (e1, out1)) as [[b|exc] [e2 out2]]; subst out1.
    + destruct Hzs as (fc & u & ->). exists fc, u.
      rewrite <- !app_assoc. reflexivity.
    + rewrite Hzs, app_assoc. reflexivity.
  - exists ys. split; assumption.
Qed.

Lemma closing_done final_content usage :
  closing (St:=St)
    (LangChainHandler.yield (runtime_pb2.done final_content usage)).
Proof.
  intros e out. exists []. split; [constructor|].
  simpl. exists final_content, usage. reflexivity.
Qed.

Lemma closing_turn self session_id content parts metadata :
  closing (LangChainHandler.turn clock network json_loads json_dumps engine
             self session_id content parts metadata).
Proof.
  unfold LangChainHandler.turn.
  apply closing_bind; [apply quiet_lift|]. intros session.
  apply closing_bind; [apply quiet_lift|]. intros _.
  apply closing_bind.
  { unfold LangChainHandler.create_agent.
    destruct (bool_decide _); [apply quiet_ret | apply quiet_raise]. }
  intros _. apply closing_bind; [apply quiet_lift|]. intros s.
  apply closing_bind; [apply quiet_consume|]. intros [[fc tin] tout].
  apply closing_bind.
  { destruct (negb _); [apply quiet_lift | apply quiet_ret]. }
  intros _. apply closing_bind; [apply quiet_lift|]. intros _.
  apply closing_done.
Qed.

Lemma add_message_ok l msg (e : Env St) :
  add_message clock l msg e = (Ok tt, snd (add_message clock l msg e)).
Proof. reflexivity. Qed.

(** [handle_message], step by step. *)
Lemma handle_message_steps self session_id content parts metadata e :
  LangChainHandler.handle_message clock network json_loads json_dumps engine
    self session_id content parts metadata e
  = match SessionStore.get_or_create clock session_id e with
    | (Raise exc, e1) =>
        ([runtime_pb2.error "HANDLER_ERROR" (exn_str exc)], e1)
    | (Ok session, e1) =>
        let e2 := snd (add_message clock session
                         (LangChainHandler._build_user_message content parts)
                         e1) in
        if bool_decide (LangChainHandler.prompt_name self
                        ∈ prompts (LangChainHandler.pack self)) then
          match consume self
                  (engine (LangChainHandler.tools self)
                     (Session.messages (deref (heap e2) session))
                     (LangChainHandler._extract_variables json_loads metadata))
                  "" 0 0 (e2, []) with
          | (Raise exc, (e3, out)) =>
              (out ++ [runtime_pb2.error "HANDLER_ERROR" (exn_str exc)], e3)
          | (Ok (final_content, tin, tout), (e3, out)) =>
              let e4 :=
                if negb (String.eqb final_content "") then
                  snd (add_message clock session
                         (AIMessage (JStr final_content) (JObj [])) e3)
                else e3 in
              match SessionStore.save session e4 with
              | (Ok _, e5) =>
                  (out ++ [runtime_pb2.done final_content
                             (runtime_pb2.mkUsage tin tout 0%float)], e5)
              | (Raise exc, e5) =>
                  (out ++ [runtime_pb2.error "HANDLER_ERROR" (exn_str exc)],
                   e5)
              end
          end
        else
          ([runtime_pb2.error "HANDLER_ERROR"
              ("Prompt '" +:+ LangChainHandler.prompt_name self
               +:+ "' not found in pack")], e2)
    end.
Proof.
  unfold LangChainHandler.handle_message, LangChainHandler.turn, try_except,
    bind, LangChainHandler.lift, LangChainHandler.create_agent.
  destruct (SessionStore.get_or_create clock session_id e)
    as [[session|exc] e1]; [|reflexivity].
  rewrite (add_message_ok session _ e1).
  destruct (bool_decide _); [|reflexivity].
  unfold ret at 1, read, gets. cbn [fst snd].
  destruct (consume _ _ _ _ _ _) as [[[[fc tin] tout]|exc] [e3 out]];
    [|reflexivity].
  destruct (negb (String.eqb fc "")).
  - rewrite (add_message_ok session _ e3).
    destruct (SessionStore.save session _) as [[[]|exc] e5]; reflexivity.
  - unfold ret at 1.
    destruct (SessionStore.save session e3) as [[[]|exc] e5]; reflexivity.
Qed.

(** Text deltas are forwarded as chunks and appended to the final text. *)
Lemma consume_text self chunks rest : forall final_content tin tout e out,
  Forall (fun s => s <> "") chunks ->
  consume self (emit (map text_delta chunks) rest) final_content tin tout
    (e, out)
  = consume self rest (fold_left String.append chunks final_content) tin tout
      (e, out ++ map runtime_pb2.chunk chunks).
Proof.
  induction chunks as [|s chunks IH]; intros fc tin tout e out Hne.
  - simpl. rewrite app_nil_r. reflexivity.
  - apply Forall_cons in Hne as [Hs Hne].
    cbn [map emit foldr text_delta LangChainHandler.consume truthy].
    destruct (String.eqb_spec s "") as [|_]; [contradiction|].
    cbn [negb]. unfold bind at 1, LangChainHandler.yield at 1, modify.
    fold (emit (map text_delta chunks) rest).
    rewrite IH by exact Hne. cbn [fold_left]. rewrite <- app_assoc.
    reflexivity.
Qed.

(** No message of a turn has its error flag set. *)
Lemma handle_message_unflagged self session_id content parts metadata e :
  Forall unflagged
    (fst (LangChainHandler.handle_message clock network json_loads json_dumps
            engine self session_id content parts metadata e)).
Proof.
  assert (Hturn : emits unflagged
            (LangChainHandler.turn clock network json_loads json_dumps engine
               self session_id content parts metadata)).
  { unfold LangChainHandler.turn.
    apply emits_bind; [apply emits_lift|]. intros session.
    apply emits_bind; [apply emits_lift|]. intros _.
    apply emits_bind.
    { unfold LangChainHandler.create_agent.
      destruct (bool_decide _); [apply emits_ret | apply emits_raise]. }
    intros _. apply emits_bind; [apply emits_lift|]. intros s.
    apply emits_bind; [apply emits_consume; simpl; auto|].
    intros [[fc tin] tout].
    apply emits_bind.
    { destruct (negb _); [apply emits_lift | apply emits_ret]. }
    intros _. apply emits_bind; [apply emits_lift|]. intros _.
    apply emits_yield. exact I. }
  unfold LangChainHandler.handle_message, try_except.
  destruct (Hturn e []) as (ys & Hys & Hq).
  destruct (LangChainHandler.turn _ _ _ _ _ _ _ _ _ _ _)
    as [[[]|exc] [e' out]]; simpl in Hys; subst out; simpl; [exact Hq|].
  apply Forall_app_2; [exact Hq|]. constructor; [exact I|constructor].
Qed.

(** The messages of a turn end in its only terminal message. *)
Lemma handle_message_terminal self session_id content parts metadata e :
  exists body last,
    fst (LangChainHandler.handle_message clock network json_loads json_dumps
           engine self session_id content parts metadata e)
    = body ++ [last]
    /\ no_terminal body /\ is_terminal last = true.
Proof.
  unfold LangChainHandler.handle_message, try_except.
  destruct (closing_turn self session_id content parts metadata e [])
    as (ys & Hq & Hturn).
  destruct (LangChainHandler.turn _ _ _ _ _ _ _ _ _ _ _)
    as [[[]|exc] [e' out]].
  - destruct Hturn as (fc & u & ->). simpl.
    exists ys, (runtime_pb2.done fc u). repeat split; eauto.
  - subst out. simpl.
    exists ys, (runtime_pb2.error "HANDLER_ERROR" (exn_str exc)).
    repeat split; assumption.
Qed.

(** A tool call that fails comes back from the tool handler as text. *)
Lemma call_tool_failed self tm caller name kwargs exc log' (e : Env St) out :
  LangChainHandler.tool_manager self = Some tm ->
  name ∈ LangChainHandler.tools self ->
  ToolManager.run_tool network json_loads tm name caller kwargs (net e)
  = (Raise exc, log') ->
  LangChainHandler.call_tool network json_loads json_dumps self caller name
    kwargs (e, out)
  = (Ok (Some (json_dumps (JObj [("error", JStr (exn_str exc));
                                 ("tool", JStr name)]))),
     (mkEnv (heap e) (ticks e) (store e) log', out)).
Proof.
  intros Htm Hname Hexec. unfold LangChainHandler.call_tool.
  rewrite Htm, bool_decide_eq_true_2 by exact Hname.
  unfold LangChainHandler.lift, ToolManager._create_tool_handler.
  rewrite Hexec. reflexivity.
Qed.

End TurnFacts.

(** C1.  Whatever the session store, the agent engine and the inbound turn,
    the messages [handle_message] yields are some non-terminal messages
    followed by exactly one terminal message: [done] when the body of the
    turn completes, [error] -- carrying the exception's text -- when anything
    in it raises (loading or saving the session, creating the agent, the
    engine's stream, or the handling of an event). *)
Theorem one_terminal_last (St : Type) (S : SessionStore.t St)
    clock network json_loads json_dumps engine
    self session_id content parts metadata (e : Env St) :
  exists body last,
    fst (LangChainHandler.handle_message clock network json_loads json_dumps
           engine self session_id content parts metadata e)
    = body ++ [last]
    /\ no_terminal body
    /\ is_terminal last = true
    /\ match LangChainHandler.turn clock network json_loads json_dumps engine
               self session_id content parts metadata (e, []) with
       | (Ok _, _) => exists final_content usage,
                        last = runtime_pb2.done final_content usage
       | (Raise exc, _) =>
           last = runtime_pb2.error "HANDLER_ERROR" (exn_str exc)
       end.
Proof.
  unfold LangChainHandler.handle_message, try_except.
  destruct (closing_turn clock network json_loads json_dumps engine
              self session_id content parts metadata e [])
    as (ys & Hq & Hturn).
  destruct (LangChainHandler.turn _ _ _ _ _ _ _ _ _ _ _)
    as [[[]|exc] [e' out]].
  - destruct Hturn as (fc & u & ->). simpl.
    exists ys, (runtime_pb2.done fc u). repeat split; eauto.
  - subst out. simpl.
    exists ys, (runtime_pb2.error "HANDLER_ERROR" (exn_str exc)).
    repeat split; assumption.
Qed.

(** *** Turns against the in-process store *)

Lemma alter_last (f : Session.t -> Session.t) h s :
  alter f (length h) (h ++ [s]) = h ++ [f s].
Proof.
  replace (length h) with (length h + 0)%nat by lia.
  rewrite alter_app_r. reflexivity.
Qed.

Lemma deref_last h s : deref (h ++ [s]) (length h) = s.
Proof. unfold deref. rewrite list_lookup_middle; reflexivity. Qed.

Lemma assoc_snoc_fresh key (d : list (string * loc)) n l :
  assoc key
    (lastn n (InMemorySessionStore.remove key d) ++ [(key, l)]) = Some l.
Proof.
  rewrite assoc_app.
  assert (assoc key (lastn n (InMemorySessionStore.remove key d)) = None)
    as ->.
  { apply assoc_None. intros Hin.
    assert (Hin' : key ∈ lastn n (map fst (InMemorySessionStore.remove key d)))
      by (rewrite <- map_lastn; exact Hin).
    apply elem_of_lastn in Hin'.
    rewrite stored_keys_remove, list_elem_of_filter in Hin'. tauto. }
  simpl. rewrite String.eqb_refl. reflexivity.
Qed.

Section InProcessTurn.
Variable clock : nat -> datetime.t.
Variable network : Net -> request -> http_reply.
Variable json_loads : string -> option json.
Variable json_dumps : json -> string.
Variable engine : list string -> list message -> json -> stream.

Local Abbreviation in_process := (InMemorySessionStore.session_store clock).
Local Abbreviation consume :=
  (LangChainHandler.consume (St:=InMemorySessionStore.t)
     network json_loads json_dumps).

Lemma add_message_spec l msg (e : Env InMemorySessionStore.t) :
  add_message clock l msg e
  = (Ok tt,
     mkEnv (alter (Session.set_updated_at (clock (ticks e))) l
              (alter (Session.append msg) l (heap e)))
       (S (ticks e)) (store e) (net e)).
Proof. reflexivity. Qed.

(** [get_or_create] for an id the store does not hold. *)
Lemma get_or_create_new session_id (e : Env InMemorySessionStore.t) :
  assoc session_id (InMemorySessionStore._sessions (store e)) = None ->
  1 <= InMemorySessionStore.max_sessions (store e) ->
  SessionStore.get_or_create (H:=in_process) clock session_id e
  = (Ok (length (heap e)),
     mkEnv (heap e ++ [Session.mk session_id [] (JObj [])
                         (clock (ticks e)) (clock (2 + ticks e)%nat)])
       (3 + ticks e)
       (saved (store e) session_id (length (heap e)))
       (net e)).
Proof.
  intros Hnew HC. unfold SessionStore.get_or_create, bind at 1.
  cbn [SessionStore.get in_process InMemorySessionStore.session_store].
  rewrite get_spec, Hnew.
  unfold Session_new, bind, utcnow, alloc, set_heap, ret.
  cbn [heap ticks store net SessionStore.save
       InMemorySessionStore.session_store].
  rewrite save_spec. cbn [heap ticks store net].
  rewrite deref_last. cbn [Session.session_id].
  destruct (Z.leb_spec 1 (InMemorySessionStore.max_sessions (store e)));
    [|lia].
  rewrite alter_last. reflexivity.
Qed.
End InProcessTurn.

(** [get_or_create] for an id the store holds, unexpired. *)
Lemma get_or_create_found clock session_id l (e : Env InMemorySessionStore.t) :
  assoc session_id (InMemorySessionStore._sessions (store e)) = Some l ->
  datetime.sub (clock (ticks e)) (Session.updated_at (deref (heap e) l))
  <= InMemorySessionStore.ttl (store e) ->
  SessionStore.get_or_create (H:=InMemorySessionStore.session_store clock)
    clock session_id e
  = (Ok l,
     mkEnv (heap e) (S (ticks e))
       (InMemorySessionStore.mk (InMemorySessionStore.ttl (store e))
          (InMemorySessionStore.max_sessions (store e))
          (InMemorySessionStore.remove session_id
             (InMemorySessionStore._sessions (store e))
           ++ [(session_id, l)]))
       (net e)).
Proof.
  intros Hl Hfresh. unfold SessionStore.get_or_create, bind.
  cbn [SessionStore.get InMemorySessionStore.session_store].
  rewrite get_spec, Hl. cbn zeta.
  destruct (Z.gtb_spec (datetime.sub (clock (ticks e))
                          (Session.updated_at (deref (heap e) l)))
              (InMemorySessionStore.ttl (store e))); [lia|].
  reflexivity.
Qed.

Lemma deref_alter_alter f g l h :
  (l < length h)%nat ->
  deref (alter f l (alter g l h)) l = f (g (deref h l)).
Proof.
  intros Hl. unfold deref. rewrite !list_lookup_alter_eq.
  destruct (lookup_lt_is_Some_2 h l Hl) as [s ->]. reflexivity.
Qed.

Lemma assoc_moved_to_end key (d : list (string * loc)) l :
  assoc key (InMemorySessionStore.remove key d ++ [(key, l)]) = Some l.
Proof.
  rewrite assoc_app, assoc_remove_eq. simpl. rewrite String.eqb_refl.
  reflexivity.
Qed.

(** C5, as amended.  In a turn against the in-process store whose engine
    emits the text deltas [chunks] and then raises [exc], [handle_message]
    yields one chunk per delta followed by one [error] message, and nothing
    else; afterwards the store holds the session with the user message of
    this turn appended and no assistant message -- the user message alone
    when the session is new, the earlier messages followed by it when the
    session existed.  The turn does not save: the store holds the very
    object the turn wrote to. *)
Theorem failed_turn_keeps_user_message clock network json_loads json_dumps
    engine self session_id content parts metadata chunks exc
    (e : Env InMemorySessionStore.t) :
  let user := LangChainHandler._build_user_message content parts in
  let variables := LangChainHandler._extract_variables json_loads metadata in
  let run :=
    LangChainHandler.handle_message
      (H:=InMemorySessionStore.session_store clock)
      clock network json_loads json_dumps engine
      self session_id content parts metadata e in
  LangChainHandler.prompt_name self ∈ prompts (LangChainHandler.pack self) ->
  Forall (fun s => s <> "") chunks ->
  (assoc session_id (InMemorySessionStore._sessions (store e)) = None ->
   1 <= InMemorySessionStore.max_sessions (store e) ->
   engine (LangChainHandler.tools self) [user] variables
   = emit (map text_delta chunks) (Throw exc) ->
   fst run = map runtime_pb2.chunk chunks
             ++ [runtime_pb2.error "HANDLER_ERROR" (exn_str exc)]
   /\ stored_session (snd run) session_id
      = Some (Session.mk session_id [user] (JObj [])
                (clock (ticks e)) (clock (3 + ticks e)%nat)))
  /\ (forall l,
       assoc session_id (InMemorySessionStore._sessions (store e)) = Some l ->
       (l < length (heap e))%nat ->
       datetime.sub (clock (ticks e)) (Session.updated_at (deref (heap e) l))
       <= InMemorySessionStore.ttl (store e) ->
       engine (LangChainHandler.tools self)
         (Session.messages (deref (heap e) l) ++ [user]) variables
       = emit (map text_delta chunks) (Throw exc) ->
       fst run = map runtime_pb2.chunk chunks
                 ++ [runtime_pb2.error "HANDLER_ERROR" (exn_str exc)]
       /\ stored_session (snd run) session_id
          = Some (Session.set_updated_at (clock (S (ticks e)))
                    (Session.append user (deref (heap e) l)))).
Proof.
  intros user variables run Hprompt Hchunks.
  unfold run. rewrite handle_message_steps. split.
  - intros Hnew HC Hengine.
    rewrite get_or_create_new by assumption.
    rewrite add_message_spec. cbn [snd heap ticks store net].
    rewrite !alter_last, deref_last. cbn [Session.append Session.messages app
      Session.set_updated_at Session.session_id Session.metadata
      Session.created_at].
    rewrite bool_decide_eq_true_2 by exact Hprompt.
    fold user variables. rewrite Hengine, consume_text by exact Hchunks.
    cbn [LangChainHandler.consume raise fst snd app].
    split; [reflexivity|].
    unfold stored_session, saved. cbn [store heap InMemorySessionStore._sessions].
    rewrite assoc_snoc_fresh. cbn [fmap option_fmap option_map].
    rewrite deref_last. reflexivity.
  - intros l Hl Hvalid Hfresh Hengine.
    rewrite (get_or_create_found _ _ l) by assumption.
    rewrite add_message_spec. cbn [snd heap ticks store net].
    rewrite deref_alter_alter by exact Hvalid.
    cbn [Session.append Session.messages Session.set_updated_at].
    rewrite bool_decide_eq_true_2 by exact Hprompt.
    fold user variables. rewrite Hengine, consume_text by exact Hchunks.
    cbn [LangChainHandler.consume raise fst snd app].
    split; [reflexivity|].
    unfold stored_session. cbn [store heap InMemorySessionStore._sessions].
    rewrite assoc_moved_to_end. cbn [fmap option_fmap option_map].
    rewrite deref_alter_alter by exact Hvalid. reflexivity.
Qed.

(** C6.  A turn with content ["hello"], no tool manager, a session id the
    store does not hold yet, and an engine that emits the text deltas ["Hi"]
    and [" there"] and then reports the usage 5/3: [handle_message] yields
    exactly [chunk "Hi"], [chunk " there"], [done "Hi there" (5, 3)], and the
    store then holds the session with exactly the user message ["hello"] and
    the assistant message ["Hi there"]. *)
Theorem hello_turn clock network json_loads json_dumps engine self session_id
    metadata (e : Env InMemorySessionStore.t) :
  let run :=
    LangChainHandler.handle_message
      (H:=InMemorySessionStore.session_store clock)
      clock network json_loads json_dumps engine
      self session_id (Some "hello") [] metadata e in
  LangChainHandler.tool_manager self = None ->
  LangChainHandler.prompt_name self ∈ prompts (LangChainHandler.pack self) ->
  assoc session_id (InMemorySessionStore._sessions (store e)) = None ->
  1 <= InMemorySessionStore.max_sessions (store e) ->
  engine [] [HumanMessage (JStr "hello") (JObj [])]
    (LangChainHandler._extract_variables json_loads metadata)
  = emit [text_delta "Hi"; text_delta " there";
          on_llm_end (Some (mkTokenUsage (Some 5) (Some 3)))] Stop ->
  fst run = [runtime_pb2.chunk "Hi"; runtime_pb2.chunk " there";
             runtime_pb2.done "Hi there" (runtime_pb2.mkUsage 5 3 0%float)]
  /\ stored_session (snd run) session_id
     = Some (Session.mk session_id
               [HumanMessage (JStr "hello") (JObj []);
                AIMessage (JStr "Hi there") (JObj [])]
               (JObj []) (clock (ticks e)) (clock (5 + ticks e)%nat)).
Proof.
  intros run Htools Hprompt Hnew HC Hengine.
  unfold run. rewrite handle_message_steps.
  rewrite get_or_create_new by assumption.
  rewrite add_message_spec. cbn [snd heap ticks store net].
  rewrite !alter_last, deref_last.
  cbn [Session.append Session.messages app Session.set_updated_at
       Session.session_id Session.metadata Session.created_at
       LangChainHandler._build_user_message from_option id].
  rewrite bool_decide_eq_true_2 by exact Hprompt.
  unfold LangChainHandler.tools. rewrite Htools, Hengine.
  match goal with
  | |- context [LangChainHandler.consume ?n ?jl ?jd ?h ?s ?fc ?ti ?to
                  (?e2, [])] =>
      change (LangChainHandler.consume n jl jd h s fc ti to (e2, []))
        with (Ok ("Hi there", 5, 3) : result (string * Z * Z),
              (e2, [runtime_pb2.chunk "Hi"; runtime_pb2.chunk " there"]))
  end.
  cbn beta iota. change (negb ("Hi there" =? "")%string) with true.
  cbn beta iota.
  rewrite add_message_spec. cbn [snd heap ticks store net].
  rewrite !alter_last.
  cbn [Session.append Session.messages app Session.set_updated_at
       Session.session_id Session.metadata Session.created_at].
  cbn [SessionStore.save InMemorySessionStore.session_store].
  rewrite save_spec. cbn [heap ticks store net saved
    InMemorySessionStore.max_sessions InMemorySessionStore._sessions
    InMemorySessionStore.ttl].
  rewrite deref_last, alter_last.
  destruct (Z.leb_spec 1 (InMemorySessionStore.max_sessions (store e)));
    [|lia].
  split; [reflexivity|].
  unfold stored_session. cbn [snd store heap InMemorySessionStore._sessions
                              Session.session_id].
  rewrite assoc_snoc_fresh. cbn [fmap option_fmap option_map].
  rewrite deref_last. reflexivity.
Qed.

(** C4, as amended.  A tool call fails inside the tool handler when
    [execute] raises (the retry budget is used up, the error is not
    retryable, or it is no [ToolAdapterError] at all) or when the thread
    the engine calls from has no event loop, in which case nothing is sent.
    The handler then does not raise: it hands the engine the text of
    [{"error": ..., "tool": ...}], and the event loop of the turn goes on
    with whatever the engine does next.  A tool-end event is forwarded as a
    tool-result message with [is_error] false -- the output itself when it
    is a string, its JSON text otherwise -- unless [json.dumps] rejects
    the output: then the turn ends there with an error.  No message of any
    turn has [is_error] set, and every turn ends in its one terminal
    message. *)
Theorem failed_tool_call_reported (St : Type) (S : SessionStore.t St)
    clock network json_loads json_dumps engine self tm name kwargs :
  LangChainHandler.tool_manager self = Some tm ->
  name ∈ LangChainHandler.tools self ->
  (forall caller k exc log' final_content tin tout (e : Env St) out,
      ToolManager.run_tool network json_loads tm name caller kwargs (net e)
      = (Raise exc, log') ->
      LangChainHandler.consume network json_loads json_dumps self
        (CallTool caller name kwargs k) final_content tin tout (e, out)
      = LangChainHandler.consume network json_loads json_dumps self
          (k (Some (json_dumps (JObj [("error", JStr (exn_str exc));
                                      ("tool", JStr name)]))))
          final_content tin tout
          (mkEnv (heap e) (ticks e) (store e) log', out))
  /\ (forall thread_name log,
        ToolManager.run_tool network json_loads tm name
          (asyncio.no_loop thread_name) kwargs log
        = (Raise (PyException "RuntimeError"
                    ("There is no current event loop in thread "
                     +:+ repr_str thread_name +:+ ".")), log))
  /\ (forall caller log,
        (forall thread_name, caller <> asyncio.no_loop thread_name) ->
        ToolManager.run_tool network json_loads tm name caller kwargs log
        = ToolManager.execute network json_loads tm name kwargs log)
  /\ (forall run_id output rest final_content tin tout (e : Env St) out,
        LangChainHandler.consume network json_loads json_dumps self
          (Yield (on_tool_end run_id output) rest) final_content tin tout
          (e, out)
        = match output with
          | Json (JStr s) =>
              LangChainHandler.consume network json_loads json_dumps self
                rest final_content tin tout
                (e, out ++ [runtime_pb2.tool_result run_id s false])
          | Json v =>
              LangChainHandler.consume network json_loads json_dumps self
                rest final_content tin tout
                (e, out ++ [runtime_pb2.tool_result run_id (json_dumps v)
                              false])
          | Opaque type_name =>
              (Raise (PyException "TypeError"
                        ("Object of type " +:+ type_name
                         +:+ " is not JSON serializable")), (e, out))
          end)
  /\ (forall session_id content parts metadata (e : Env St),
        Forall unflagged
          (fst (LangChainHandler.handle_message clock network json_loads
                  json_dumps engine self session_id content parts metadata e))
        /\ exists body last,
            fst (LangChainHandler.handle_message clock network json_loads
                   json_dumps engine self session_id content parts metadata e)
            = body ++ [last]
            /\ no_terminal body /\ is_terminal last = true).
Proof.
  intros Htm Hname. split; [|split; [|split; [|split]]].
  - intros caller k exc log' fc tin tout e out Hrun.
    cbn [LangChainHandler.consume]. unfold bind at 1.
    rewrite (call_tool_failed _ _ _ _ _ _ _ _ _ _ _ _ Htm Hname Hrun).
    reflexivity.
  - intros thread_name log. reflexivity.
  - intros caller log Hloop.
    destruct caller as [| |thread_name]; [reflexivity|reflexivity|].
    exfalso. exact (Hloop thread_name eq_refl).
  - intros run_id output rest fc tin tout e out.
    cbn [LangChainHandler.consume].
    destruct output as [j|c]; [destruct j|]; reflexivity.
  - intros session_id content parts metadata e. split.
    + apply handle_message_unflagged.
    + apply handle_message_terminal.
Qed.

(** The weather service is down while the engine asks for the forecast,
    once from the thread of the running loop and once from a worker
    thread. *)
Lemma failed_tool_call_reported_witness :
  LangChainHandler.consume Demo.always_down Demo.no_json Demo.render
    Demo.with_weather
    (CallTool asyncio.running_loop "get_weather" Demo.paris Demo.reporting)
    "" 0 0 (Demo.started, [])
  = LangChainHandler.consume Demo.always_down Demo.no_json Demo.render
      Demo.with_weather
      (Demo.reporting
         (Some (Demo.render
                  (JObj [("error", JStr "HTTP error 503: unavailable");
                         ("tool", JStr "get_weather")]))))
      "" 0 0
      (mkEnv [] 0 (LangChainHandler._create_session_store 86400)
         (replicate 3 (HTTPToolAdapter.build_request Demo.weather_adapter
                         Demo.paris)), [])
  /\ LangChainHandler.consume Demo.always_down Demo.no_json Demo.render
       Demo.with_weather
       (CallTool (asyncio.no_loop "asyncio_0") "get_weather" Demo.paris
          Demo.reporting)
       "" 0 0 (Demo.started, [])
     = LangChainHandler.consume Demo.always_down Demo.no_json Demo.render
         Demo.with_weather
         (Demo.reporting
            (Some (Demo.render
                     (JObj [("error",
                             JStr "There is no current event loop in thread 'asyncio_0'.");
                            ("tool", JStr "get_weather")]))))
         "" 0 0
         (mkEnv [] 0 (LangChainHandler._create_session_store 86400) [], [])
  /\ Forall unflagged
       (fst (LangChainHandler.handle_message
               (H:=InMemorySessionStore.session_store Demo.standing)
               Demo.standing Demo.always_down Demo.no_json Demo.render
               Demo.forecasting_worker Demo.with_weather "s1"
               (Some "weather?") [] ∅ Demo.started)).
Proof.
  destruct (failed_tool_call_reported InMemorySessionStore.t
              (InMemorySessionStore.session_store Demo.standing)
              Demo.standing Demo.always_down Demo.no_json Demo.render
              Demo.forecasting_worker Demo.with_weather Demo.weather_manager
              "get_weather" Demo.paris eq_refl
              ltac:(apply list_elem_of_here))
    as (Hloop & Hnone & _ & _ & Hturn).
  split; [|split].
  - apply (Hloop asyncio.running_loop Demo.reporting
             (ToolAdapterError "HTTP error 503: unavailable" "get_weather"
                true)).
    vm_compute. reflexivity.
  - apply (Hloop (asyncio.no_loop "asyncio_0") Demo.reporting
             (PyException "RuntimeError"
                "There is no current event loop in thread 'asyncio_0'.")
             [] "" 0 0 Demo.started []).
    apply Hnone.
  - apply Hturn.
Defined.

(** C4, as stated, fails on the error flag: no tool-result message of any
    turn has [is_error] set, the one reporting a failed call included. *)
Lemma failed_tool_call_flag_unset :
  ~ (forall clock network json_loads json_dumps self tm caller name kwargs
            run_id rest session_id content parts metadata exc log'
            (e : Env InMemorySessionStore.t),
        LangChainHandler.tool_manager self = Some tm ->
        name ∈ LangChainHandler.tools self ->
        ToolManager.run_tool network json_loads tm name caller kwargs (net e)
        = (Raise exc, log') ->
        exists r,
          runtime_pb2.tool_result run_id r true
          ∈ fst (LangChainHandler.handle_message
                   (H:=InMemorySessionStore.session_store clock)
                   clock network json_loads json_dumps
                   (fun _ _ _ =>
                      Yield (on_tool_start run_id name (Json kwargs))
                        (CallTool caller name kwargs
                           (fun r =>
                              Yield (on_tool_end run_id
                                       (Json (JStr (default "" r))))
                                rest)))
                   self session_id content parts metadata e)).
Proof.
  intros H.
  destruct (H Demo.standing Demo.always_down Demo.no_json Demo.render
              Demo.with_weather Demo.weather_manager asyncio.running_loop
              "get_weather" Demo.paris
              "run-1" (Yield (text_delta "Sorry") Stop) "s1" (Some "weather?")
              [] ∅
              (ToolAdapterError "HTTP error 503: unavailable" "get_weather"
                 true)
              (replicate 3 (HTTPToolAdapter.build_request Demo.weather_adapter
                              Demo.paris))
              Demo.started eq_refl ltac:(apply list_elem_of_here)
              ltac:(vm_compute; reflexivity)) as [r Hr].
  pose proof (handle_message_unflagged
                (H:=InMemorySessionStore.session_store Demo.standing)
                Demo.standing Demo.always_down
                Demo.no_json Demo.render
                (fun _ _ _ =>
                   Yield (on_tool_start "run-1" "get_weather" (Json Demo.paris))
                     (CallTool asyncio.running_loop "get_weather" Demo.paris
                        (fun r =>
                           Yield (on_tool_end "run-1"
                                    (Json (JStr (default "" r))))
                             (Yield (text_delta "Sorry") Stop))))
                Demo.with_weather "s1" (Some "weather?") [] ∅ Demo.started)
    as Hall.
  rewrite Forall_forall in Hall. apply Hall in Hr. discriminate Hr.
Qed.

(** A first turn that breaks after one chunk, and the same turn again. *)
Lemma failed_turn_keeps_user_message_witness :
  let hello := HumanMessage (JStr "hello") (JObj []) in
  let first :=
    LangChainHandler.handle_message
      (H:=InMemorySessionStore.session_store Demo.standing)
      Demo.standing Demo.always_down Demo.no_json Demo.render Demo.breaking
      Demo.plain "s1" (Some "hello") [] ∅ Demo.started in
  let second :=
    LangChainHandler.handle_message
      (H:=InMemorySessionStore.session_store Demo.standing)
      Demo.standing Demo.always_down Demo.no_json Demo.render Demo.breaking
      Demo.plain "s1" (Some "hello") [] ∅ (snd first) in
  (fst first = [runtime_pb2.chunk "Hi";
                runtime_pb2.error "HANDLER_ERROR" "model overloaded"]
   /\ stored_session (snd first) "s1"
      = Some (Session.mk "s1" [hello] (JObj [])
                Demo.new_year Demo.new_year))
  /\ (fst second = [runtime_pb2.chunk "Hi";
                    runtime_pb2.error "HANDLER_ERROR" "model overloaded"]
      /\ stored_session (snd second) "s1"
         = Some (Session.mk "s1" [hello; hello] (JObj [])
                   Demo.new_year Demo.new_year)).
Proof.
  intros hello first second. split.
  - destruct (failed_turn_keeps_user_message Demo.standing Demo.always_down
                Demo.no_json Demo.render Demo.breaking Demo.plain "s1"
                (Some "hello") [] ∅ ["Hi"] Demo.overloaded Demo.started
                ltac:(apply list_elem_of_here)
                ltac:(repeat constructor; discriminate)) as [Hnew _].
    apply Hnew; [reflexivity | vm_compute; discriminate | reflexivity].
  - destruct (failed_turn_keeps_user_message Demo.standing Demo.always_down
                Demo.no_json Demo.render Demo.breaking Demo.plain "s1"
                (Some "hello") [] ∅ ["Hi"] Demo.overloaded (snd first)
                ltac:(apply list_elem_of_here)
                ltac:(repeat constructor; discriminate)) as [_ Hold].
    apply (Hold 0%nat);
      [vm_compute; reflexivity | vm_compute; lia
      | vm_compute; discriminate | reflexivity].
Defined.

(** C5, as stated, fails with the Redis store: [get] hands the turn a copy
    of the stored session, and the failing turn never saves it, so the
    record read back afterwards does not have the user message. *)
Lemma failed_turn_lost_in_redis :
  ~ (forall (St : Type) (S : SessionStore.t St) clock network json_loads
            json_dumps self session_id content chunk exc (e : Env St),
        let user := HumanMessage (JStr content) (JObj []) in
        let run :=
          LangChainHandler.handle_message (H:=S) clock network json_loads
            json_dumps (fun _ _ _ => emit [text_delta chunk] (Throw exc))
            self session_id (Some content) [] ∅ e in
        LangChainHandler.prompt_name self
        ∈ prompts (LangChainHandler.pack self) ->
        chunk <> "" ->
        fst (SessionStore.get session_id e) = Ok None ->
        fst run = [runtime_pb2.chunk chunk;
                   runtime_pb2.error "HANDLER_ERROR" (exn_str exc)] ->
        exists l e',
          SessionStore.get session_id (snd run) = (Ok (Some l), e')
          /\ Session.messages (deref (heap e') l) = [user]).
Proof.
  intros H.
  destruct (H (RedisSessionStore.t (gmap string string))
              (RedisSessionStore.session_store (H:=Demo.kv) Demo.standing
                 Demo.render Demo.parse)
              Demo.standing Demo.always_down Demo.parse Demo.render
              Demo.plain "s1" "hello" "Hi" Demo.overloaded Demo.redis_started
              ltac:(apply list_elem_of_here) ltac:(discriminate)
              ltac:(vm_compute; reflexivity) ltac:(vm_compute; reflexivity))
    as (l & e' & Hget & Hmessages).
  vm_compute in Hget. injection Hget as <- <-.
  vm_compute in Hmessages. discriminate Hmessages.
Qed.

(** The turn of C6 in a newly started process. *)
Lemma hello_turn_witness :
  let run :=
    LangChainHandler.handle_message
      (H:=InMemorySessionStore.session_store Demo.standing)
      Demo.standing Demo.always_down Demo.no_json Demo.render Demo.greeting
      Demo.plain "s1" (Some "hello") [] ∅ Demo.started in
  fst run = [runtime_pb2.chunk "Hi"; runtime_pb2.chunk " there";
             runtime_pb2.done "Hi there" (runtime_pb2.mkUsage 5 3 0%float)]
  /\ stored_session (snd run) "s1"
     = Some (Session.mk "s1"
               [HumanMessage (JStr "hello") (JObj []);
                AIMessage (JStr "Hi there") (JObj [])]
               (JObj []) Demo.new_year Demo.new_year).
Proof.
  apply (hello_turn Demo.standing Demo.always_down Demo.no_json Demo.render
           Demo.greeting Demo.plain "s1" ∅ Demo.started eq_refl
           ltac:(apply list_elem_of_here) eq_refl
           ltac:(vm_compute; discriminate) eq_refl).
Defined.

(** ** The stored record of the external cache *)

Lemma digit_val_digit_char n :
  PyFloat.digit_val (datetime.digit_char n) = Some (n mod 10).
Proof.
  unfold datetime.digit_char.
  pose proof (Z.mod_pos_bound n 10 ltac:(lia)) as Hd.
  remember (n mod 10) as d eqn:E. clear E.
  assert (d = 0 \/ d = 1 \/ d = 2 \/ d = 3 \/ d = 4 \/ d = 5 \/ d = 6
          \/ d = 7 \/ d = 8 \/ d = 9) as Hcases by lia.
  repeat destruct Hcases as [->|Hcases]; try subst d; reflexivity.
Qed.

(** Reading back [w] zero-padded digits. *)
Lemma number_zero_padded w : forall k n acc rest,
  0 <= n < 10 ^ Z.of_nat w ->
  datetime.number (w + k) acc (datetime.zero_padded w n ++ rest)
  = datetime.number k (acc * 10 ^ Z.of_nat w + n) rest.
Proof.
  induction w as [|w IH]; intros k n acc rest Hn.
  - simpl in *. f_equal. lia.
  - cbn [datetime.zero_padded]. rewrite <- app_assoc. cbn [app].
    replace (S w + k)%nat with (w + S k)%nat by lia.
    rewrite Nat2Z.inj_succ, Z.pow_succ_r in Hn by lia.
    rewrite IH by (split; [apply Z.div_pos; lia
                          | apply Z.div_lt_upper_bound; lia]).
    cbn [datetime.number]. rewrite digit_val_digit_char.
    f_equal. rewrite Nat2Z.inj_succ, Z.pow_succ_r by lia.
    pose proof (Z.div_mod n 10 ltac:(lia)). lia.
Qed.

Lemma number_field w n rest :
  0 <= n < 10 ^ Z.of_nat w ->
  datetime.number w 0 (datetime.zero_padded w n ++ rest) = Some (n, rest).
Proof.
  intros Hn. replace w with (w + 0)%nat at 1 by lia.
  rewrite number_zero_padded by exact Hn. reflexivity.
Qed.

Lemma days_in_month_bound y m : 28 <= datetime.days_in_month y m <= 31.
Proof.
  unfold datetime.days_in_month.
  repeat match goal with |- context [if ?b then _ else _] => destruct b end;
    lia.
Qed.

(** [fromisoformat] inverts [isoformat] on every valid datetime. *)
Lemma fromisoformat_isoformat d :
  datetime.valid d = true ->
  datetime.fromisoformat (datetime.isoformat d) = Some d.
Proof.
  intros Hv. pose proof Hv as Hvalid. unfold datetime.valid in Hv.
  repeat (apply andb_true_iff in Hv as [Hv ?]).
  pose proof (days_in_month_bound (datetime.year d) (datetime.month d)).
  unfold datetime.fromisoformat, datetime.isoformat, chars, of_chars.
  rewrite list_ascii_of_string_of_list_ascii.
  unfold datetime.parse, datetime.isoformat_chars.
  do 6 (rewrite number_field by (simpl; lia);
        cbn [mbind option_bind datetime.expect Ascii.eqb Bool.eqb andb]).
  assert (Hfrac : datetime.fraction
                    (if datetime.microsecond d =? 0 then []
                     else "."%char
                          :: datetime.zero_padded 6 (datetime.microsecond d))
                  = Some (datetime.microsecond d)).
  { destruct (Z.eqb_spec (datetime.microsecond d) 0) as [->|Hne];
      [reflexivity|].
    unfold datetime.fraction.
    cbn [datetime.expect mbind option_bind Ascii.eqb Bool.eqb andb].
    rewrite <- (app_nil_r (datetime.zero_padded 6 _)).
    rewrite number_field by (simpl; lia). reflexivity. }
  rewrite Hfrac. cbn [mbind option_bind].
  destruct d; simpl in *. rewrite Hvalid. reflexivity.
Qed.

Lemma deserialize_serialize_message (S : Type) m (s : S) :
  core_message m ->
  RedisSessionStore.deserialize_message
    (RedisSessionStore.serialize_message m) s = (Ok m, s).
Proof. destruct m; intros []; reflexivity. Qed.

Lemma deserialize_serialize_messages (S : Type) ms (s : S) :
  Forall core_message ms ->
  RedisSessionStore.deserialize_messages
    (map RedisSessionStore.serialize_message ms) s = (Ok ms, s).
Proof.
  induction 1 as [|m ms Hm _ IH]; [reflexivity|].
  cbn [map RedisSessionStore.deserialize_messages]. unfold bind.
  rewrite deserialize_serialize_message by exact Hm. rewrite IH.
  reflexivity.
Qed.

(** C7.  For a session whose messages are human, AI, system or tool
    messages, whose timestamps are valid datetimes, and whose record
    [json.loads] reads back as [json.dumps] wrote it, [_deserialize] of
    [_serialize] returns the session itself: the same messages in the same
    order (class, content, additional keyword arguments, tool-call id), the
    same metadata, and the same timestamps to the microsecond. *)
Theorem deserialize_serialize (S : Type) json_dumps json_loads session (s : S) :
  Forall core_message (Session.messages session) ->
  datetime.valid (Session.created_at session) = true ->
  datetime.valid (Session.updated_at session) = true ->
  json_loads (json_dumps (session_record session))
  = Some (session_record session) ->
  RedisSessionStore._deserialize json_loads (Session.session_id session)
    (RedisSessionStore._serialize json_dumps session) s
  = (Ok session, s).
Proof.
  intros Hms Hc Hu Hcodec.
  unfold RedisSessionStore._deserialize, RedisSessionStore._serialize.
  fold (session_record session). rewrite Hcodec.
  unfold session_record, bind.
  cbn [py_get dict_getitem py_iter assoc String.eqb Ascii.eqb Bool.eqb andb
       ret].
  rewrite deserialize_serialize_messages by exact Hms.
  cbn [RedisSessionStore.fromisoformat].
  rewrite !fromisoformat_isoformat by assumption.
  destruct session; reflexivity.
Qed.

(** The round trip of [Demo.conversation] through a JSON printer and
    parser. *)
Lemma deserialize_serialize_witness :
  RedisSessionStore._deserialize (S:=unit) Demo.parse "s-42"
    (RedisSessionStore._serialize Demo.render Demo.conversation) tt
  = (Ok Demo.conversation, tt).
Proof.
  apply (deserialize_serialize unit Demo.render Demo.parse Demo.conversation
           tt).
  - repeat constructor.
  - reflexivity.
  - reflexivity.
  - vm_compute. reflexivity.
Defined.

(* ===================================================================== *)
(** * Further properties                                                  *)
(* ===================================================================== *)

(** ** The in-process store *)

(** [__init__] builds the store [new] whenever [timedelta] takes the TTL,
    and raises [OverflowError] otherwise. *)
Lemma init_new (S : Type) ttl_seconds max_sessions (s : S) :
  InMemorySessionStore.init ttl_seconds max_sessions s
  = if (-86399999913600 <=? ttl_seconds) && (ttl_seconds <? 86400000000000)
    then (Ok (InMemorySessionStore.new ttl_seconds max_sessions), s)
    else (Raise (PyException "OverflowError"
                   (if (-185542587187200 <=? ttl_seconds)
                       && (ttl_seconds <? 185542587187200)
                    then "days=" +:+ pretty (ttl_seconds / 86400)
                         +:+ "; must have magnitude <= 999999999"
                    else "Python int too large to convert to C int")), s).
Proof.
  unfold InMemorySessionStore.init, InMemorySessionStore.new,
    datetime.timedelta, bind.
  pose proof (Z.div_le_lower_bound ttl_seconds 86400 (-999999999)) as L1.
  pose proof (Z.div_lt_upper_bound ttl_seconds 86400 1000000000) as U1.
  pose proof (Z.div_le_lower_bound ttl_seconds 86400 (-2147483648)) as L2.
  pose proof (Z.div_lt_upper_bound ttl_seconds 86400 2147483648) as U2.
  pose proof (Z.mul_div_le ttl_seconds 86400) as M1.
  pose proof (Z.mul_succ_div_gt ttl_seconds 86400) as M2.
  destruct (Z.leb_spec (-86399999913600) ttl_seconds),
    (Z.ltb_spec ttl_seconds 86400000000000),
    (Z.leb_spec (-185542587187200) ttl_seconds),
    (Z.ltb_spec ttl_seconds 185542587187200);
    destruct (Z.ltb_spec (ttl_seconds / 86400) (-2147483648)),
      (Z.ltb_spec 2147483647 (ttl_seconds / 86400)),
      (Z.ltb_spec (ttl_seconds / 86400) (-999999999)),
      (Z.ltb_spec 999999999 (ttl_seconds / 86400));
    cbn [andb orb]; try reflexivity; exfalso; lia.
Qed.

Lemma size_stored_ids e :
  InMemorySessionStore.size (store e) = Z.of_nat (length (stored_ids e)).
Proof. unfold InMemorySessionStore.size, stored_ids. rewrite length_map. reflexivity. Qed.

(** X1.  The in-process store keeps its shape through any history of [get],
    [save], [delete], [cleanup_expired] and [get_or_create] calls: it never
    holds more than [max_sessions] entries (none when [max_sessions] is
    below one), no session id occurs twice, every entry is filed under the
    id of the session it points to, and the capacity and the TTL it was
    built with never change. *)
Theorem store_invariant clock ttl_seconds C h n nt history :
  let e := run_ops clock history
             (mkEnv h n (InMemorySessionStore.new ttl_seconds C) nt) in
  InMemorySessionStore.size (store e) <= Z.max 0 C
  /\ NoDup (stored_ids e)
  /\ (forall k l, (k, l) ∈ InMemorySessionStore._sessions (store e) ->
                  Session.session_id (deref (heap e) l) = k)
  /\ InMemorySessionStore.max_sessions (store e) = C
  /\ InMemorySessionStore.ttl (store e) = datetime.seconds ttl_seconds.
Proof.
  intros e.
  assert (Hok : store_ok (datetime.seconds ttl_seconds) C h e).
  { apply store_ok_run_ops. apply store_ok_new. }
  destruct Hok as (Httl & HC & _ & Hnd & Hlen & Hkeys).
  repeat split; try assumption.
  rewrite size_stored_ids. unfold stored_ids. rewrite length_map. lia.
Qed.

Lemma filter_bool {A} (f : A -> bool) (l : list A) :
  filter (fun x => f x = true) l = List.filter f l.
Proof.
  induction l as [|x l IH]; [reflexivity|].
  rewrite filter_cons. simpl. destruct (f x) eqn:E.
  - rewrite decide_True by reflexivity. f_equal. exact IH.
  - rewrite decide_False by discriminate. exact IH.
Qed.

Lemma elem_of_List_filter {A} (f : A -> bool) (l : list A) x :
  x ∈ List.filter f l <-> x ∈ l /\ f x = true.
Proof. rewrite <- filter_bool, list_elem_of_filter. tauto. Qed.

Lemma filter_iff_in {A} (P Q : A -> Prop) `{!forall x, Decision (P x)}
    `{!forall x, Decision (Q x)} (l : list A) :
  (forall x, x ∈ l -> P x <-> Q x) -> filter P l = filter Q l.
Proof.
  induction l as [|a l IH]; intros HPQ; [reflexivity|].
  rewrite !filter_cons.
  rewrite IH by (intros x Hx; apply HPQ; apply list_elem_of_further, Hx).
  pose proof (HPQ a (list_elem_of_here _ _)) as Ha.
  destruct (decide (P a)), (decide (Q a)); tauto.
Qed.

Lemma filter_all {A} (P : A -> Prop) `{!forall x, Decision (P x)}
    (l : list A) :
  (forall x, x ∈ l -> P x) -> filter P l = l.
Proof.
  induction l as [|a l IH]; intros HP; [reflexivity|].
  rewrite filter_cons, decide_True by (apply HP, list_elem_of_here).
  f_equal. apply IH. intros x Hx. apply HP, list_elem_of_further, Hx.
Qed.

Lemma assoc_elem_NoDup {A} key (v : A) (d : list (string * A)) :
  NoDup (map fst d) -> (key, v) ∈ d -> assoc key d = Some v.
Proof.
  induction d as [|[k x] d IH]; intros Hnd Hin.
  - apply elem_of_nil in Hin as [].
  - apply NoDup_cons in Hnd as [Hk Hnd]. simpl.
    apply elem_of_cons in Hin as [Heq|Hin].
    + inversion Heq; subst. rewrite String.eqb_refl. reflexivity.
    + destruct (String.eqb_spec k key) as [->|_].
      * exfalso. apply Hk. apply (list_elem_of_fmap_2 fst _ (key, v)), Hin.
      * apply IH; assumption.
Qed.

Lemma elem_of_NoDup_keys {A} key (v v' : A) (d : list (string * A)) :
  NoDup (map fst d) -> (key, v) ∈ d -> (key, v') ∈ d -> v = v'.
Proof.
  intros Hnd H1 H2.
  pose proof (assoc_elem_NoDup _ _ _ Hnd H1) as E1.
  pose proof (assoc_elem_NoDup _ _ _ Hnd H2) as E2.
  congruence.
Qed.

Lemma fold_remove_filter (ks d : list (string * loc)) :
  fold_left (fun d kv => InMemorySessionStore.remove (fst kv) d) ks d
  = filter (fun kv => fst kv ∉ map fst ks) d.
Proof.
  revert d. induction ks as [|k ks IH]; intros d; simpl.
  - symmetry. apply filter_all. intros x _. apply not_elem_of_nil.
  - rewrite IH. unfold InMemorySessionStore.remove.
    rewrite list_filter_filter. apply list_filter_iff. intros kv.
    rewrite not_elem_of_cons. tauto.
Qed.

Lemma cleanup_keeps_unexpired (p : string * loc -> bool)
    (d : list (string * loc)) :
  NoDup (map fst d) ->
  fold_left (fun d kv => InMemorySessionStore.remove (fst kv) d)
    (List.filter p d) d
  = List.filter (fun kv => negb (p kv)) d.
Proof.
  intros Hnd. rewrite fold_remove_filter, <- (filter_bool (fun kv => negb (p kv))).
  apply filter_iff_in. intros [k l] Hin. simpl. split.
  - intros Hk. destruct (p (k, l)) eqn:E; [|reflexivity].
    exfalso. apply Hk. apply (list_elem_of_fmap_2 fst _ (k, l)).
    apply elem_of_List_filter. split; assumption.
  - intros Hp Hk. apply list_elem_of_fmap in Hk as ([k' l'] & Hkk & Hin').
    simpl in Hkk. subst k'. apply elem_of_List_filter in Hin' as [Hin' Hp'].
    assert (l = l') by (eapply elem_of_NoDup_keys; eassumption). subst l'.
    rewrite Hp' in Hp. discriminate.
Qed.

Lemma length_List_filter_split {A} (p : A -> bool) (l : list A) :
  (length (List.filter p l) + length (List.filter (fun x => negb (p x)) l)
   = length l)%nat.
Proof.
  induction l as [|a l IH]; [reflexivity|]. simpl.
  destruct (p a); simpl; lia.
Qed.

(** X2.  [cleanup_expired] reads the clock once, removes exactly the entries
    whose session was last updated more than the TTL before that reading,
    keeps the other entries in their order, leaves the session objects
    alone and returns the number of entries it removed; so the returned
    count and the new size add up to the old size. *)
Theorem cleanup_expired_spec clock (e : Env InMemorySessionStore.t) :
  NoDup (stored_ids e) ->
  let st := store e in
  let gone := expired (clock (ticks e)) (InMemorySessionStore.ttl st) (heap e) in
  let d := InMemorySessionStore._sessions st in
  InMemorySessionStore.cleanup_expired clock e
  = (Ok (Z.of_nat (length (List.filter gone d))),
     mkEnv (heap e) (S (ticks e))
       (InMemorySessionStore.mk (InMemorySessionStore.ttl st)
          (InMemorySessionStore.max_sessions st)
          (List.filter (fun kv => negb (gone kv)) d))
       (net e))
  /\ Z.of_nat (length (List.filter gone d))
     + InMemorySessionStore.size
         (store (snd (InMemorySessionStore.cleanup_expired clock e)))
     = InMemorySessionStore.size st.
Proof.
  intros Hnd st gone d.
  assert (E : InMemorySessionStore.cleanup_expired clock e
              = (Ok (Z.of_nat (length (List.filter gone d))),
                 mkEnv (heap e) (S (ticks e))
                   (InMemorySessionStore.mk (InMemorySessionStore.ttl st)
                      (InMemorySessionStore.max_sessions st)
                      (List.filter (fun kv => negb (gone kv)) d))
                   (net e))).
  { unfold InMemorySessionStore.cleanup_expired, bind, utcnow, gets, modify,
      ret, set_store, InMemorySessionStore.set_sessions; simpl.
    fold st d. change (fun kv : string * loc => _ >? _) with gone.
    rewrite (cleanup_keeps_unexpired gone d Hnd). reflexivity. }
  split; [exact E|].
  rewrite E. unfold InMemorySessionStore.size; simpl. fold d.
  pose proof (length_List_filter_split gone d). lia.
Qed.

Lemma deref_alter_eq f l h :
  (l < length h)%nat -> deref (alter f l h) l = f (deref h l).
Proof.
  intros Hl. unfold deref. rewrite list_lookup_alter_eq.
  destruct (lookup_lt_is_Some_2 h l Hl) as [s ->]. reflexivity.
Qed.

Lemma remove_absent key (d : list (string * loc)) :
  key ∉ map fst d -> InMemorySessionStore.remove key d = d.
Proof.
  intros Hk. unfold InMemorySessionStore.remove. apply filter_all.
  intros [k l] Hin E. simpl in E. subst k. apply Hk.
  apply (list_elem_of_fmap_2 fst _ (key, l)), Hin.
Qed.

Lemma remove_lastn_absent key n (d : list (string * loc)) :
  InMemorySessionStore.remove key
    (lastn n (InMemorySessionStore.remove key d))
  = lastn n (InMemorySessionStore.remove key d).
Proof.
  apply remove_absent. intros Hin.
  rewrite map_lastn in Hin. apply elem_of_lastn in Hin.
  rewrite stored_keys_remove in Hin. apply list_elem_of_filter in Hin as [Hne _].
  apply Hne. reflexivity.
Qed.

Lemma remove_app key (d1 d2 : list (string * loc)) :
  InMemorySessionStore.remove key (d1 ++ d2)
  = InMemorySessionStore.remove key d1 ++ InMemorySessionStore.remove key d2.
Proof. apply filter_app. Qed.

Lemma remove_singleton key (l : loc) :
  InMemorySessionStore.remove key [(key, l)] = [].
Proof.
  unfold InMemorySessionStore.remove.
  rewrite filter_cons, decide_False by (simpl; intros E; apply E; reflexivity).
  reflexivity.
Qed.

(** X3.  In a store with room for at least one session, [save] of a session
    succeeds, stamps the session with the clock reading, files it as the
    most recently used entry and, when the next clock reading is no more
    than the TTL later, a [get] of its id returns that very object. *)
Theorem save_then_get clock l (e : Env InMemorySessionStore.t) :
  let sid := Session.session_id (deref (heap e) l) in
  let e1 := snd (InMemorySessionStore.save clock l e) in
  (l < length (heap e))%nat ->
  1 <= InMemorySessionStore.max_sessions (store e) ->
  datetime.sub (clock (S (ticks e))) (clock (ticks e))
  <= InMemorySessionStore.ttl (store e) ->
  InMemorySessionStore.save clock l e = (Ok tt, e1)
  /\ deref (heap e1) l
     = Session.set_updated_at (clock (ticks e)) (deref (heap e) l)
  /\ last (stored_ids e1) = Some sid
  /\ InMemorySessionStore.get clock sid e1
     = (Ok (Some l), mkEnv (heap e1) (S (ticks e1)) (store e1) (net e1)).
Proof.
  intros sid e1 Hl HC Hfresh. subst e1.
  rewrite save_spec. fold sid.
  destruct (Z.leb_spec 1 (InMemorySessionStore.max_sessions (store e)));
    [|lia].
  cbn [snd heap store ticks net].
  split; [reflexivity|].
  split; [apply deref_alter_eq, Hl|].
  split.
  { unfold stored_ids; cbn [store InMemorySessionStore._sessions].
    rewrite map_app. apply last_snoc. }
  rewrite get_spec. cbn [store heap ticks net InMemorySessionStore._sessions
                           InMemorySessionStore.ttl
                           InMemorySessionStore.max_sessions].
  rewrite assoc_snoc_fresh. cbv zeta.
  rewrite (deref_alter_eq _ _ _ Hl). cbn [Session.updated_at Session.set_updated_at].
  destruct (Z.gtb_spec (datetime.sub (clock (S (ticks e))) (clock (ticks e)))
              (InMemorySessionStore.ttl (store e))); [lia|].
  rewrite remove_app, remove_lastn_absent, remove_singleton, app_nil_r.
  reflexivity.
Qed.

Lemma assoc_remove_ne key key' (d : list (string * loc)) :
  key' <> key ->
  assoc key' (InMemorySessionStore.remove key d) = assoc key' d.
Proof.
  intros Hne. induction d as [|[k l] d IH]; [reflexivity|].
  unfold InMemorySessionStore.remove in *. rewrite filter_cons. simpl.
  destruct (decide (k <> key)) as [Hk|Hk]; simpl.
  - rewrite IH. reflexivity.
  - apply dec_stable in Hk. subst k.
    destruct (String.eqb_spec key key') as [E|_]; [congruence|]. exact IH.
Qed.

(** X4.  [delete] never fails: it removes the entry of the id and nothing
    else, touches no session object, a [get] of the id right after returns
    [None] without changing the store, and deleting an id that is not
    stored changes nothing. *)
Theorem delete_then_get clock sid (e : Env InMemorySessionStore.t) :
  let e1 := snd (InMemorySessionStore.delete sid e) in
  InMemorySessionStore.delete sid e = (Ok tt, e1)
  /\ stored_ids e1 = filter (fun k => k <> sid) (stored_ids e)
  /\ heap e1 = heap e
  /\ InMemorySessionStore.get clock sid e1 = (Ok None, e1)
  /\ (forall other, other <> sid ->
        assoc other (InMemorySessionStore._sessions (store e1))
        = assoc other (InMemorySessionStore._sessions (store e)))
  /\ (sid ∉ stored_ids e ->
        InMemorySessionStore._sessions (store e1)
        = InMemorySessionStore._sessions (store e)).
Proof.
  intros e1. subst e1.
  unfold InMemorySessionStore.delete, modify; cbn [snd].
  split; [reflexivity|].
  split; [apply stored_keys_remove|].
  split; [reflexivity|].
  split.
  { rewrite get_spec. cbn [store set_store InMemorySessionStore.set_sessions
                             InMemorySessionStore._sessions].
    rewrite assoc_remove_eq. reflexivity. }
  split.
  { intros other Hne. apply assoc_remove_ne, Hne. }
  intros Habs. apply remove_absent, Habs.
Qed.

(** X5.  With [max_sessions] at zero or below, every [save] empties the
    store and then raises [KeyError] from [popitem] on the empty
    dictionary, and so does every [get_or_create] that follows. *)
Theorem save_without_capacity clock l (e : Env InMemorySessionStore.t) :
  InMemorySessionStore.max_sessions (store e) <= 0 ->
  exists e1,
    InMemorySessionStore.save clock l e
    = (Raise (PyException "KeyError" "'dictionary is empty'"), e1)
    /\ InMemorySessionStore._sessions (store e1) = []
    /\ forall sid,
         fst (SessionStore.get_or_create
                (H:=InMemorySessionStore.session_store clock) clock sid e1)
         = Raise (PyException "KeyError" "'dictionary is empty'").
Proof.
  intros HC. eexists. rewrite save_spec.
  destruct (Z.leb_spec 1 (InMemorySessionStore.max_sessions (store e)));
    [lia|].
  split; [reflexivity|]. split; [reflexivity|].
  intros sid. unfold SessionStore.get_or_create, bind.
  cbn [SessionStore.get InMemorySessionStore.session_store].
  rewrite get_spec. cbn [store InMemorySessionStore._sessions assoc].
  unfold Session_new, bind, utcnow, alloc; cbn [fst snd].
  cbn [SessionStore.save InMemorySessionStore.session_store].
  rewrite save_spec.
  cbn [store set_heap heap ticks net InMemorySessionStore.max_sessions].
  destruct (Z.leb_spec 1 (InMemorySessionStore.max_sessions (store e)));
    [lia|]. reflexivity.
Qed.

Lemma get_heap clock sid (e : Env InMemorySessionStore.t) :
  heap (snd (InMemorySessionStore.get clock sid e)) = heap e
  /\ InMemorySessionStore.ttl (store (snd (InMemorySessionStore.get clock sid e)))
     = InMemorySessionStore.ttl (store e).
Proof.
  rewrite get_spec.
  destruct (assoc sid _); [|split; reflexivity].
  cbv zeta. destruct (_ >? _); split; reflexivity.
Qed.

Lemma gets_heap clock ids : forall (e : Env InMemorySessionStore.t),
  heap (run_ops clock (map op_get ids) e) = heap e
  /\ InMemorySessionStore.ttl (store (run_ops clock (map op_get ids) e))
     = InMemorySessionStore.ttl (store e).
Proof.
  induction ids as [|sid ids IH]; intros e; [split; reflexivity|].
  change (run_ops clock (map op_get (sid :: ids)) e)
    with (run_ops clock (map op_get ids) (run_op clock (op_get sid) e)).
  destruct (IH (run_op clock (op_get sid) e)) as [-> ->].
  apply get_heap.
Qed.

(** X6.  Reading does not prolong a session: after any number of [get]
    calls no session object has changed, and a session whose last update
    is more than the TTL behind the clock is reported as missing by the
    next [get], which also drops its entry. *)
Theorem reads_do_not_extend_life clock ids sid l
    (e : Env InMemorySessionStore.t) :
  let e1 := run_ops clock (map op_get ids) e in
  assoc sid (InMemorySessionStore._sessions (store e1)) = Some l ->
  datetime.sub (clock (ticks e1)) (Session.updated_at (deref (heap e) l))
  > InMemorySessionStore.ttl (store e) ->
  heap e1 = heap e
  /\ fst (InMemorySessionStore.get clock sid e1) = Ok None
  /\ sid ∉ stored_ids (snd (InMemorySessionStore.get clock sid e1)).
Proof.
  intros e1 Hl Hold.
  destruct (gets_heap clock ids e) as [Hh Ht]. fold e1 in Hh, Ht.
  split; [exact Hh|].
  rewrite get_spec, Hl. cbv zeta. rewrite Hh, Ht.
  destruct (Z.gtb_spec (datetime.sub (clock (ticks e1))
                          (Session.updated_at (deref (heap e) l)))
              (InMemorySessionStore.ttl (store e))); [|lia].
  split; [reflexivity|].
  unfold stored_ids; cbn [snd store InMemorySessionStore._sessions].
  rewrite stored_keys_remove, list_elem_of_filter. intros [Hne _].
  apply Hne. reflexivity.
Qed.

(** X7.  [get_or_create] of an id that is not stored creates one empty
    session, saves it and returns it; a second [get_or_create] of the same
    id within the TTL returns the same object and creates nothing. *)
Theorem get_or_create_once clock sid (e : Env InMemorySessionStore.t) :
  let first :=
    SessionStore.get_or_create (H:=InMemorySessionStore.session_store clock)
      clock sid e in
  let second :=
    SessionStore.get_or_create (H:=InMemorySessionStore.session_store clock)
      clock sid (snd first) in
  assoc sid (InMemorySessionStore._sessions (store e)) = None ->
  1 <= InMemorySessionStore.max_sessions (store e) ->
  datetime.sub (clock (3 + ticks e)%nat) (clock (2 + ticks e)%nat)
  <= InMemorySessionStore.ttl (store e) ->
  fst first = Ok (length (heap e))
  /\ fst second = Ok (length (heap e))
  /\ heap (snd second)
     = heap e ++ [Session.mk sid [] (JObj [])
                    (clock (ticks e)) (clock (2 + ticks e)%nat)]
  /\ stored_session (snd second) sid
     = Some (Session.mk sid [] (JObj [])
               (clock (ticks e)) (clock (2 + ticks e)%nat))
  /\ stored_ids (snd second) = stored_ids (snd first).
Proof.
  intros first second Hnew HC Hfresh. subst second first.
  rewrite (get_or_create_new clock sid e Hnew HC). cbn [fst snd].
  split; [reflexivity|].
  rewrite (get_or_create_found clock sid (length (heap e))).
  - cbn [fst snd heap store]. split; [reflexivity|]. split; [reflexivity|].
    split.
    + unfold stored_session. cbn [store heap InMemorySessionStore._sessions].
      rewrite assoc_moved_to_end. cbn [fmap option_fmap option_map].
      rewrite deref_last. reflexivity.
    + unfold stored_ids, saved.
      cbn [store InMemorySessionStore._sessions].
      rewrite remove_app, remove_lastn_absent, remove_singleton, app_nil_r.
      reflexivity.
  - unfold saved. cbn [store InMemorySessionStore._sessions].
    apply assoc_snoc_fresh.
  - cbn [heap store ticks saved InMemorySessionStore.ttl].
    rewrite deref_last. cbn [Session.updated_at]. exact Hfresh.
Qed.

Lemma cleanup_expired_spec_witness :
  InMemorySessionStore.cleanup_expired Demo.a_day_later Demo.mixed
  = (Ok 1,
     mkEnv (heap Demo.mixed) 1
       (InMemorySessionStore.mk (datetime.seconds 60) 10 [("b", 1%nat)]) []).
Proof.
  apply (proj1 (cleanup_expired_spec Demo.a_day_later Demo.mixed
                  ltac:(apply NoDup_cons; split;
                          [intros E; apply list_elem_of_singleton in E;
                           discriminate
                          |apply NoDup_singleton]))).
Defined.

Lemma save_then_get_witness :
  InMemorySessionStore.get Demo.standing "a"
    (snd (InMemorySessionStore.save Demo.standing 0%nat
            (Demo.empty_store 60 10)))
  = (Ok (Some 0%nat),
     mkEnv [Demo.fresh_session "a"; Demo.fresh_session "b"] 2
       (InMemorySessionStore.mk (datetime.seconds 60) 10 [("a", 0%nat)]) []).
Proof.
  apply (proj2 (proj2 (proj2
           (save_then_get Demo.standing 0%nat (Demo.empty_store 60 10)
              ltac:(vm_compute; lia) ltac:(vm_compute; discriminate)
              ltac:(vm_compute; discriminate))))).
Defined.

Lemma save_without_capacity_witness :
  exists e1,
    InMemorySessionStore.save Demo.standing 0%nat Demo.no_room
    = (Raise (PyException "KeyError" "'dictionary is empty'"), e1)
    /\ InMemorySessionStore._sessions (store e1) = [].
Proof.
  destruct (save_without_capacity Demo.standing 0%nat Demo.no_room
              ltac:(vm_compute; discriminate)) as (e1 & Hsave & Hempty & _).
  exists e1. split; assumption.
Defined.

Lemma reads_do_not_extend_life_witness :
  fst (InMemorySessionStore.get Demo.late "a"
         (run_ops Demo.late [op_get "a"; op_get "a"; op_get "a"]
            Demo.stale))
  = Ok None.
Proof.
  apply (proj1 (proj2
           (reads_do_not_extend_life Demo.late ["a"; "a"; "a"] "a" 0%nat
              Demo.stale eq_refl ltac:(vm_compute; reflexivity)))).
Defined.

Lemma get_or_create_once_witness :
  let first :=
    SessionStore.get_or_create
      (H:=InMemorySessionStore.session_store Demo.standing)
      Demo.standing "s1" Demo.started in
  fst first = Ok 0%nat
  /\ fst (SessionStore.get_or_create
            (H:=InMemorySessionStore.session_store Demo.standing)
            Demo.standing "s1" (snd first)) = Ok 0%nat.
Proof.
  destruct (get_or_create_once Demo.standing "s1" Demo.started eq_refl
              ltac:(vm_compute; discriminate) ltac:(vm_compute; discriminate))
    as (H1 & H2 & _).
  split; assumption.
Defined.

(** ** Tool configuration, adapter and manager *)

Lemma find_handler_first p hs :
  match ToolsConfig.find_handler p hs with
  | Some h =>
      exists before after,
        hs = before ++ h :: after /\ p h = true
        /\ forall h', h' ∈ before -> p h' = false
  | None => forall h, h ∈ hs -> p h = false
  end.
Proof.
  induction hs as [|h0 hs IH]; simpl.
  - intros h Hin. apply elem_of_nil in Hin as [].
  - destruct (p h0) eqn:E.
    + exists [], hs. split; [reflexivity|]. split; [exact E|].
      intros h' Hin. apply elem_of_nil in Hin as [].
    + destruct (ToolsConfig.find_handler p hs) as [h|].
      * destruct IH as (before & after & -> & Hp & Hb).
        exists (h0 :: before), after. split; [reflexivity|]. split; [exact Hp|].
        intros h' Hin. apply elem_of_cons in Hin as [->|Hin]; auto.
      * intros h Hin. apply elem_of_cons in Hin as [->|Hin]; auto.
Qed.

(** X8.  [get_handler] returns the first handler of the configuration with
    the given name and [get_tool_handler] the first handler whose tool
    definition has the given name; each returns [None] exactly when no
    handler matches. *)
Theorem get_handler_first cfg name :
  match ToolsConfig.get_handler cfg name with
  | Some h =>
      exists before after,
        ToolsConfig.handlers cfg = before ++ h :: after
        /\ HandlerConfig.name h = name
        /\ forall h', h' ∈ before -> HandlerConfig.name h' <> name
  | None =>
      forall h, h ∈ ToolsConfig.handlers cfg -> HandlerConfig.name h <> name
  end
  /\ match ToolsConfig.get_tool_handler cfg name with
     | Some h =>
         exists before after td,
           ToolsConfig.handlers cfg = before ++ h :: after
           /\ HandlerConfig.tool h = Some td
           /\ ToolDefinition.name td = name
           /\ forall h' td', h' ∈ before -> HandlerConfig.tool h' = Some td' ->
                             ToolDefinition.name td' <> name
     | None =>
         forall h td, h ∈ ToolsConfig.handlers cfg ->
                      HandlerConfig.tool h = Some td ->
                      ToolDefinition.name td <> name
     end.
Proof.
  split.
  - unfold ToolsConfig.get_handler.
    pose proof (find_handler_first
                  (fun h => String.eqb (HandlerConfig.name h) name)
                  (ToolsConfig.handlers cfg)) as F.
    destruct (ToolsConfig.find_handler _ _) as [h|].
    + destruct F as (before & after & E & Hp & Hb).
      exists before, after. split; [exact E|].
      split; [apply String.eqb_eq, Hp|].
      intros h' Hin. apply String.eqb_neq, Hb, Hin.
    + intros h Hin. apply String.eqb_neq, F, Hin.
  - unfold ToolsConfig.get_tool_handler.
    pose proof (find_handler_first (ToolsConfig.declares_tool name)
                  (ToolsConfig.handlers cfg)) as F.
    destruct (ToolsConfig.find_handler _ _) as [h|].
    + destruct F as (before & after & E & Hp & Hb).
      unfold ToolsConfig.declares_tool in Hp.
      destruct (HandlerConfig.tool h) as [td|] eqn:Et; [|discriminate].
      exists before, after, td. split; [exact E|]. split; [reflexivity|].
      split; [apply String.eqb_eq, Hp|].
      intros h' td' Hin Et'. specialize (Hb h' Hin).
      unfold ToolsConfig.declares_tool in Hb. rewrite Et' in Hb.
      apply String.eqb_neq, Hb.
    + intros h td Hin Et. specialize (F h Hin).
      unfold ToolsConfig.declares_tool in F. rewrite Et in F.
      apply String.eqb_neq, F.
Qed.

Section StatusFacts.
Variable json_loads : string -> option json.
Variable reply : http_reply.

Lemma execute_always a args log :
  HTTPToolAdapter.execute (always reply) json_loads a args log
  = (fst (HTTPToolAdapter.execute (always reply) json_loads a args []),
     log ++ [HTTPToolAdapter.build_request a args]).
Proof.
  unfold HTTPToolAdapter.execute, HTTPToolAdapter.send, bind, always.
  destruct reply as [code text|code text msg|msg|msg|exc]; try reflexivity.
  - destruct ((200 <=? code) && (code <=? 299)); [|reflexivity].
    destruct (json_loads text); reflexivity.
  - destruct ((200 <=? code) && (code <=? 299)); reflexivity.
Qed.

Lemma always_fails a args m t :
  fst (HTTPToolAdapter.execute (always reply) json_loads a args [])
  = Raise (ToolAdapterError m t true) ->
  forall n log,
    attempts_fail (always reply) json_loads a args n log
      (log ++ replicate n (HTTPToolAdapter.build_request a args)).
Proof.
  intros E n. induction n as [|n IH]; intros log.
  - simpl. rewrite app_nil_r. constructor.
  - apply (attempts_fail_S _ _ _ _ n log
             (log ++ [HTTPToolAdapter.build_request a args]) _ m t).
    + rewrite execute_always, E. reflexivity.
    + replace (log ++ replicate (S n) (HTTPToolAdapter.build_request a args))
        with ((log ++ [HTTPToolAdapter.build_request a args])
              ++ replicate n (HTTPToolAdapter.build_request a args))
        by (rewrite <- app_assoc; reflexivity).
      apply IH.
Qed.
End StatusFacts.

(** X11.  When the network gives the same reply to every request, the tool
    manager's [execute] returns what a single call of the adapter returns,
    and sends the request once, unless that outcome is a retryable error:
    then it sends it [max_retries + 1] times. *)
Theorem execute_same_reply json_loads tm tool a args N reply log :
  let req := HTTPToolAdapter.build_request a args in
  let outcome :=
    fst (HTTPToolAdapter.execute (always reply) json_loads a args log) in
  ToolManager._adapters tm !! tool = Some a ->
  ToolManager.max_retries tm tool = N ->
  0 <= N ->
  ToolManager.execute (always reply) json_loads tm tool args log
  = (outcome,
     log ++ replicate
              match outcome with
              | Raise (ToolAdapterError _ _ true) => S (Z.to_nat N)
              | _ => 1%nat
              end req).
Proof.
  intros req outcome Ha HN Hpos.
  unfold ToolManager.execute. rewrite Ha, HN.
  assert (Eo : outcome
               = fst (HTTPToolAdapter.execute (always reply) json_loads a
                        args [])).
  { unfold outcome. rewrite execute_always. reflexivity. }
  destruct outcome as [r|[m t [|]|cls m]] eqn:Eout.
  - rewrite seqZ_cons by lia.
    apply attempt_loop_success. rewrite execute_always, <- Eo. reflexivity.
  - destruct (attempt_loop_skips (always reply) json_loads a tool args N
                (Z.to_nat N) log
                (log ++ replicate (Z.to_nat N) req)
                (always_fails json_loads reply a args m t (eq_sym Eo) _ _)
                0 None ltac:(lia) ltac:(lia)) as [last' E].
    replace (N + 1 - 0) with (N + 1) in E by lia. rewrite E.
    replace (0 + Z.of_nat (Z.to_nat N)) with N by lia.
    replace (N + 1 - 0 - Z.of_nat (Z.to_nat N)) with 1 by lia.
    rewrite seqZ_cons by lia.
    rewrite (attempt_loop_final (always reply) json_loads a tool args N N _
               last' _ m t true
               ((log ++ replicate (Z.to_nat N) req) ++ [req])).
    + f_equal. rewrite <- app_assoc. f_equal.
      change [req] with (replicate 1 req). rewrite <- replicate_add.
      f_equal. lia.
    + rewrite execute_always, <- Eo. reflexivity.
    + right. lia.
  - rewrite seqZ_cons by lia.
    apply attempt_loop_final; [|left; reflexivity].
    rewrite execute_always, <- Eo. reflexivity.
  - rewrite seqZ_cons by lia. simpl. unfold try_except.
    rewrite execute_always, <- Eo. reflexivity.
Qed.

(** X12.  A tool manager that was not initialised, or that was closed,
    has no adapters: [execute] raises the non-retryable "No adapter found
    for tool" error without sending a request.  The handler as its
    constructor builds it is in that state: a call of one of its prompt's
    tools comes back to the engine as an error in JSON text -- "No adapter
    found" from a thread with an event loop, the missing event loop from a
    thread without one -- and sends nothing either way. *)
Theorem no_adapter_no_request network json_loads cfg tm tool args log :
  let missing :=
    ToolAdapterError ("No adapter found for tool: " +:+ tool) tool false in
  ToolManager.execute network json_loads (ToolManager.new cfg) tool args log
  = (Raise missing, log)
  /\ ToolManager.execute network json_loads (ToolManager.close tm) tool args
       log
     = (Raise missing, log)
  /\ forall (St : Type) (H : SessionStore.t St) json_dumps prompt_name pack c
            caller (e : Env St) out,
       tool ∈ get_tools_for_prompt pack prompt_name ->
       LangChainHandler.call_tool network json_loads json_dumps
         (LangChainHandler.init prompt_name pack (Some c)) caller tool args
         (e, out)
       = (Ok (Some (json_dumps
                      (JObj [("error",
                              JStr match caller with
                                   | asyncio.no_loop thread_name =>
                                       "There is no current event loop in thread "
                                       +:+ repr_str thread_name +:+ "."
                                   | _ => exn_str missing
                                   end);
                             ("tool", JStr tool)]))),
          (e, out)).
Proof.
  intros missing.
  assert (E : forall c, ToolManager.execute network json_loads
                          (ToolManager.mk c ∅) tool args log
                        = (Raise missing, log)).
  { intros c. unfold ToolManager.execute. cbn [ToolManager._adapters].
    rewrite lookup_empty. reflexivity. }
  split; [apply E|]. split; [apply E|].
  intros St H json_dumps prompt_name pack c caller e out Hin.
  unfold LangChainHandler.call_tool, LangChainHandler.init,
    LangChainHandler.tools.
  cbn [LangChainHandler.tool_manager LangChainHandler.pack
         LangChainHandler.prompt_name].
  rewrite bool_decide_eq_true_2 by exact Hin.
  unfold LangChainHandler.lift, ToolManager._create_tool_handler,
    ToolManager.run_tool, bind.
  unfold ToolManager.new, ToolManager.execute. cbn [ToolManager._adapters].
  rewrite lookup_empty. unfold raise.
  destruct caller, e; reflexivity.
Qed.

(** X13.  When the retry count configured for a tool is negative, [execute]
    never calls the adapter: it raises the non-retryable [ToolAdapterError]
    "Unknown error" and sends no request. *)
Theorem negative_budget network json_loads tm tool a args log :
  ToolManager._adapters tm !! tool = Some a ->
  ToolManager.max_retries tm tool < 0 ->
  ToolManager.execute network json_loads tm tool args log
  = (Raise (ToolAdapterError "Unknown error" tool false), log).
Proof.
  intros Ha HN. unfold ToolManager.execute. rewrite Ha.
  unfold seqZ. replace (Z.to_nat (ToolManager.max_retries tm tool + 1)) with O
    by lia.
  reflexivity.
Qed.

Lemma parse_timeout_state (S : Type) t (s : S) :
  HTTPToolAdapter._parse_timeout t s
  = (fst (HTTPToolAdapter._parse_timeout t tt), s).
Proof.
  unfold HTTPToolAdapter._parse_timeout, try_except, bind, py_float.
  repeat match goal with
         | |- context [if ?b then _ else _] => destruct b
         end;
    destruct (PyFloat.float_of_str _); reflexivity.
Qed.

Lemma init_built (S : Type) h (s : S) :
  HTTPToolAdapter.init h s = (built h, s).
Proof.
  unfold built, HTTPToolAdapter.init.
  destruct (HandlerConfig.http_config h) as [c|]; unfold bind;
    rewrite (parse_timeout_state S), (parse_timeout_state unit _ tt);
    destruct (fst (HTTPToolAdapter._parse_timeout _ tt)); reflexivity.
Qed.

Lemma built_handler h a : built h = Ok a -> HTTPToolAdapter.handler a = h.
Proof.
  unfold built. intros E.
  destruct (HTTPToolAdapter.init h tt) as [r s] eqn:Ei. simpl in E. subst r.
  apply init_handler in Ei as [-> _]. reflexivity.
Qed.

Lemma register_all_step h rest m0 :
  ToolManager.register_all (h :: rest) m0
  = if String.eqb (HandlerConfig.type h) "http" then
      match built h with
      | Ok a => ToolManager.register_all rest (<[registers_as h := a]> m0)
      | Raise e => (Raise e, m0)
      end
    else ToolManager.register_all rest m0.
Proof.
  cbn [ToolManager.register_all]. unfold bind, ToolManager._create_adapter.
  destruct (String.eqb (HandlerConfig.type h) "http"); [|reflexivity].
  unfold bind. rewrite init_built.
  destruct (built h) as [a|e] eqn:Eb; [|reflexivity].
  unfold ret, modify. rewrite tool_name_registers_as, (built_handler h a Eb).
  reflexivity.
Qed.

Lemma register_all_lookup hs : forall m0 m n,
  ToolManager.register_all hs m0 = (Ok tt, m) ->
  match m !! n with
  | Some a =>
      (m0 !! n = Some a
       /\ forall h, h ∈ hs -> HandlerConfig.type h = "http" ->
                    registers_as h <> n)
      \/ (exists before after,
             hs = before ++ HTTPToolAdapter.handler a :: after
             /\ HandlerConfig.type (HTTPToolAdapter.handler a) = "http"
             /\ registers_as (HTTPToolAdapter.handler a) = n
             /\ built (HTTPToolAdapter.handler a) = Ok a
             /\ forall h, h ∈ after -> HandlerConfig.type h = "http" ->
                          registers_as h <> n)
  | None =>
      m0 !! n = None
      /\ forall h, h ∈ hs -> HandlerConfig.type h = "http" ->
                   registers_as h <> n
  end.
Proof.
  induction hs as [|h hs IH]; intros m0 m n E.
  - inversion E; subst.
    destruct (m !! n); [left|]; (split; [reflexivity|]);
      intros h Hin; apply elem_of_nil in Hin as [].
  - rewrite register_all_step in E.
    destruct (String.eqb_spec (HandlerConfig.type h) "http") as [Ht|Ht].
    + destruct (built h) as [a|e] eqn:Eb; [|discriminate].
      specialize (IH _ _ n E).
      destruct (m !! n) as [a'|].
      * destruct IH as [[Hm0 Hnone]|(before & after & -> & H1 & H2 & H3 & H4)].
        -- destruct (decide (registers_as h = n)) as [Hn|Hn].
           ++ subst n. rewrite lookup_insert_eq in Hm0. inversion Hm0; subst a'.
              right. exists [], hs. rewrite (built_handler h a Eb).
              repeat split; assumption.
           ++ rewrite lookup_insert_ne in Hm0 by exact Hn.
              left. split; [exact Hm0|].
              intros h' Hin. apply elem_of_cons in Hin as [->|Hin]; auto.
        -- right. exists (h :: before), after. repeat split; assumption.
      * destruct IH as [Hm0 Hnone].
        destruct (decide (registers_as h = n)) as [Hn|Hn].
        -- subst n. rewrite lookup_insert_eq in Hm0. discriminate.
        -- rewrite lookup_insert_ne in Hm0 by exact Hn.
           split; [exact Hm0|].
           intros h' Hin. apply elem_of_cons in Hin as [->|Hin]; auto.
    + specialize (IH _ _ n E).
      destruct (m !! n) as [a'|].
      * destruct IH as [[Hm0 Hnone]|(before & after & -> & H1 & H2 & H3 & H4)].
        -- left. split; [exact Hm0|].
           intros h' Hin. apply elem_of_cons in Hin as [->|Hin]; auto.
        -- right. exists (h :: before), after. repeat split; assumption.
      * destruct IH as [Hm0 Hnone]. split; [exact Hm0|].
        intros h' Hin. apply elem_of_cons in Hin as [->|Hin]; auto.
Qed.

(** X14.  After a successful [initialize], the adapter registered under a
    name is the one built from the last [http] handler of the configuration
    that registers under that name (its tool's name, or its own name when
    it has no tool definition); a name under which no [http] handler
    registers has no adapter. *)
Theorem initialize_registry cfg tm n :
  ToolManager.initialize (ToolManager.new (Some cfg)) = (Ok tt, tm) ->
  match ToolManager._adapters tm !! n with
  | Some a =>
      exists before after,
        ToolsConfig.handlers cfg
        = before ++ HTTPToolAdapter.handler a :: after
        /\ HandlerConfig.type (HTTPToolAdapter.handler a) = "http"
        /\ registers_as (HTTPToolAdapter.handler a) = n
        /\ built (HTTPToolAdapter.handler a) = Ok a
        /\ forall h, h ∈ after -> HandlerConfig.type h = "http" ->
                     registers_as h <> n
  | None =>
      forall h, h ∈ ToolsConfig.handlers cfg ->
                HandlerConfig.type h = "http" -> registers_as h <> n
  end.
Proof.
  intros E. apply initialize_config in E as [_ E].
  pose proof (register_all_lookup _ _ _ n E) as L.
  destruct (ToolManager._adapters tm !! n) as [a|].
  - destruct L as [[Hm0 _]|L]; [rewrite lookup_empty in Hm0; discriminate|].
    exact L.
  - apply L.
Qed.

Lemma declares_tool_registers_as t h :
  ToolsConfig.declares_tool t h = true -> registers_as h = t.
Proof.
  unfold ToolsConfig.declares_tool, registers_as.
  destruct (HandlerConfig.tool h); [|discriminate]. apply String.eqb_eq.
Qed.

(** X15.  When the first and the last handler of a
    configuration both declare the same tool, the adapter that serves the
    tool is the last handler's, while the retry count used for the tool is
    the first handler's. *)
Theorem duplicate_tool_last_adapter_first_budget cfg tm t first middle last :
  ToolsConfig.handlers cfg = first :: middle ++ [last] ->
  ToolManager.initialize (ToolManager.new (Some cfg)) = (Ok tt, tm) ->
  ToolsConfig.declares_tool t first = true ->
  ToolsConfig.declares_tool t last = true ->
  HandlerConfig.type last = "http" ->
  (exists a,
      ToolManager._adapters tm !! t = Some a
      /\ HTTPToolAdapter.handler a = last)
  /\ ToolManager.max_retries tm t = HandlerConfig.retries first.
Proof.
  intros Hh Hinit Hfirst Hlast Htype.
  apply initialize_config in Hinit as [Hcfg Hreg].
  split.
  - rewrite Hh in Hreg.
    destruct (register_all_registers (first :: middle) last [] _ _ Hreg Htype)
      as (a & Ha & _ & Hlast').
    rewrite (declares_tool_registers_as _ _ Hlast) in Ha.
    exists a. split; [exact Ha|]. apply Hlast'.
    intros h' Hin. apply elem_of_nil in Hin as [].
  - unfold ToolManager.max_retries. rewrite Hcfg.
    unfold ToolsConfig.get_tool_handler. rewrite Hh. simpl.
    rewrite Hfirst. reflexivity.
Qed.

Lemma register_all_app xs ys m0 :
  ToolManager.register_all (xs ++ ys) m0
  = match ToolManager.register_all xs m0 with
    | (Ok _, m1) => ToolManager.register_all ys m1
    | (Raise e, m1) => (Raise e, m1)
    end.
Proof.
  revert m0. induction xs as [|h xs IH]; intros m0; [reflexivity|].
  rewrite <- app_comm_cons, !register_all_step.
  destruct (String.eqb (HandlerConfig.type h) "http"); [|apply IH].
  destruct (built h); [apply IH|reflexivity].
Qed.

(** X16.  [initialize] stops at the first [http] handler
    whose timeout string makes [_parse_timeout] raise: the exception
    reaches the caller, the adapters of the handlers before it stay
    registered and the handlers after it are not looked at. *)
Theorem initialize_stops_at_first_failure cfg before h after adapters exc :
  ToolsConfig.handlers cfg = before ++ h :: after ->
  ToolManager.register_all before ∅ = (Ok tt, adapters) ->
  HandlerConfig.type h = "http" ->
  fst (HTTPToolAdapter._parse_timeout (HandlerConfig.timeout h) tt)
  = Raise exc ->
  ToolManager.initialize (ToolManager.new (Some cfg))
  = (Raise exc, ToolManager.mk (Some cfg) adapters).
Proof.
  intros Hh Hbefore Htype Htimeout.
  unfold ToolManager.initialize, ToolManager.new.
  cbn [ToolManager.tools_config ToolManager._adapters].
  rewrite Hh, register_all_app, Hbefore, register_all_step, Htype.
  cbn [String.eqb Ascii.eqb Bool.eqb].
  assert (Eb : built h = Raise exc).
  { unfold built, HTTPToolAdapter.init.
    destruct (HandlerConfig.http_config h); unfold bind;
      rewrite (parse_timeout_state unit _ tt), Htimeout; reflexivity. }
  rewrite Eb. reflexivity.
Qed.

Lemma execute_same_reply_witness :
  ToolManager.execute (always (Response 503 "unavailable")) Demo.no_json
    Demo.weather_manager "get_weather" (JObj []) []
  = (Raise (ToolAdapterError "HTTP error 503: unavailable" "get_weather"
              true),
     replicate 3 Demo.weather_request).
Proof.
  apply (execute_same_reply Demo.no_json Demo.weather_manager "get_weather"
           Demo.weather_adapter (JObj []) 2 (Response 503 "unavailable") []
           ltac:(vm_compute; reflexivity) ltac:(vm_compute; reflexivity)
           ltac:(lia)).
Defined.

Lemma negative_budget_witness :
  ToolManager.execute (always (Response 200 "ok")) Demo.no_json
    Demo.never_manager "never" (JObj []) []
  = (Raise (ToolAdapterError "Unknown error" "never" false), []).
Proof.
  destruct (ToolManager._adapters Demo.never_manager !! "never") as [a|]
    eqn:Ha; [|vm_compute in Ha; discriminate].
  apply (negative_budget (always (Response 200 "ok")) Demo.no_json
           Demo.never_manager "never" a (JObj []) [] Ha
           ltac:(vm_compute; reflexivity)).
Defined.

Lemma initialize_registry_witness :
  exists a,
    ToolManager._adapters Demo.shadowed_manager !! "lookup" = Some a
    /\ registers_as (HTTPToolAdapter.handler a) = "lookup"
    /\ built (HTTPToolAdapter.handler a) = Ok a.
Proof.
  pose proof (initialize_registry Demo.shadowed Demo.shadowed_manager
                "lookup" ltac:(vm_compute; reflexivity)) as R.
  destruct (ToolManager._adapters Demo.shadowed_manager !! "lookup")
    as [a|] eqn:E; [|vm_compute in E; discriminate].
  destruct R as (before & after & _ & _ & Hname & Hbuilt & _).
  exists a. split; [reflexivity|]. split; assumption.
Defined.

Lemma duplicate_tool_last_adapter_first_budget_witness :
  let tm := snd (ToolManager.initialize
                   (ToolManager.new (Some Demo.mirrored))) in
  (exists a, ToolManager._adapters tm !! "lookup" = Some a
             /\ HTTPToolAdapter.handler a = Demo.mirror)
  /\ ToolManager.max_retries tm "lookup" = 3.
Proof.
  apply (duplicate_tool_last_adapter_first_budget Demo.mirrored _ "lookup"
           Demo.search [] Demo.mirror eq_refl
           ltac:(vm_compute; reflexivity) eq_refl eq_refl eq_refl).
Defined.

Lemma initialize_stops_at_first_failure_witness :
  exists adapters,
    ToolManager.initialize (ToolManager.new (Some Demo.mistimed))
    = (Raise (PyException "ValueError"
                "could not convert string to float: '500m'"),
       ToolManager.mk (Some Demo.mistimed) adapters)
    /\ adapters !! "get_weather" = Some Demo.weather_adapter
    /\ adapters !! "lookup" = None.
Proof.
  exists (ToolManager._adapters Demo.weather_manager).
  split; [|split; vm_compute; reflexivity].
  apply (initialize_stops_at_first_failure Demo.mistimed [Demo.weather]
           Demo.hasty [Demo.lookup]
           (ToolManager._adapters Demo.weather_manager)
           (PyException "ValueError"
              "could not convert string to float: '500m'")
           eq_refl ltac:(vm_compute; reflexivity) eq_refl
           ltac:(vm_compute; reflexivity)).
Defined.

(** ** The stream of a turn *)

Lemma append_assoc (a b c : string) : (a +:+ b) +:+ c = a +:+ (b +:+ c).
Proof.
  induction a as [|x a IH]; [reflexivity|].
  change (String x ((a +:+ b) +:+ c) = String x (a +:+ b +:+ c)).
  rewrite IH. reflexivity.
Qed.

Lemma append_nil_r (a : string) : a +:+ "" = a.
Proof.
  induction a as [|x a IH]; [reflexivity|].
  change (String x (a +:+ "") = String x a). rewrite IH. reflexivity.
Qed.

Lemma chunk_text_app ys zs : chunk_text (ys ++ zs) = chunk_text ys +:+ chunk_text zs.
Proof.
  induction ys as [|m ys IH]; [reflexivity|].
  destruct m; simpl; rewrite ?IH, ?append_assoc; reflexivity.
Qed.

Section ConsumeFacts.
Context {St : Type} `{SessionStore.t St}.
Variable clock : nat -> datetime.t.
Variable network : Net -> request -> http_reply.
Variable json_loads : string -> option json.
Variable json_dumps : json -> string.
Variable engine : list string -> list message -> json -> stream.

Local Abbreviation consume :=
  (LangChainHandler.consume (St:=St) network json_loads json_dumps).

Lemma call_tool_env self caller name kwargs (e : Env St) out :
  exists r log',
    LangChainHandler.call_tool network json_loads json_dumps self caller name
      kwargs (e, out)
    = (Ok r, (mkEnv (heap e) (ticks e) (store e) log', out)).
Proof.
  unfold LangChainHandler.call_tool.
  destruct (LangChainHandler.tool_manager self) as [tm|].
  - destruct (bool_decide _).
    + unfold LangChainHandler.lift.
      destruct (ToolManager._create_tool_handler _ _ _ _ _ _ _ _) as [r log'].
      eexists _, _. reflexivity.
    + exists None, (net e). destruct e; reflexivity.
  - exists None, (net e). destruct e; reflexivity.
Qed.

(** What one run of the event loop does: it touches nothing of the
    environment but the network log, yields only [streamed] messages, and
    when it returns, the text it returns is the text it started with
    followed by the text of the chunks it yielded. *)
Lemma consume_run self events : forall final_content tin tout (e : Env St) out,
  exists ys log',
    snd (consume self events final_content tin tout (e, out))
    = (mkEnv (heap e) (ticks e) (store e) log', out ++ ys)
    /\ Forall streamed ys
    /\ forall fc tin' tout',
         fst (consume self events final_content tin tout (e, out))
         = Ok (fc, tin', tout') ->
         fc = final_content +:+ chunk_text ys.
Proof.
  assert (Hnil : forall final_content (e : Env St) out
                   (r : result (string * Z * Z)),
             (forall fc tin' tout', r = Ok (fc, tin', tout') ->
                                    fc = final_content) ->
             exists ys log',
               (e, out) = (mkEnv (heap e) (ticks e) (store e) log', out ++ ys)
               /\ Forall streamed ys
               /\ forall fc tin' tout',
                    r = Ok (fc, tin', tout') ->
                    fc = final_content +:+ chunk_text ys).
  { intros fc0 e out r Hr. exists [], (net e).
    split; [destruct e; rewrite app_nil_r; reflexivity|].
    split; [constructor|].
    intros fc tin' tout' E. rewrite (Hr _ _ _ E). simpl.
    symmetry. apply append_nil_r. }
  assert (Hyield : forall msg rest final_content fc1 tin1 tout1
                     (e : Env St) out,
             streamed msg ->
             fc1 = final_content +:+ chunk_text [msg] ->
             (forall fc tin tout (e : Env St) out,
               exists ys log',
                 snd (consume self rest fc tin tout (e, out))
                 = (mkEnv (heap e) (ticks e) (store e) log', out ++ ys)
                 /\ Forall streamed ys
                 /\ forall fc' tin' tout',
                      fst (consume self rest fc tin tout (e, out))
                      = Ok (fc', tin', tout') ->
                      fc' = fc +:+ chunk_text ys) ->
             exists ys log',
               snd (bind (LangChainHandler.yield msg)
                      (fun _ => consume self rest fc1 tin1 tout1) (e, out))
               = (mkEnv (heap e) (ticks e) (store e) log', out ++ ys)
               /\ Forall streamed ys
               /\ forall fc' tin' tout',
                    fst (bind (LangChainHandler.yield msg)
                           (fun _ => consume self rest fc1 tin1 tout1)
                           (e, out))
                    = Ok (fc', tin', tout') ->
                    fc' = final_content +:+ chunk_text ys).
  { intros msg rest fc0 fc1 tin1 tout1 e out Hs Hfc IH.
    unfold bind, LangChainHandler.yield, modify. cbn [fst snd].
    destruct (IH fc1 tin1 tout1 e (out ++ [msg])) as (ys & log' & E & Hys & Hfc').
    exists (msg :: ys), log'. split.
    - rewrite E, <- app_assoc. reflexivity.
    - split; [constructor; assumption|].
      intros fc' tin' tout' Efst. rewrite (Hfc' _ _ _ Efst), Hfc.
      change (msg :: ys) with ([msg] ++ ys).
      rewrite chunk_text_app, append_assoc. reflexivity. }
  induction events as [|ev rest IH|exc|caller name kwargs k IH];
    intros final_content tin tout e out; cbn [LangChainHandler.consume].
  - apply Hnil. intros fc tin' tout' E. inversion E. reflexivity.
  - destruct ev as [[c|]|run_id name input|run_id output|[u|]|t];
      try apply IH.
    + destruct (truthy c) eqn:Et; [|apply IH].
      destruct c; try (apply Hnil; intros; discriminate).
      apply (Hyield (runtime_pb2.chunk s)).
      * simpl. intros ->. discriminate.
      * simpl. rewrite append_nil_r. reflexivity.
      * exact IH.
    + unfold bind at 1. destruct input as [j|c].
      * cbn [LangChainHandler.dumps ret].
        apply (Hyield (runtime_pb2.tool_call run_id name (json_dumps j)));
          [exact I | simpl; symmetry; apply append_nil_r | exact IH].
      * cbn [LangChainHandler.dumps raise]. apply Hnil. intros; discriminate.
    + unfold bind at 1.
      assert (Hr : forall s,
                 exists ys log',
                   snd (bind (LangChainHandler.yield
                                (runtime_pb2.tool_result run_id s false))
                          (fun _ => consume self rest final_content tin tout)
                          (e, out))
                   = (mkEnv (heap e) (ticks e) (store e) log', out ++ ys)
                   /\ Forall streamed ys
                   /\ forall fc' tin' tout',
                        fst (bind (LangChainHandler.yield
                                     (runtime_pb2.tool_result run_id s false))
                               (fun _ => consume self rest final_content tin
                                           tout) (e, out))
                        = Ok (fc', tin', tout') ->
                        fc' = final_content +:+ chunk_text ys).
      { intros s. apply (Hyield (runtime_pb2.tool_result run_id s false));
          [exact I | simpl; symmetry; apply append_nil_r | exact IH]. }
      destruct output as [j|c].
      * destruct j; cbn [LangChainHandler.dumps ret]; apply Hr.
      * cbn [LangChainHandler.dumps raise]. apply Hnil. intros; discriminate.
  - apply Hnil. intros; discriminate.
  - destruct (call_tool_env self caller name kwargs e out) as (r & log' & Ec).
    unfold bind. rewrite Ec.
    destruct (IH r final_content tin tout
                (mkEnv (heap e) (ticks e) (store e) log') out)
      as (ys & log'' & E & Hys & Hfc).
    exists ys, log''. split; [exact E|]. split; [exact Hys|exact Hfc].
Qed.
End ConsumeFacts.

Section TurnShape.
Context {St : Type} `{SessionStore.t St}.
Variable clock : nat -> datetime.t.
Variable network : Net -> request -> http_reply.
Variable json_loads : string -> option json.
Variable json_dumps : json -> string.
Variable engine : list string -> list message -> json -> stream.

Lemma handle_message_shape self session_id content parts metadata (e : Env St) :
  exists ys last,
    fst (LangChainHandler.handle_message clock network json_loads json_dumps
           engine self session_id content parts metadata e)
    = ys ++ [last]
    /\ Forall streamed ys
    /\ ((exists tin tout,
            last = runtime_pb2.done (chunk_text ys)
                     (runtime_pb2.mkUsage tin tout 0%float))
        \/ exists msg, last = runtime_pb2.error "HANDLER_ERROR" msg).
Proof.
  rewrite handle_message_steps.
  destruct (SessionStore.get_or_create clock session_id e)
    as [[session|exc] e1].
  2:{ exists [], (runtime_pb2.error "HANDLER_ERROR" (exn_str exc)).
      split; [reflexivity|]. split; [constructor|]. right. eauto. }
  cbv zeta.
  destruct (bool_decide _).
  2:{ eexists [], _. split; [reflexivity|]. split; [constructor|].
      right. eauto. }
  match goal with
  | |- context [LangChainHandler.consume _ _ _ ?s ?ev ?fc ?ti ?to (?e2, [])] =>
      destruct (consume_run network json_loads json_dumps s ev fc ti to e2 [])
        as (ys & log' & Esnd & Hys & Hfc);
      destruct (LangChainHandler.consume _ _ _ s ev fc ti to (e2, []))
        as [[[[fc' tin] tout]|exc] [e3 out]]
  end; cbn [fst snd] in *; inversion Esnd; subst; cbn [app].
  - rewrite (Hfc _ _ _ eq_refl). cbn [String.append].
    destruct (SessionStore.save session _) as [[[]|exc] e5]; cbn [fst];
      eexists ys, _; (split; [reflexivity|]); (split; [exact Hys|]).
    + left. eauto.
    + right. eauto.
  - eexists ys, _. split; [reflexivity|]. split; [exact Hys|]. right. eauto.
Qed.
End TurnShape.

(** X17.  Whatever the engine does, when a turn ends in a [done] message
    its final content is the concatenation of the chunks streamed before
    it, its cost is zero, and everything before it is a non-empty chunk, a
    tool call or a tool result; when a turn ends in an error, the code is
    [HANDLER_ERROR] and the same holds of what precedes it. *)
Theorem done_carries_streamed_text (St : Type) (S : SessionStore.t St)
    clock network json_loads json_dumps engine
    self session_id content parts metadata (e : Env St) :
  let responses :=
    fst (LangChainHandler.handle_message clock network json_loads json_dumps
           engine self session_id content parts metadata e) in
  (forall body final_content usage,
      responses = body ++ [runtime_pb2.done final_content usage] ->
      final_content = chunk_text body
      /\ Forall streamed body
      /\ runtime_pb2.cost_usd usage = 0%float)
  /\ (forall body code msg,
        responses = body ++ [runtime_pb2.error code msg] ->
        code = "HANDLER_ERROR" /\ Forall streamed body).
Proof.
  intros responses.
  destruct (handle_message_shape clock network json_loads json_dumps engine
              self session_id content parts metadata e)
    as (ys & last & E & Hys & Hlast).
  fold responses in E. split.
  - intros body fc usage E'. rewrite E in E'.
    apply app_inj_tail in E' as [-> ->].
    destruct Hlast as [(tin & tout & Hd)|(msg & Hd)]; [|discriminate].
    inversion Hd. repeat split. exact Hys.
  - intros body code msg E'. rewrite E in E'.
    apply app_inj_tail in E' as [-> ->].
    destruct Hlast as [(tin & tout & Hd)|(msg' & Hd)]; [discriminate|].
    inversion Hd. split; [reflexivity|exact Hys].
Qed.

Section TokenFacts.
Context {St : Type} `{SessionStore.t St}.
Variable network : Net -> request -> http_reply.
Variable json_loads : string -> option json.
Variable json_dumps : json -> string.

Local Abbreviation consume :=
  (LangChainHandler.consume (St:=St) network json_loads json_dumps).

End TokenFacts.


(** X19.  When the prompt of the handler is not in its pack, the health
    endpoint answers "not ready", and a turn yields a single
    [HANDLER_ERROR] message -- the prompt is not found or, when the store
    failed first, that failure -- and sends no request beyond what
    [get_or_create] did. *)
Theorem unhealthy_handler_never_streams (St : Type) (S : SessionStore.t St)
    clock network json_loads json_dumps engine
    self session_id content parts metadata (e : Env St) :
  LangChainHandler.health_check self = false ->
  RuntimeServicer.Health self
  = runtime_pb2.mkHealthResponse false "not ready"
  /\ fst (LangChainHandler.handle_message clock network json_loads json_dumps
            engine self session_id content parts metadata e)
     = [runtime_pb2.error "HANDLER_ERROR"
          match SessionStore.get_or_create clock session_id e with
          | (Ok _, _) =>
              "Prompt '" +:+ LangChainHandler.prompt_name self
              +:+ "' not found in pack"
          | (Raise exc, _) => exn_str exc
          end]
  /\ net (snd (LangChainHandler.handle_message clock network json_loads
                 json_dumps engine self session_id content parts metadata e))
     = net (snd (SessionStore.get_or_create clock session_id e)).
Proof.
  intros Hh. split.
  { unfold RuntimeServicer.Health. rewrite Hh. reflexivity. }
  unfold LangChainHandler.health_check in Hh.
  rewrite handle_message_steps.
  destruct (SessionStore.get_or_create clock session_id e)
    as [[session|exc] e1]; [|split; reflexivity].
  cbv zeta. rewrite Hh. split; reflexivity.
Qed.

(** ** The stored history of a turn *)

Lemma deref_alter_ne f l l' h : l' <> l -> deref (alter f l h) l' = deref h l'.
Proof.
  intros Hne. unfold deref. rewrite list_lookup_alter_ne by congruence.
  reflexivity.
Qed.

Section InProcessAppend.
Variable clock : nat -> datetime.t.
Variable network : Net -> request -> http_reply.
Variable json_loads : string -> option json.
Variable json_dumps : json -> string.
Variable engine : list string -> list message -> json -> stream.

Lemma turn_appends_from self session_id content parts metadata l
    (e e1 : Env InMemorySessionStore.t) :
  let user := LangChainHandler._build_user_message content parts in
  let run :=
    LangChainHandler.handle_message
      (H:=InMemorySessionStore.session_store clock)
      clock network json_loads json_dumps engine
      self session_id content parts metadata e in
  let before := deref (heap e1) l in
  SessionStore.get_or_create (H:=InMemorySessionStore.session_store clock)
    clock session_id e = (Ok l, e1) ->
  (l < length (heap e1))%nat ->
  Session.session_id before = session_id ->
  assoc session_id (InMemorySessionStore._sessions (store e1)) = Some l ->
  1 <= InMemorySessionStore.max_sessions (store e1) ->
  LangChainHandler.prompt_name self ∈ prompts (LangChainHandler.pack self) ->
  exists reply after,
    stored_session (snd run) session_id = Some after
    /\ Session.messages after = Session.messages before ++ [user] ++ reply
    /\ Session.session_id after = session_id
    /\ Session.metadata after = Session.metadata before
    /\ Session.created_at after = Session.created_at before
    /\ ((exists body final_content usage,
            fst run = body ++ [runtime_pb2.done final_content usage]
            /\ reply = reply_for final_content)
        \/ (exists body msg,
               fst run = body ++ [runtime_pb2.error "HANDLER_ERROR" msg]
               /\ reply = []))
    /\ forall l', l' <> l -> deref (heap (snd run)) l' = deref (heap e1) l'.
Proof.
  intros user run before Hgoc Hl Hid Hstored HC Hprompt.
  unfold run. rewrite handle_message_steps, Hgoc. cbv zeta.
  rewrite bool_decide_eq_true_2 by exact Hprompt.
  rewrite add_message_spec. cbn [snd heap].
  fold user.
  set (e2 := mkEnv _ _ _ _).
  match goal with
  | |- context [LangChainHandler.consume _ _ _ ?s ?ev ?fc ?ti ?to (e2, [])] =>
      destruct (consume_run network json_loads json_dumps s ev fc ti to e2 [])
        as (ys & log' & Esnd & _ & _);
      destruct (LangChainHandler.consume _ _ _ s ev fc ti to (e2, []))
        as [[[[fc' tin] tout]|exc] [e3 out]]
  end; cbn [fst snd] in *; inversion Esnd; subst e3 out; clear Esnd;
    cbn [app heap ticks store net e2].
  - (* the engine finished *)
    exists (reply_for fc').
    unfold reply_for. destruct (String.eqb fc' "") eqn:Efc; cbn [negb].
    + cbn [SessionStore.save InMemorySessionStore.session_store].
      rewrite save_spec. cbn [heap ticks store net e2].
      destruct (Z.leb_spec 1 (InMemorySessionStore.max_sessions (store e1)));
        [|lia].
      rewrite !deref_alter_eq by (rewrite ?length_alter; exact Hl).
      cbn [Session.session_id Session.set_updated_at Session.append].
      fold before. rewrite Hid.
      eexists. split.
      { unfold stored_session. cbn [snd store heap InMemorySessionStore._sessions].
        rewrite assoc_snoc_fresh. cbn [fmap option_fmap option_map].
        rewrite !deref_alter_eq by (rewrite ?length_alter; exact Hl).
        reflexivity. }
      cbn [Session.messages Session.session_id Session.metadata
             Session.created_at Session.set_updated_at Session.append].
      fold before. repeat split; try reflexivity; try assumption.
      * left. eexists _, _, _. split; [reflexivity|]. rewrite Efc. reflexivity.
      * intros l' Hne. cbn [snd heap]. rewrite !deref_alter_ne by exact Hne.
        reflexivity.
    + rewrite add_message_spec. cbn [snd heap ticks store net].
      cbn [SessionStore.save InMemorySessionStore.session_store].
      rewrite save_spec. cbn [heap ticks store net e2].
      destruct (Z.leb_spec 1 (InMemorySessionStore.max_sessions (store e1)));
        [|lia].
      rewrite !deref_alter_eq by (rewrite ?length_alter; exact Hl).
      cbn [Session.session_id Session.set_updated_at Session.append].
      fold before. rewrite Hid.
      eexists. split.
      { unfold stored_session. cbn [snd store heap InMemorySessionStore._sessions].
        rewrite assoc_snoc_fresh. cbn [fmap option_fmap option_map].
        rewrite !deref_alter_eq by (rewrite ?length_alter; exact Hl).
        reflexivity. }
      cbn [Session.messages Session.session_id Session.metadata
             Session.created_at Session.set_updated_at Session.append].
      fold before. rewrite <- app_assoc.
      repeat split; try reflexivity; try assumption.
      * left. eexists _, _, _. split; [reflexivity|]. rewrite Efc. reflexivity.
      * intros l' Hne. cbn [snd heap]. rewrite !deref_alter_ne by exact Hne.
        reflexivity.
  - (* the engine raised *)
    exists []. eexists. split.
    { unfold stored_session. cbn [snd store heap]. rewrite Hstored.
      cbn [fmap option_fmap option_map].
      rewrite !deref_alter_eq by (rewrite ?length_alter; exact Hl).
      reflexivity. }
    cbn [Session.messages Session.session_id Session.metadata
           Session.created_at Session.set_updated_at Session.append].
    fold before.
    repeat split; try reflexivity; try assumption.
    + right. eexists _, _. split; reflexivity.
    + intros l' Hne. cbn [snd heap]. rewrite !deref_alter_ne by exact Hne.
      reflexivity.
Qed.
End InProcessAppend.

Lemma get_or_create_expired clock session_id l
    (e : Env InMemorySessionStore.t) :
  assoc session_id (InMemorySessionStore._sessions (store e)) = Some l ->
  datetime.sub (clock (ticks e)) (Session.updated_at (deref (heap e) l))
  > InMemorySessionStore.ttl (store e) ->
  SessionStore.get_or_create (H:=InMemorySessionStore.session_store clock)
    clock session_id e
  = SessionStore.get_or_create (H:=InMemorySessionStore.session_store clock)
      clock session_id
      (mkEnv (heap e) (S (ticks e))
         (InMemorySessionStore.mk (InMemorySessionStore.ttl (store e))
            (InMemorySessionStore.max_sessions (store e))
            (InMemorySessionStore.remove session_id
               (InMemorySessionStore._sessions (store e))))
         (net e)).
Proof.
  intros Hl Hold. unfold SessionStore.get_or_create, bind.
  cbn [SessionStore.get InMemorySessionStore.session_store].
  rewrite !get_spec.
  cbn [store InMemorySessionStore._sessions heap ticks].
  rewrite Hl, assoc_remove_eq. cbv zeta.
  destruct (Z.gtb_spec (datetime.sub (clock (ticks e))
                          (Session.updated_at (deref (heap e) l)))
              (InMemorySessionStore.ttl (store e))); [|lia].
  reflexivity.
Qed.

Lemma deref_app_l h s l : (l < length h)%nat -> deref (h ++ [s]) l = deref h l.
Proof.
  intros Hl. unfold deref. rewrite lookup_app_l by exact Hl. reflexivity.
Qed.

(** X20.  With the in-process store, a turn leaves the session stored with
    the history it had (none if it was missing or expired) followed by the
    user message and, when the turn ended in [done] with non-empty text,
    the assistant message carrying that text; when the turn ended in an
    error, the user message is there without a reply.  No other session
    changes. *)
Theorem turn_appends_to_history clock network json_loads json_dumps engine
    self session_id content parts metadata (e : Env InMemorySessionStore.t) :
  let user := LangChainHandler._build_user_message content parts in
  let run :=
    LangChainHandler.handle_message
      (H:=InMemorySessionStore.session_store clock)
      clock network json_loads json_dumps engine
      self session_id content parts metadata e in
  LangChainHandler.prompt_name self ∈ prompts (LangChainHandler.pack self) ->
  1 <= InMemorySessionStore.max_sessions (store e) ->
  (forall l,
      assoc session_id (InMemorySessionStore._sessions (store e)) = Some l ->
      (l < length (heap e))%nat
      /\ Session.session_id (deref (heap e) l) = session_id) ->
  exists reply after,
    stored_session (snd run) session_id = Some after
    /\ Session.session_id after = session_id
    /\ Session.messages after
       = live_history clock e session_id ++ [user] ++ reply
    /\ ((exists body final_content usage,
            fst run = body ++ [runtime_pb2.done final_content usage]
            /\ reply = reply_for final_content)
        \/ (exists body msg,
               fst run = body ++ [runtime_pb2.error "HANDLER_ERROR" msg]
               /\ reply = []))
    /\ forall l', (l' < length (heap e))%nat ->
                  live_session clock e session_id <> Some l' ->
                  deref (heap (snd run)) l' = deref (heap e) l'.
Proof.
  intros user run Hprompt HC Hok.
  assert (Hnew : forall e0 : Env InMemorySessionStore.t,
             heap e0 = heap e ->
             InMemorySessionStore.max_sessions (store e0)
             = InMemorySessionStore.max_sessions (store e) ->
             assoc session_id (InMemorySessionStore._sessions (store e0))
             = None ->
             SessionStore.get_or_create
               (H:=InMemorySessionStore.session_store clock) clock session_id e
             = SessionStore.get_or_create
                 (H:=InMemorySessionStore.session_store clock) clock
                 session_id e0 ->
             live_session clock e session_id = None ->
             exists reply after,
               stored_session (snd run) session_id = Some after
               /\ Session.session_id after = session_id
               /\ Session.messages after
                  = live_history clock e session_id ++ [user] ++ reply
               /\ ((exists body final_content usage,
                       fst run = body ++ [runtime_pb2.done final_content usage]
                       /\ reply = reply_for final_content)
                   \/ (exists body msg,
                          fst run
                          = body ++ [runtime_pb2.error "HANDLER_ERROR" msg]
                          /\ reply = []))
               /\ forall l', (l' < length (heap e))%nat ->
                             live_session clock e session_id <> Some l' ->
                             deref (heap (snd run)) l' = deref (heap e) l').
  { intros e0 Hheap Hcap Habs Hsame Hlive.
    assert (HC0 : 1 <= InMemorySessionStore.max_sessions (store e0))
      by (rewrite Hcap; exact HC).
    pose proof (get_or_create_new clock session_id e0 Habs HC0) as Hgoc.
    rewrite <- Hsame in Hgoc.
    destruct (turn_appends_from clock network json_loads json_dumps engine
                self session_id content parts metadata _ e _ Hgoc)
      as (reply & after & Hst & Hmsgs & Hid & _ & _ & Hend & Hothers).
    - cbn [heap]. rewrite length_app. simpl. lia.
    - cbn [heap]. rewrite deref_last. reflexivity.
    - unfold saved. cbn [store InMemorySessionStore._sessions].
      apply assoc_snoc_fresh.
    - exact HC0.
    - exact Hprompt.
    - exists reply, after. split; [exact Hst|]. split; [exact Hid|].
      split.
      { rewrite Hmsgs. cbn [heap]. rewrite deref_last.
        unfold live_history. rewrite Hlive. reflexivity. }
      split; [exact Hend|].
      intros l' Hl' _. rewrite Hothers by (rewrite Hheap; lia). cbn [heap].
      rewrite Hheap. apply deref_app_l, Hl'. }
  destruct (assoc session_id (InMemorySessionStore._sessions (store e)))
    as [l|] eqn:Hstored.
  - destruct (Hok l eq_refl) as [Hl Hid].
    destruct (Z.gtb_spec (datetime.sub (clock (ticks e))
                            (Session.updated_at (deref (heap e) l)))
                (InMemorySessionStore.ttl (store e))) as [Hold|Hfresh].
    + eapply Hnew; [..|apply (get_or_create_expired clock session_id l e Hstored);
                       lia|].
      * reflexivity.
      * reflexivity.
      * apply assoc_remove_eq.
      * unfold live_session. rewrite Hstored.
        destruct (Z.gtb_spec (datetime.sub (clock (ticks e))
                                (Session.updated_at (deref (heap e) l)))
                    (InMemorySessionStore.ttl (store e))); [reflexivity|lia].
    + assert (Hlive : live_session clock e session_id = Some l).
      { unfold live_session. rewrite Hstored.
        destruct (Z.gtb_spec (datetime.sub (clock (ticks e))
                                (Session.updated_at (deref (heap e) l)))
                    (InMemorySessionStore.ttl (store e))); [lia|reflexivity]. }
      pose proof (get_or_create_found clock session_id l e Hstored Hfresh)
        as Hgoc.
      destruct (turn_appends_from clock network json_loads json_dumps engine
                  self session_id content parts metadata _ e _ Hgoc)
        as (reply & after & Hst & Hmsgs & Hid' & _ & _ & Hend & Hothers).
      * exact Hl.
      * exact Hid.
      * cbn [store InMemorySessionStore._sessions].
        apply assoc_moved_to_end.
      * exact HC.
      * exact Hprompt.
      * exists reply, after. split; [exact Hst|]. split; [exact Hid'|].
        split.
        { rewrite Hmsgs. unfold live_history. rewrite Hlive. reflexivity. }
        split; [exact Hend|].
        intros l' _ Hne. apply Hothers. congruence.
  - eapply Hnew; [reflexivity|reflexivity|exact Hstored|reflexivity|].
    unfold live_session. rewrite Hstored. reflexivity.
Qed.

(** ** The servicer and the user message *)

Lemma streamed_not_terminal m : streamed m -> is_terminal m = false.
Proof. destruct m; simpl; intros Hs; try reflexivity; contradiction. Qed.

Lemma filter_terminal_streamed ys :
  Forall streamed ys -> List.filter is_terminal ys = [].
Proof.
  induction 1 as [|m ys Hm _ IH]; [reflexivity|].
  simpl. rewrite (streamed_not_terminal m Hm). exact IH.
Qed.

(** X21.  [Converse] answers every request it receives with
    exactly one terminal message, [done] or [error], and adds one
    [INTERNAL_ERROR] when the request stream itself fails; so a non-empty
    response stream ends in a terminal message, and [INTERNAL_ERROR] occurs
    only for a failing request stream. *)
Theorem converse_one_terminal_per_request (St : Type) (S : SessionStore.t St)
    clock network json_loads json_dumps engine handler rs (e : Env St) :
  let responses :=
    fst (RuntimeServicer.Converse clock network json_loads json_dumps engine
           handler rs e) in
  length (List.filter is_terminal responses)
  = (received rs + if broken rs then 1 else 0)%nat
  /\ (responses = []
      \/ exists body last, responses = body ++ [last]
                           /\ is_terminal last = true)
  /\ (forall msg, runtime_pb2.error "INTERNAL_ERROR" msg ∈ responses ->
                  broken rs = true).
Proof.
  revert e. induction rs as [|client_msg rest IH|exc]; intros e.
  - simpl. split; [reflexivity|]. split; [left; reflexivity|].
    intros msg Hin. apply elem_of_nil in Hin as [].
  - cbn [RuntimeServicer.Converse].
    match goal with
    | |- context [LangChainHandler.handle_message ?c ?n ?jl ?jd ?en ?h ?sid
                    ?co ?pa ?md e] =>
        destruct (handle_message_shape c n jl jd en h sid co pa md e)
          as (ys & last & Eout & Hys & Hlast);
        destruct (LangChainHandler.handle_message c n jl jd en h sid co pa md
                    e) as [out e1]
    end.
    cbn [fst] in Eout. subst out.
    specialize (IH e1).
    destruct (RuntimeServicer.Converse clock network json_loads json_dumps
                engine handler rest e1) as [later e2].
    cbn [fst] in *. destruct IH as (Hcount & Hend & Hinternal).
    assert (Hterm : is_terminal last = true).
    { destruct Hlast as [(tin & tout & ->)|(msg & ->)]; reflexivity. }
    split; [|split].
    + rewrite !List.filter_app, (filter_terminal_streamed ys Hys).
      cbn [List.filter app]. rewrite Hterm, !length_app, Hcount.
      cbn [received broken length]. lia.
    + right. destruct Hend as [->|(body & last' & -> & Hlast')].
      * exists ys, last. rewrite app_nil_r. split; [reflexivity|exact Hterm].
      * exists ((ys ++ [last]) ++ body), last'.
        rewrite <- !app_assoc. split; [reflexivity|exact Hlast'].
    + intros msg Hin. cbn [broken].
      apply elem_of_app in Hin as [Hin|Hin]; [|apply (Hinternal msg Hin)].
      exfalso. apply elem_of_app in Hin as [Hin|Hin].
      * rewrite Forall_forall in Hys. apply Hys in Hin. exact Hin.
      * apply list_elem_of_singleton in Hin. subst last.
        destruct Hlast as [(tin & tout & Hd)|(msg' & Hd)]; discriminate.
  - simpl. split; [reflexivity|]. split.
    + right. exists [], (runtime_pb2.error "INTERNAL_ERROR" (exn_str exc)).
      split; reflexivity.
    + intros; reflexivity.
Qed.

Lemma lc_part_shows p :
  Forall lc_content_part (LangChainHandler.lc_part p)
  /\ omap part_text (LangChainHandler.lc_part p)
     = (if is_text_part p then [runtime_pb2.text p] else [])
  /\ omap part_image_url (LangChainHandler.lc_part p)
     = option_list (image_source p)
  /\ length (LangChainHandler.lc_part p)
     = ((if is_text_part p then 1 else 0)
        + length (option_list (image_source p)))%nat.
Proof.
  unfold LangChainHandler.lc_part, is_text_part, image_source.
  destruct (String.eqb_spec (runtime_pb2.type p) "text") as [Et|_].
  { rewrite Et. cbn [String.eqb Ascii.eqb Bool.eqb andb].
    split; [|repeat split].
    constructor; [|constructor]. left. eexists. reflexivity. }
  destruct (String.eqb (runtime_pb2.type p) "image");
    [|split; [constructor|repeat split]].
  destruct (runtime_pb2.media p) as [m|];
    [|split; [constructor|repeat split]].
  destruct (String.eqb_spec (runtime_pb2.url m) "") as [Eu|Eu]; cbn [negb].
  - destruct (String.eqb (runtime_pb2.data m) ""); cbn [negb];
      [split; [constructor|repeat split]|].
    split; [|repeat split].
    constructor; [|constructor]. right. eexists. split; [reflexivity|].
    change ("data:" +:+ runtime_pb2.mime_type m +:+ ";base64,"
            +:+ runtime_pb2.data m)
      with (String "d" ("ata:" +:+ runtime_pb2.mime_type m +:+ ";base64,"
                        +:+ runtime_pb2.data m)).
    discriminate.
  - split; [|repeat split].
    constructor; [|constructor]. right. eexists. split; [reflexivity|exact Eu].
Qed.

(** X22.  Without parts, the user message is the plain text content
    (the empty string when there is none).  With parts, the text content
    is not used: the content is a list of LangChain blocks, each a [text]
    or an [image_url] block.  The texts of the text parts appear in order;
    so do the images of the image parts, each by its URL or, when it has
    none, by its inline data as a [data:] URL; there is no other block, so
    a part of another type, and an image part with neither URL nor data,
    is left out. *)
Theorem build_user_message_parts content parts :
  match parts with
  | [] =>
      LangChainHandler._build_user_message content parts
      = HumanMessage (JStr (default "" content)) (JObj [])
  | _ :: _ =>
      exists items,
        LangChainHandler._build_user_message content parts
        = HumanMessage (JArr items) (JObj [])
        /\ Forall lc_content_part items
        /\ omap part_text items
           = map runtime_pb2.text (List.filter is_text_part parts)
        /\ omap part_image_url items = omap image_source parts
        /\ length items
           = (length (List.filter is_text_part parts)
              + length (omap image_source parts))%nat
  end.
Proof.
  destruct parts as [|p0 ps]; [reflexivity|].
  exists (concat (map LangChainHandler.lc_part (p0 :: ps))).
  split; [reflexivity|].
  generalize (p0 :: ps). clear. intros parts.
  induction parts as [|p parts (IH1 & IH2 & IH3 & IH4)].
  - split; [constructor|]. repeat split.
  - destruct (lc_part_shows p) as (H1 & H2 & H3 & H4).
    cbn [map concat List.filter omap list_omap]. split; [|split; [|split]].
    + apply Forall_app_2; assumption.
    + rewrite omap_app, H2, IH2.
      destruct (is_text_part p); reflexivity.
    + rewrite omap_app, H3, IH3.
      destruct (image_source p); reflexivity.
    + rewrite length_app, H4, IH4.
      destruct (is_text_part p), (image_source p); simpl; lia.
Qed.

(** ** Session objects *)

Section SessionFacts.
Context {St : Type}.
Variable clock : nat -> datetime.t.

Lemma deref_alter f l h :
  deref (alter f l h) l
  = if decide (l < length h)%nat then f (deref h l) else deref h l.
Proof.
  destruct (decide (l < length h)%nat) as [Hl|Hl].
  - apply deref_alter_eq, Hl.
  - unfold deref. rewrite list_lookup_alter_eq.
    rewrite lookup_ge_None_2 by lia. reflexivity.
Qed.

Lemma add_message_heap l msg (e : Env St) :
  heap (snd (add_message clock l msg e))
  = alter (Session.set_updated_at (clock (ticks e))) l
      (alter (Session.append msg) l (heap e))
  /\ ticks (snd (add_message clock l msg e)) = S (ticks e).
Proof. split; reflexivity. Qed.

Lemma add_message_each l msgs : forall e : Env St,
  let many := fold_left (fun e m => snd (add_message clock l m e)) msgs e in
  length (heap many) = length (heap e)
  /\ Session.messages (deref (heap many) l)
     = Session.messages (deref (heap e) l)
       ++ (if decide (l < length (heap e))%nat then msgs else []).
Proof.
  induction msgs as [|m msgs IH]; intros e; cbn [fold_left].
  - split; [reflexivity|]. destruct (decide _); rewrite app_nil_r; reflexivity.
  - destruct (IH (snd (add_message clock l m e))) as [Hlen Hmsgs].
    cbv zeta. rewrite Hlen, Hmsgs.
    destruct (add_message_heap l m e) as [-> _].
    rewrite !length_alter. split; [reflexivity|].
    rewrite !deref_alter, !length_alter.
    destruct (decide (l < length (heap e))%nat).
    + cbn [Session.messages Session.set_updated_at Session.append].
      rewrite <- app_assoc. reflexivity.
    + rewrite app_nil_r. reflexivity.
Qed.
End SessionFacts.

(** X23.  [add_messages] leaves the session with the same messages as
    [add_message] called once per message, but reads the clock once
    whatever the number of messages; it keeps id, metadata and creation
    time and stamps the update time, and [clear_messages] then leaves the
    same session with no messages and a new update time. *)
Theorem add_messages_like_add_message (St : Type) clock l msgs (e : Env St) :
  let one := snd (add_messages clock l msgs e) in
  let many := fold_left (fun e m => snd (add_message clock l m e)) msgs e in
  let cleared := snd (clear_messages clock l one) in
  Session.messages (deref (heap one) l)
  = Session.messages (deref (heap many) l)
  /\ ticks one = S (ticks e)
  /\ ticks many = (ticks e + length msgs)%nat
  /\ ((l < length (heap e))%nat ->
      deref (heap one) l
      = Session.mk (Session.session_id (deref (heap e) l))
          (Session.messages (deref (heap e) l) ++ msgs)
          (Session.metadata (deref (heap e) l))
          (Session.created_at (deref (heap e) l))
          (clock (ticks e))
      /\ deref (heap cleared) l
         = Session.mk (Session.session_id (deref (heap e) l)) []
             (Session.metadata (deref (heap e) l))
             (Session.created_at (deref (heap e) l))
             (clock (S (ticks e)))).
Proof.
  intros one many cleared.
  assert (Hone : heap one
                 = alter (Session.set_updated_at (clock (ticks e))) l
                     (alter (Session.extend msgs) l (heap e)))
    by reflexivity.
  split; [|split; [reflexivity|split]].
  - destruct (add_message_each clock l msgs e) as [_ Hmany].
    fold many in Hmany. rewrite Hmany, Hone, !deref_alter, !length_alter.
    destruct (decide (l < length (heap e))%nat); [reflexivity|].
    rewrite app_nil_r. reflexivity.
  - subst many. clear. revert e.
    induction msgs as [|m msgs IH]; intros e; cbn [fold_left length].
    + lia.
    + rewrite IH. destruct (add_message_heap clock l m e) as [_ ->]. lia.
  - intros Hl. split.
    + rewrite Hone, !deref_alter_eq by (rewrite ?length_alter; exact Hl).
      reflexivity.
    + assert (Hc : heap cleared
                   = alter (Session.set_updated_at (clock (ticks one))) l
                       (alter (Session.set_messages []) l (heap one)))
        by reflexivity.
      rewrite Hc, Hone.
      rewrite !deref_alter_eq by (rewrite ?length_alter; exact Hl).
      reflexivity.
Qed.

(** ** The Redis store *)

Lemma py_get_state (S : Type) v key d (s : S) :
  py_get v key d s = (fst (py_get v key d tt), s).
Proof. destruct v; reflexivity. Qed.

Lemma py_iter_state (S : Type) v (s : S) :
  py_iter v s = (fst (py_iter v tt), s).
Proof. destruct v; reflexivity. Qed.

Lemma dict_getitem_state (S : Type) fields key (s : S) :
  dict_getitem fields key s = (fst (dict_getitem fields key tt), s).
Proof. unfold dict_getitem. destruct (assoc key fields); reflexivity. Qed.

Lemma fromisoformat_state (S : Type) v (s : S) :
  RedisSessionStore.fromisoformat v s
  = (fst (RedisSessionStore.fromisoformat v tt), s).
Proof.
  destruct v; try reflexivity. simpl.
  destruct (datetime.fromisoformat s0); reflexivity.
Qed.

Lemma deserialize_message_state (S : Type) msg_data (s : S) :
  RedisSessionStore.deserialize_message msg_data s
  = (fst (RedisSessionStore.deserialize_message msg_data tt), s).
Proof.
  destruct msg_data; try reflexivity.
  unfold RedisSessionStore.deserialize_message, bind, py_get, ret.
  generalize (match assoc "type" fields with
              | Some x => x
              | None => JStr "HumanMessage"
              end).
  intros ty.
  repeat match goal with
         | |- context [match ?x with _ => _ end] =>
             is_var x; destruct x; try reflexivity
         end.
Qed.

Lemma deserialize_messages_state (S : Type) items (s : S) :
  RedisSessionStore.deserialize_messages items s
  = (fst (RedisSessionStore.deserialize_messages items tt), s).
Proof.
  induction items as [|msg_data items IH]; [reflexivity|].
  cbn [RedisSessionStore.deserialize_messages]. unfold bind.
  rewrite (deserialize_message_state S), (deserialize_message_state unit _ tt).
  destruct (fst (RedisSessionStore.deserialize_message msg_data tt));
    [|reflexivity].
  cbn [fst]. rewrite IH.
  destruct (RedisSessionStore.deserialize_messages items tt) as [[ms|e] []];
    reflexivity.
Qed.

Lemma deserialize_state (S : Type) json_loads session_id data (s : S) :
  RedisSessionStore._deserialize json_loads session_id data s
  = (fst (RedisSessionStore._deserialize json_loads session_id data tt), s).
Proof.
  unfold RedisSessionStore._deserialize.
  destruct (json_loads data) as [parsed|]; [|reflexivity].
  unfold bind.
  rewrite (py_get_state S), (py_get_state unit _ _ _ tt).
  destruct (fst (py_get parsed "messages" _ tt)) as [raw|]; [|reflexivity].
  cbn [fst]. rewrite (py_iter_state S), (py_iter_state unit _ tt).
  destruct (fst (py_iter raw tt)) as [items|]; [|reflexivity].
  cbn [fst].
  rewrite (deserialize_messages_state S),
    (deserialize_messages_state unit _ tt).
  destruct (fst (RedisSessionStore.deserialize_messages items tt))
    as [messages|]; [|reflexivity].
  cbn [fst]. rewrite (py_get_state S), (py_get_state unit _ _ _ tt).
  destruct (fst (py_get parsed "metadata" _ tt)) as [metadata|];
    [|reflexivity].
  cbn [fst].
  rewrite (dict_getitem_state S), (dict_getitem_state unit _ _ tt).
  destruct (fst (dict_getitem _ "created_at" tt)) as [c|]; [|reflexivity].
  cbn [fst].
  rewrite (fromisoformat_state S), (fromisoformat_state unit _ tt).
  destruct (fst (RedisSessionStore.fromisoformat c tt)) as [created|];
    [|reflexivity].
  cbn [fst].
  rewrite (dict_getitem_state S), (dict_getitem_state unit _ _ tt).
  destruct (fst (dict_getitem _ "updated_at" tt)) as [u|]; [|reflexivity].
  cbn [fst].
  rewrite (fromisoformat_state S), (fromisoformat_state unit _ tt).
  destruct (fst (RedisSessionStore.fromisoformat u tt)) as [updated|];
    reflexivity.
Qed.

Lemma decoded_serialize json_dumps json_loads session :
  Forall core_message (Session.messages session) ->
  datetime.valid (Session.created_at session) = true ->
  datetime.valid (Session.updated_at session) = true ->
  json_loads (json_dumps (session_record session))
  = Some (session_record session) ->
  decoded json_loads (Session.session_id session)
    (RedisSessionStore._serialize json_dumps session)
  = Ok session.
Proof.
  intros Hms Hc Hu Hcodec.
  unfold decoded, RedisSessionStore._deserialize, RedisSessionStore._serialize.
  fold (session_record session). rewrite Hcodec.
  unfold session_record, bind.
  cbn [py_get dict_getitem py_iter assoc String.eqb Ascii.eqb Bool.eqb andb
       ret].
  rewrite deserialize_serialize_messages by exact Hms.
  cbn [RedisSessionStore.fromisoformat].
  rewrite !fromisoformat_isoformat by assumption.
  destruct session; reflexivity.
Qed.

(** A text that is no session record makes [_deserialize] raise. *)
Lemma unreadable_decoded json_loads session_id data :
  unreadable json_loads data ->
  exists exc, decoded json_loads session_id data = Raise exc.
Proof.
  unfold unreadable, decoded, RedisSessionStore._deserialize.
  destruct (json_loads data) as [parsed|]; [|intros _; eexists; reflexivity].
  destruct parsed; try (intros _; eexists; reflexivity).
  intros Hmissing. unfold bind.
  destruct (py_get _ _ _ tt) as [[raw|exc] []]; [|eexists; reflexivity].
  destruct (py_iter raw tt) as [[items|exc] []]; [|eexists; reflexivity].
  destruct (RedisSessionStore.deserialize_messages items tt)
    as [[messages|exc] []]; [|eexists; reflexivity].
  destruct (py_get _ _ _ tt) as [[metadata|exc] []]; [|eexists; reflexivity].
  unfold dict_getitem.
  destruct (assoc "created_at" _) as [c|];
    [|eexists; reflexivity].
  destruct Hmissing as [Hc|Hu]; [discriminate|]. rewrite Hu.
  unfold ret at 1.
  destruct (RedisSessionStore.fromisoformat c tt) as [[created_at|exc] []];
    eexists; reflexivity.
Qed.

Section RedisFacts.
Context {R : Type} `{redis.Redis R}.
Variable clock : nat -> datetime.t.
Variable json_dumps : json -> string.
Variable json_loads : string -> option json.

Local Abbreviation Store := (RedisSessionStore.t R).

(** The environment once the client exists. *)
Lemma get_client_spec (e e0 : Env Store) :
  RedisSessionStore._get_client e = (Ok tt, e0) ->
  RedisSessionStore._get_client e0 = (Ok tt, e0)
  /\ heap e0 = heap e /\ ticks e0 = ticks e /\ net e0 = net e
  /\ RedisSessionStore.url (store e0) = RedisSessionStore.url (store e)
  /\ RedisSessionStore.ttl_seconds (store e0)
     = RedisSessionStore.ttl_seconds (store e)
  /\ RedisSessionStore.key_prefix (store e0)
     = RedisSessionStore.key_prefix (store e)
  /\ RedisSessionStore._client (store e0) = true.
Proof.
  unfold RedisSessionStore._get_client, bind, gets.
  destruct (RedisSessionStore._client (store e)) eqn:Ec.
  - intros E. inversion E; subst e0. rewrite Ec. repeat split; reflexivity.
  - unfold RedisSessionStore.command.
    destruct (redis.from_url _ _) as [[[]|exc] r]; [|discriminate].
    unfold modify. intros E. inversion E; subst e0. cbn.
    repeat split; reflexivity.
Qed.

Lemma redis_get_spec session_id (e e0 : Env Store) :
  RedisSessionStore._get_client e = (Ok tt, e0) ->
  RedisSessionStore.get json_loads session_id e
  = match redis.get (RedisSessionStore._key
                       (RedisSessionStore.key_prefix (store e0)) session_id)
            (RedisSessionStore.server (store e0)) with
    | (Raise exc, r1) =>
        (Raise exc, set_store (RedisSessionStore.set_server r1) e0)
    | (Ok None, r1) =>
        (Ok None, set_store (RedisSessionStore.set_server r1) e0)
    | (Ok (Some data), r1) =>
        match decoded json_loads session_id data with
        | Ok session =>
            (Ok (Some (length (heap e0))),
             set_heap (fun h => h ++ [session])
               (set_store (RedisSessionStore.set_server r1) e0))
        | Raise _ =>
            (Ok None, set_store (RedisSessionStore.set_server r1) e0)
        end
    end.
Proof.
  intros Ec. unfold RedisSessionStore.get, bind. rewrite Ec.
  unfold gets at 1. cbn [fst snd].
  unfold RedisSessionStore.command.
  destruct (redis.get _ _) as [[[data|]|exc] r1]; try reflexivity.
  unfold try_except, bind. rewrite deserialize_state. fold (decoded json_loads session_id data).
  destruct (decoded json_loads session_id data); reflexivity.
Qed.

Lemma redis_save_spec l (e e0 : Env Store) :
  RedisSessionStore._get_client e = (Ok tt, e0) ->
  let s := Session.set_updated_at (clock (ticks e)) (deref (heap e) l) in
  (l < length (heap e))%nat ->
  RedisSessionStore.save clock json_dumps l e
  = let '(r, r1) :=
      redis.setex (RedisSessionStore._key
                     (RedisSessionStore.key_prefix (store e0))
                     (Session.session_id s))
        (RedisSessionStore.ttl_seconds (store e0))
        (RedisSessionStore._serialize json_dumps s)
        (RedisSessionStore.server (store e0)) in
    (r, mkEnv (alter (Session.set_updated_at (clock (ticks e))) l (heap e))
          (S (ticks e)) (RedisSessionStore.set_server r1 (store e0)) (net e)).
Proof.
  intros Ec s Hl. unfold RedisSessionStore.save, bind. rewrite Ec.
  destruct (get_client_spec e e0 Ec) as (_ & Hh & Ht & Hn & _).
  unfold utcnow, write, modify, read, gets, RedisSessionStore.command.
  cbn [fst snd heap ticks store net set_heap].
  rewrite Hh, Ht, Hn, (deref_alter_eq _ _ _ Hl). fold s.
  destruct (redis.setex _ _ _ _) as [r r1]. reflexivity.
Qed.
End RedisFacts.

Section RedisTheorems.
Context {R : Type} `{redis.Redis R}.
Variable clock : nat -> datetime.t.
Variable json_dumps : json -> string.
Variable json_loads : string -> option json.

Local Abbreviation Store := (RedisSessionStore.t R).
Local Abbreviation in_redis :=
  (RedisSessionStore.session_store clock json_dumps json_loads).

Lemma get_client_form (e : Env Store) :
  RedisSessionStore._get_client e
  = if RedisSessionStore._client (store e) then (Ok tt, e)
    else
      match redis.from_url (RedisSessionStore.url (store e))
              (RedisSessionStore.server (store e)) with
      | (Ok _, r) =>
          (Ok tt,
           mkEnv (heap e) (ticks e)
             (RedisSessionStore.set_client true
                (RedisSessionStore.set_server r (store e)))
             (net e))
      | (Raise exc, r) =>
          (Raise exc,
           mkEnv (heap e) (ticks e)
             (RedisSessionStore.set_server r (store e)) (net e))
      end.
Proof.
  unfold RedisSessionStore._get_client, bind, gets.
  destruct (RedisSessionStore._client (store e)); [reflexivity|].
  unfold RedisSessionStore.command.
  destruct (redis.from_url _ _) as [[[]|exc] r]; reflexivity.
Qed.

Lemma redis_get_form session_id (e : Env Store) :
  RedisSessionStore.get json_loads session_id e
  = match RedisSessionStore._get_client e with
    | (Raise exc, e0) => (Raise exc, e0)
    | (Ok _, e0) =>
        match redis.get (RedisSessionStore._key
                           (RedisSessionStore.key_prefix (store e0))
                           session_id)
                (RedisSessionStore.server (store e0)) with
        | (Raise exc, r1) =>
            (Raise exc,
             mkEnv (heap e0) (ticks e0)
               (RedisSessionStore.set_server r1 (store e0)) (net e0))
        | (Ok None, r1) =>
            (Ok None,
             mkEnv (heap e0) (ticks e0)
               (RedisSessionStore.set_server r1 (store e0)) (net e0))
        | (Ok (Some data), r1) =>
            match decoded json_loads session_id data with
            | Ok session =>
                (Ok (Some (length (heap e0))),
                 mkEnv (heap e0 ++ [session]) (ticks e0)
                   (RedisSessionStore.set_server r1 (store e0)) (net e0))
            | Raise _ =>
                (Ok None,
                 mkEnv (heap e0) (ticks e0)
                   (RedisSessionStore.set_server r1 (store e0)) (net e0))
            end
        end
    end.
Proof.
  unfold RedisSessionStore.get, bind.
  destruct (RedisSessionStore._get_client e) as [[[]|exc] e0]; [|reflexivity].
  unfold gets at 1. cbn [fst snd].
  unfold RedisSessionStore.command.
  destruct (redis.get _ _) as [[[data|]|exc] r1]; try reflexivity.
  unfold try_except, bind. rewrite deserialize_state.
  fold (decoded json_loads session_id data).
  destruct (decoded json_loads session_id data); reflexivity.
Qed.

(** [get] looks at the store and at nothing of the heap but its size: what
    it returns is a new object. *)
Lemma redis_get_agree session_id (x y : Env Store) :
  store x = store y ->
  length (heap x) = length (heap y) ->
  exists r st news,
    RedisSessionStore.get json_loads session_id x
    = (r, mkEnv (heap x ++ news) (ticks x) st (net x))
    /\ RedisSessionStore.get json_loads session_id y
       = (r, mkEnv (heap y ++ news) (ticks y) st (net y))
    /\ forall l, r = Ok (Some l) -> l = length (heap x) /\ news <> [].
Proof.
  intros Hst Hlen. rewrite !redis_get_form, !get_client_form, <- Hst.
  destruct (RedisSessionStore._client (store x)).
  - rewrite <- Hst.
    destruct (redis.get _ _) as [[[data|]|exc] r1].
    + destruct (decoded json_loads session_id data) as [s|exc].
      * rewrite <- Hlen. eexists _, _, [s].
        split; [reflexivity|]. split; [reflexivity|].
        intros l E. inversion E. split; [reflexivity|discriminate].
      * eexists _, _, []. rewrite !app_nil_r.
        split; [reflexivity|]. split; [reflexivity|]. intros; discriminate.
    + eexists _, _, []. rewrite !app_nil_r.
      split; [reflexivity|]. split; [reflexivity|]. intros; discriminate.
    + eexists _, _, []. rewrite !app_nil_r.
      split; [reflexivity|]. split; [reflexivity|]. intros; discriminate.
  - destruct (redis.from_url _ _) as [[[]|exc] r0].
    + cbn [store heap ticks net].
      destruct (redis.get _ _) as [[[data|]|exc] r1].
      * destruct (decoded json_loads session_id data) as [s|exc].
        -- rewrite <- Hlen. eexists _, _, [s].
           split; [reflexivity|]. split; [reflexivity|].
           intros l E. inversion E. split; [reflexivity|discriminate].
        -- eexists _, _, []. rewrite !app_nil_r.
           split; [reflexivity|]. split; [reflexivity|]. intros; discriminate.
      * eexists _, _, []. rewrite !app_nil_r.
        split; [reflexivity|]. split; [reflexivity|]. intros; discriminate.
      * eexists _, _, []. rewrite !app_nil_r.
        split; [reflexivity|]. split; [reflexivity|]. intros; discriminate.
    + eexists _, _, []. rewrite !app_nil_r.
      split; [reflexivity|]. split; [reflexivity|]. intros; discriminate.
Qed.

(** X24.  When the text stored in Redis for a session is not JSON, is not
    a JSON object, or is an object without [created_at] or [updated_at],
    [get] returns [None] and neither raises nor deletes the text;
    [get_or_create] then creates an empty session and saves it under the
    same key, replacing what was there. *)
Theorem redis_unreadable_record_replaced session_id data (e e0 : Env Store)
    r1 r2 :
  let key := RedisSessionStore._key
               (RedisSessionStore.key_prefix (store e)) session_id in
  let fresh := Session.mk session_id [] (JObj [])
                 (clock (ticks e)) (clock (2 + ticks e)%nat) in
  RedisSessionStore._get_client e = (Ok tt, e0) ->
  redis.get key (RedisSessionStore.server (store e0)) = (Ok (Some data), r1) ->
  unreadable json_loads data ->
  redis.setex key (RedisSessionStore.ttl_seconds (store e))
    (RedisSessionStore._serialize json_dumps fresh) r1 = (Ok tt, r2) ->
  RedisSessionStore.get json_loads session_id e
  = (Ok None,
     mkEnv (heap e) (ticks e)
       (RedisSessionStore.set_server r1 (store e0)) (net e))
  /\ SessionStore.get_or_create (H:=in_redis) clock session_id e
     = (Ok (length (heap e)),
        mkEnv (heap e ++ [fresh]) (3 + ticks e)
          (RedisSessionStore.set_server r2 (store e0)) (net e)).
Proof.
  intros key fresh Ec Hget Hbad Hsetex.
  apply (unreadable_decoded json_loads session_id) in Hbad as [exc Hbad].
  destruct (get_client_spec e e0 Ec)
    as (_ & Hh & Ht & Hn & _ & Httl & Hprefix & Hclient).
  assert (Eget : RedisSessionStore.get json_loads session_id e
                 = (Ok None,
                    mkEnv (heap e) (ticks e)
                      (RedisSessionStore.set_server r1 (store e0)) (net e))).
  { rewrite redis_get_form, Ec, Hprefix. fold key. rewrite Hget, Hbad.
    rewrite Hh, Ht, Hn. reflexivity. }
  split; [exact Eget|].
  unfold SessionStore.get_or_create, bind.
  cbn [SessionStore.get SessionStore.save RedisSessionStore.session_store].
  rewrite Eget.
  unfold Session_new, bind, utcnow, alloc. cbn [fst snd heap ticks store net
                                                  set_heap].
  unfold set_heap. cbn [heap ticks store net].
  set (e' := mkEnv (heap e ++ _) _ _ _).
  assert (Ec' : RedisSessionStore._get_client e' = (Ok tt, e')).
  { rewrite get_client_form. unfold e'. cbn [store RedisSessionStore._client
                                               RedisSessionStore.set_server].
    rewrite Hclient. reflexivity. }
  rewrite (redis_save_spec clock json_dumps (length (heap e)) e' e' Ec')
    by (unfold e'; cbn [heap]; rewrite length_app; simpl; lia).
  unfold e'. cbn [heap ticks store net RedisSessionStore.key_prefix
                    RedisSessionStore.ttl_seconds RedisSessionStore.server
                    RedisSessionStore.set_server].
  rewrite deref_last, alter_last.
  cbn [Session.session_id].
  rewrite Hprefix, Httl. fold key.
  change (Session.set_updated_at (clock (S (S (ticks e))))
            (Session.mk session_id [] (JObj []) (clock (ticks e))
               (clock (S (ticks e))))) with fresh.
  change (Session.session_id fresh) with session_id. fold key.
  rewrite Hsetex. reflexivity.
Qed.

(** X25.  With the Redis store, [save] stamps the session and writes its
    serialised form under the session's key with the store's TTL; when the
    server then returns what was written, [get] gives a new session object
    equal to the saved one. *)
Theorem redis_save_then_get l (e e0 : Env Store) r1 r2 :
  let saved_session :=
    Session.set_updated_at (clock (ticks e)) (deref (heap e) l) in
  let key := RedisSessionStore._key (RedisSessionStore.key_prefix (store e))
               (Session.session_id saved_session) in
  let data := RedisSessionStore._serialize json_dumps saved_session in
  let e1 := snd (RedisSessionStore.save clock json_dumps l e) in
  let e2 := snd (RedisSessionStore.get json_loads
                   (Session.session_id saved_session) e1) in
  (l < length (heap e))%nat ->
  Forall core_message (Session.messages saved_session) ->
  datetime.valid (Session.created_at saved_session) = true ->
  datetime.valid (clock (ticks e)) = true ->
  json_loads (json_dumps (session_record saved_session))
  = Some (session_record saved_session) ->
  RedisSessionStore._get_client e = (Ok tt, e0) ->
  redis.setex key (RedisSessionStore.ttl_seconds (store e)) data
    (RedisSessionStore.server (store e0)) = (Ok tt, r1) ->
  redis.get key r1 = (Ok (Some data), r2) ->
  RedisSessionStore.save clock json_dumps l e = (Ok tt, e1)
  /\ RedisSessionStore.get json_loads (Session.session_id saved_session) e1
     = (Ok (Some (length (heap e))), e2)
  /\ deref (heap e2) (length (heap e)) = saved_session
  /\ deref (heap e2) l = saved_session.
Proof.
  intros saved_session key data e1 e2 Hl Hms Hc Hu Hcodec Ec Hsetex Hget.
  destruct (get_client_spec e e0 Ec)
    as (_ & Hh & Ht & Hn & _ & Httl & Hprefix & Hclient).
  assert (Esave : RedisSessionStore.save clock json_dumps l e
                  = (Ok tt,
                     mkEnv (alter (Session.set_updated_at (clock (ticks e))) l
                              (heap e))
                       (S (ticks e))
                       (RedisSessionStore.set_server r1 (store e0)) (net e))).
  { rewrite (redis_save_spec clock json_dumps l e e0 Ec Hl).
    fold saved_session. rewrite Hprefix, Httl. fold key data.
    rewrite Hsetex. reflexivity. }
  subst e2 e1. rewrite Esave. cbn [snd].
  split; [reflexivity|].
  set (e1 := mkEnv _ _ _ _).
  assert (Ec1 : RedisSessionStore._get_client e1 = (Ok tt, e1)).
  { rewrite get_client_form. unfold e1.
    cbn [store RedisSessionStore._client RedisSessionStore.set_server].
    rewrite Hclient. reflexivity. }
  assert (Eget : RedisSessionStore.get json_loads
                   (Session.session_id saved_session) e1
                 = (Ok (Some (length (heap e))),
                    mkEnv (heap e1 ++ [saved_session]) (ticks e1)
                      (RedisSessionStore.set_server r2 (store e1)) (net e1))).
  { rewrite redis_get_form, Ec1. unfold e1.
    cbn [store heap ticks net RedisSessionStore.key_prefix
           RedisSessionStore.server RedisSessionStore.set_server].
    rewrite Hprefix. fold key. rewrite Hget.
    unfold data. rewrite decoded_serialize by assumption.
    rewrite length_alter. reflexivity. }
  rewrite Eget. cbn [snd heap]. split; [reflexivity|].
  unfold e1. cbn [heap]. split.
  - rewrite <- (length_alter (Session.set_updated_at (clock (ticks e)))
                  (heap e) l).
    apply deref_last.
  - rewrite deref_app_l by (rewrite length_alter; exact Hl).
    apply deref_alter_eq, Hl.
Qed.

(** X26.  With the Redis store, a turn whose engine fails streams the
    chunks produced so far and an error.  Once [get_or_create] has
    returned -- having saved an empty session when it found none -- the
    turn sends nothing more to Redis: the store is as [get_or_create] left
    it, the user message is on the turn's own session object only, and
    reading the session again gives what a read right after
    [get_or_create] gives. *)
Theorem redis_failed_turn_not_saved network engine self session_id content
    parts metadata chunks exc l (e e1 : Env Store) :
  let user := LangChainHandler._build_user_message content parts in
  let run :=
    LangChainHandler.handle_message (H:=in_redis) clock network json_loads
      json_dumps engine self session_id content parts metadata e in
  let reread := RedisSessionStore.get json_loads session_id (snd run) in
  let unread := RedisSessionStore.get json_loads session_id e1 in
  SessionStore.get_or_create (H:=in_redis) clock session_id e = (Ok l, e1) ->
  (l < length (heap e1))%nat ->
  LangChainHandler.prompt_name self ∈ prompts (LangChainHandler.pack self) ->
  Forall (fun s => s <> "") chunks ->
  engine (LangChainHandler.tools self)
    (Session.messages (deref (heap e1) l) ++ [user])
    (LangChainHandler._extract_variables json_loads metadata)
  = emit (map text_delta chunks) (Throw exc) ->
  fst run = map runtime_pb2.chunk chunks
            ++ [runtime_pb2.error "HANDLER_ERROR" (exn_str exc)]
  /\ store (snd run) = store e1
  /\ Session.messages (deref (heap (snd run)) l)
     = Session.messages (deref (heap e1) l) ++ [user]
  /\ fst reread = fst unread
  /\ forall l', fst unread = Ok (Some l') ->
                deref (heap (snd reread)) l' = deref (heap (snd unread)) l'.
Proof.
  intros user run reread unread Hgoc Hl Hprompt Hchunks Hengine.
  assert (Erun : run
                 = (map runtime_pb2.chunk chunks
                    ++ [runtime_pb2.error "HANDLER_ERROR" (exn_str exc)],
                    mkEnv (alter (Session.set_updated_at (clock (ticks e1))) l
                             (alter (Session.append user) l (heap e1)))
                      (S (ticks e1)) (store e1) (net e1))).
  { unfold run. rewrite handle_message_steps, Hgoc. cbv zeta.
    rewrite bool_decide_eq_true_2 by exact Hprompt.
    change (snd (add_message clock l
                   (LangChainHandler._build_user_message content parts) e1))
      with (mkEnv (alter (Session.set_updated_at (clock (ticks e1))) l
                     (alter (Session.append user) l (heap e1)))
              (S (ticks e1)) (store e1) (net e1)).
    cbn [heap]. rewrite deref_alter_alter by exact Hl.
    cbn [Session.messages Session.set_updated_at Session.append].
    fold user. rewrite Hengine, consume_text by exact Hchunks.
    reflexivity. }
  subst reread unread. rewrite Erun. cbn [fst snd store heap].
  split; [reflexivity|]. split; [reflexivity|]. split.
  { rewrite deref_alter_alter by exact Hl. reflexivity. }
  match goal with
  | |- context [RedisSessionStore.get json_loads session_id ?x] =>
      destruct (redis_get_agree session_id x e1 eq_refl
                  ltac:(cbn [heap]; rewrite !length_alter; reflexivity))
        as (r & st & news & -> & -> & Hfresh)
  end.
  cbn [fst snd heap]. split; [reflexivity|].
  intros l' E. destruct (Hfresh l' E) as [-> Hnews]. cbn [heap].
  rewrite !length_alter.
  destruct news as [|s news]; [contradiction|].
  unfold deref.
  rewrite !lookup_app_r by (rewrite ?length_alter; lia).
  rewrite !length_alter. reflexivity.
Qed.
End RedisTheorems.

(** ** Configuration from the environment *)

Lemma bind_Ok {S A B} (m : M S A) (k : A -> M S B) s b s2 :
  bind m k s = (Ok b, s2) ->
  exists a s1, m s = (Ok a, s1) /\ k a s1 = (Ok b, s2).
Proof.
  unfold bind. destruct (m s) as [[a|e] s1]; [|discriminate].
  intros E. exists a, s1. split; [reflexivity|exact E].
Qed.

Section ConfigFacts.
Variable environ : gmap string string.
Variable int : string -> option Z.
Variable lower : string -> string.

Lemma get_required_Ok (S : Type) name v (s s' : S) :
  _get_required environ name s = (Ok v, s') ->
  environ !! name = Some v /\ v <> "" /\ s' = s.
Proof.
  unfold _get_required, getenv.
  destruct (environ !! name) as [value|]; [|discriminate].
  destruct (String.eqb_spec value "") as [->|Hne]; [discriminate|].
  intros E. inversion E; subst. repeat split; assumption.
Qed.

Lemma get_or_default_nonempty name default :
  default <> "" -> _get_or_default environ name default <> "".
Proof.
  intros Hd. unfold _get_or_default, getenv.
  destruct (environ !! name) as [value|]; [|exact Hd].
  destruct (String.eqb_spec value ""); assumption.
Qed.

Lemma validate_Ok (S : Type) config (s s' : S) :
  _validate_config config s = (Ok tt, s') ->
  (Config.session_type config = SessionType.REDIS ->
   Config.session_url config <> "")
  /\ (Config.provider_type config = ProviderType.CLAUDE ->
      missing_key config "anthropic" = false)
  /\ (Config.provider_type config = ProviderType.OPENAI ->
      missing_key config "openai" = false)
  /\ (Config.provider_type config = ProviderType.GEMINI ->
      missing_key config "google" = false).
Proof.
  unfold _validate_config. intros E.
  apply bind_Ok in E as ([] & s1 & E1 & E).
  apply bind_Ok in E as ([] & s2 & E2 & E).
  apply bind_Ok in E as ([] & s3 & E3 & E4).
  repeat split; intros Ht; rewrite Ht in *.
  - destruct (String.eqb_spec (Config.session_url config) "");
      [discriminate|assumption].
  - destruct (missing_key config "anthropic"); [discriminate|reflexivity].
  - destruct (missing_key config "openai"); [discriminate|reflexivity].
  - destruct (missing_key config "google"); [discriminate|reflexivity].
Qed.

Lemma missing_key_false (keys : gmap string string) key :
  match keys !! key with
  | Some value => String.eqb value ""
  | None => true
  end = false ->
  exists value, keys !! key = Some value /\ value <> "".
Proof.
  destruct (keys !! key) as [value|]; [|discriminate].
  destruct (String.eqb_spec value ""); [discriminate|].
  intros _. exists value. split; [reflexivity|assumption].
Qed.
End ConfigFacts.

(** X27.  Whenever [load_config] returns a configuration, the agent name
    and the namespace are the non-empty values of their environment
    variables, the prompt pack path, prompt name and media path are not
    empty, a Redis session store comes with the non-empty
    [OMNIA_SESSION_URL], and a Claude, OpenAI or Gemini provider comes with
    its API key set and not empty in the environment. *)
Theorem load_config_validated (S : Type) environ int lower config (s s' : S) :
  load_config environ int lower s = (Ok config, s') ->
  (environ !! "OMNIA_AGENT_NAME" = Some (Config.agent_name config)
   /\ Config.agent_name config <> "")
  /\ (environ !! "OMNIA_NAMESPACE" = Some (Config.namespace config)
      /\ Config.namespace config <> "")
  /\ Config.promptpack_path config <> ""
  /\ Config.prompt_name config <> ""
  /\ Config.media_base_path config <> ""
  /\ (Config.session_type config = SessionType.REDIS ->
      environ !! "OMNIA_SESSION_URL" = Some (Config.session_url config)
      /\ Config.session_url config <> "")
  /\ (Config.provider_type config = ProviderType.CLAUDE ->
      exists key, environ !! "ANTHROPIC_API_KEY" = Some key /\ key <> "")
  /\ (Config.provider_type config = ProviderType.OPENAI ->
      exists key, environ !! "OPENAI_API_KEY" = Some key /\ key <> "")
  /\ (Config.provider_type config = ProviderType.GEMINI ->
      exists key, environ !! "GOOGLE_API_KEY" = Some key /\ key <> "").
Proof.
  unfold load_config. intros E.
  apply bind_Ok in E as (agent_name & s1 & E1 & E).
  apply bind_Ok in E as (namespace & s2 & E2 & E).
  apply bind_Ok in E as (session_type & s3 & E3 & E).
  apply bind_Ok in E as (session_ttl_seconds & s4 & E4 & E).
  apply bind_Ok in E as (provider_type & s5 & E5 & E).
  apply bind_Ok in E as (context_window & s6 & E6 & E).
  apply bind_Ok in E as (grpc_port & s7 & E7 & E).
  apply bind_Ok in E as (health_port & s8 & E8 & E).
  apply bind_Ok in E as ([] & s9 & Ev & E).
  inversion E; subst config s'. clear E.
  apply get_required_Ok in E1 as (H1 & H1' & _).
  apply get_required_Ok in E2 as (H2 & H2' & _).
  apply validate_Ok in Ev as (Vr & Vc & Vo & Vg).
  cbn [Config.session_type Config.provider_type Config.session_url
         Config.agent_name Config.namespace Config.promptpack_path
         Config.prompt_name Config.media_base_path] in *.
  split; [split; assumption|]. split; [split; assumption|].
  split; [apply get_or_default_nonempty; discriminate|].
  split; [apply get_or_default_nonempty; discriminate|].
  split; [apply get_or_default_nonempty; discriminate|].
  split.
  { intros Ht. specialize (Vr Ht). split; [|exact Vr].
    clear -Vr. unfold getenv_or, getenv in *.
    destruct (environ !! "OMNIA_SESSION_URL"); [reflexivity|].
    exfalso. apply Vr. reflexivity. }
  assert (Hkey : forall key name,
             (key = "anthropic" /\ name = "ANTHROPIC_API_KEY")
             \/ (key = "openai" /\ name = "OPENAI_API_KEY")
             \/ (key = "google" /\ name = "GOOGLE_API_KEY") ->
             missing_key
               (Config.mk agent_name namespace
                  (_get_or_default environ "OMNIA_PROMPTPACK_PATH"
                     "/etc/omnia/pack/pack.json")
                  (getenv_or environ "OMNIA_PROMPTPACK_NAME" "")
                  (getenv_or environ "OMNIA_PROMPTPACK_NAMESPACE" "")
                  (_get_or_default environ "OMNIA_PROMPT_NAME" "default")
                  session_type (getenv_or environ "OMNIA_SESSION_URL" "")
                  session_ttl_seconds provider_type
                  (getenv_or environ "OMNIA_PROVIDER_MODEL" "")
                  (getenv_or environ "OMNIA_PROVIDER_BASE_URL" "")
                  (getenv_or environ "OMNIA_PROVIDER_REF_NAME" "")
                  (getenv_or environ "OMNIA_PROVIDER_REF_NAMESPACE" "")
                  context_window
                  (getenv_or environ "OMNIA_TRUNCATION_STRATEGY" "")
                  (_get_or_default environ "OMNIA_MOCK_CONFIG"
                     (getenv_or environ "OMNIA_PROVIDER_MOCK_CONFIG" ""))
                  (_get_or_default environ "OMNIA_MEDIA_BASE_PATH"
                     "/etc/omnia/media")
                  (getenv_or environ "OMNIA_TOOLS_CONFIG" "")
                  grpc_port health_port
                  (<["google" := getenv_or environ "GOOGLE_API_KEY" ""]>
                     (<["openai" := getenv_or environ "OPENAI_API_KEY" ""]>
                        (<["anthropic" :=
                             getenv_or environ "ANTHROPIC_API_KEY" ""]> ∅))))
               key = false ->
             exists value, environ !! name = Some value /\ value <> "").
  { intros key name Hk Hm. clear -Hk Hm.
    unfold missing_key in Hm. cbn [Config.api_keys] in Hm.
    apply missing_key_false in Hm as (value & Hl & Hne).
    destruct Hk as [[-> ->]|[[-> ->]|[-> ->]]];
      [rewrite lookup_insert_ne, lookup_insert_ne, lookup_insert_eq in Hl
        by discriminate
      |rewrite lookup_insert_ne, lookup_insert_eq in Hl by discriminate
      |rewrite lookup_insert_eq in Hl];
      inversion Hl as [Hv]; unfold getenv_or, getenv in *;
      (destruct (environ !! _) as [v|];
       [exists v; split; [reflexivity|congruence]
       |exfalso; apply Hne; symmetry; exact Hv]). }
  split; [intros Ht; apply (Hkey "anthropic"); auto|].
  split; [intros Ht; apply (Hkey "openai"); auto|].
  intros Ht; apply (Hkey "google"); auto.
Qed.

Lemma bind_ext {S A B} (m1 m2 : M S A) (k1 k2 : A -> M S B) s :
  (forall s, m1 s = m2 s) -> (forall a s, k1 a s = k2 a s) ->
  bind m1 k1 s = bind m2 k2 s.
Proof.
  intros Hm Hk. unfold bind. rewrite Hm.
  destruct (m2 s) as [[a|e] s1]; [apply Hk|reflexivity].
Qed.

Section BlankFacts.
Variable environ : gmap string string.
Variable int : string -> option Z.
Variable lower : string -> string.
Variable blank : string.

Local Abbreviation set_blank := (<[blank := ""]> environ).
Local Abbreviation unset := (delete blank environ).

Lemma blank_lookup name :
  (set_blank !! name = unset !! name)
  \/ (set_blank !! name = Some "" /\ unset !! name = None).
Proof.
  destruct (decide (blank = name)) as [->|Hne].
  - right. rewrite lookup_insert_eq, lookup_delete_eq. split; reflexivity.
  - left. rewrite lookup_insert_ne, lookup_delete_ne by exact Hne. reflexivity.
Qed.

Lemma blank_get_required (S : Type) name (s : S) :
  _get_required set_blank name s = _get_required unset name s.
Proof.
  unfold _get_required, getenv.
  destruct (blank_lookup name) as [->|[-> ->]]; reflexivity.
Qed.

Lemma blank_get_or_default name default :
  _get_or_default set_blank name default = _get_or_default unset name default.
Proof.
  unfold _get_or_default, getenv.
  destruct (blank_lookup name) as [->|[-> ->]]; reflexivity.
Qed.

Lemma blank_parse_int (S : Type) name default (s : S) :
  _parse_int set_blank int name default s = _parse_int unset int name default s.
Proof.
  unfold _parse_int, getenv.
  destruct (blank_lookup name) as [->|[-> ->]]; reflexivity.
Qed.

Lemma blank_getenv_or_empty name :
  getenv_or set_blank name "" = getenv_or unset name "".
Proof.
  unfold getenv_or, getenv.
  destruct (blank_lookup name) as [->|[-> ->]]; reflexivity.
Qed.

Lemma blank_getenv_or_other name default :
  blank <> name ->
  getenv_or set_blank name default = getenv_or unset name default.
Proof.
  intros Hne. unfold getenv_or, getenv.
  rewrite lookup_insert_ne, lookup_delete_ne by exact Hne. reflexivity.
Qed.
End BlankFacts.

(** X28.  Setting an environment variable to the empty string is the same
    to [load_config] as not setting it, for every variable but two: an
    empty [OMNIA_SESSION_TYPE] makes [load_config] fail with a
    [ConfigError] instead of selecting the in-memory store, and an empty
    provider type is rejected likewise. *)
Theorem blank_variable_is_unset (S : Type) environ int lower name (s : S) :
  (name <> "OMNIA_SESSION_TYPE" -> name <> "OMNIA_PROVIDER_TYPE" ->
   load_config (<[name := ""]> environ) int lower s
   = load_config (delete name environ) int lower s)
  /\ (lower "" = "" ->
      (forall agent_name namespace,
          environ !! "OMNIA_AGENT_NAME" = Some agent_name ->
          agent_name <> "" ->
          environ !! "OMNIA_NAMESPACE" = Some namespace ->
          namespace <> "" ->
          environ !! "OMNIA_SESSION_TYPE" = Some "" ->
          fst (load_config environ int lower s)
          = Raise (ConfigError
                     "Invalid OMNIA_SESSION_TYPE ''. Must be one of: ['memory', 'redis']"))
      /\ fst (_parse_provider_type lower "" s)
         = Raise (ConfigError
                    "Invalid provider type ''. Must be one of: ['claude', 'openai', 'gemini', 'ollama', 'mock']")).
Proof.
  split.
  - intros Hs Hp. unfold load_config.
    apply bind_ext; [intros; apply blank_get_required|]. intros agent_name s1.
    apply bind_ext; [intros; apply blank_get_required|]. intros namespace s2.
    rewrite (blank_getenv_or_other environ name "OMNIA_SESSION_TYPE")
      by exact Hs.
    apply bind_ext; [reflexivity|]. intros session_type s3.
    apply bind_ext; [intros; apply blank_parse_int|].
    intros session_ttl_seconds s4.
    rewrite (blank_getenv_or_other environ name "OMNIA_PROVIDER_TYPE")
      by exact Hp.
    apply bind_ext; [reflexivity|]. intros provider_type s5.
    apply bind_ext; [intros; apply blank_parse_int|]. intros context_window s6.
    apply bind_ext; [intros; apply blank_parse_int|]. intros grpc_port s7.
    apply bind_ext; [intros; apply blank_parse_int|]. intros health_port s8.
    rewrite !blank_get_or_default, !blank_getenv_or_empty. reflexivity.
  - intros Hl. split.
    + intros agent_name namespace Ha Hane Hn Hnne Hst.
      unfold load_config, bind, _get_required, getenv_or, getenv.
      rewrite Ha, Hn, Hst.
      destruct (String.eqb_spec agent_name ""); [contradiction|].
      destruct (String.eqb_spec namespace ""); [contradiction|].
      unfold ret at 1 2. unfold _parse_session_type. rewrite Hl.
      reflexivity.
    + unfold _parse_provider_type, try_except, ProviderType.from_string.
      rewrite Hl. reflexivity.
Qed.

Lemma load_config_validated_witness :
  exists config,
    fst (load_config Demo.deployment Demo.decimal Demo.lowercase tt)
    = Ok config
    /\ Config.session_type config = SessionType.REDIS
    /\ Config.session_url config <> ""
    /\ Config.session_ttl_seconds config = 3600
    /\ Config.grpc_port config = 9000.
Proof.
  destruct (load_config Demo.deployment Demo.decimal Demo.lowercase tt)
    as [[config|exc] []] eqn:E; [|vm_compute in E; discriminate].
  destruct (load_config_validated unit Demo.deployment Demo.decimal
              Demo.lowercase config tt tt E)
    as (_ & _ & _ & _ & _ & Hredis & _).
  assert (Hc : Config.session_type config = SessionType.REDIS
               /\ Config.session_ttl_seconds config = 3600
               /\ Config.grpc_port config = 9000).
  { vm_compute in E. inversion E. repeat split. }
  destruct Hc as (Ht & Httl & Hport).
  exists config. split; [reflexivity|]. split; [exact Ht|].
  split; [apply (Hredis Ht)|]. split; assumption.
Defined.

(** ** Instances on the example configurations *)


Lemma unhealthy_handler_never_streams_witness :
  fst (LangChainHandler.handle_message
         (H:=InMemorySessionStore.session_store Demo.standing)
         Demo.standing Demo.always_down Demo.no_json Demo.render Demo.greeting
         Demo.unready "s1" (Some "hello") [] ∅ Demo.started)
  = [runtime_pb2.error "HANDLER_ERROR" "Prompt 'missing' not found in pack"].
Proof.
  apply (proj1 (proj2
           (unhealthy_handler_never_streams _
              (InMemorySessionStore.session_store Demo.standing)
              Demo.standing Demo.always_down Demo.no_json Demo.render
              Demo.greeting Demo.unready "s1" (Some "hello") [] ∅
              Demo.started ltac:(vm_compute; reflexivity)))).
Defined.

Lemma turn_appends_to_history_witness :
  let first :=
    LangChainHandler.handle_message
      (H:=InMemorySessionStore.session_store Demo.standing)
      Demo.standing Demo.always_down Demo.no_json Demo.render Demo.greeting
      Demo.plain "s1" (Some "hello") [] ∅ Demo.started in
  let second :=
    LangChainHandler.handle_message
      (H:=InMemorySessionStore.session_store Demo.standing)
      Demo.standing Demo.always_down Demo.no_json Demo.render Demo.breaking
      Demo.plain "s1" (Some "again") [] ∅ (snd first) in
  exists reply after,
    stored_session (snd second) "s1" = Some after
    /\ Session.messages after
       = [HumanMessage (JStr "hello") (JObj []);
          AIMessage (JStr "Hi there") (JObj [])]
         ++ [HumanMessage (JStr "again") (JObj [])] ++ reply.
Proof.
  intros first second.
  destruct (turn_appends_to_history Demo.standing Demo.always_down
              Demo.no_json Demo.render Demo.breaking Demo.plain "s1"
              (Some "again") [] ∅ (snd first)
              ltac:(apply list_elem_of_here)
              ltac:(vm_compute; discriminate)
              ltac:(intros l E; vm_compute in E; inversion E;
                    split; [vm_compute; lia | vm_compute; reflexivity]))
    as (reply & after & Hst & _ & Hmsgs & _).
  exists reply, after. split; [exact Hst|]. rewrite Hmsgs. reflexivity.
Defined.

Lemma redis_unreadable_record_replaced_witness :
  RedisSessionStore.get (H:=Demo.kv) Demo.parse "s1" Demo.redis_garbled
  = (Ok None,
     mkEnv [] 0
       (RedisSessionStore.set_client true (Demo.redis_store Demo.garbled))
       [])
  /\ fst (SessionStore.get_or_create
            (H:=RedisSessionStore.session_store (H:=Demo.kv) Demo.standing
                  Demo.render Demo.parse)
            Demo.standing "s1" Demo.redis_garbled)
     = Ok 0%nat.
Proof.
  destruct (redis_unreadable_record_replaced (H:=Demo.kv) Demo.standing
              Demo.render Demo.parse "s1" "not json" Demo.redis_garbled
              (mkEnv [] 0
                 (RedisSessionStore.set_client true
                    (Demo.redis_store Demo.garbled))
                 [])
              Demo.garbled
              (<["omnia:session:s1" :=
                   RedisSessionStore._serialize Demo.render
                     (Session.mk "s1" [] (JObj []) Demo.new_year
                        Demo.new_year)]> Demo.garbled)
              eq_refl ltac:(vm_compute; reflexivity)
              ltac:(vm_compute; exact I)
              eq_refl) as [Hget Hgoc].
  split; [exact Hget|]. rewrite Hgoc. reflexivity.
Defined.

Lemma redis_save_then_get_witness :
  let e1 := snd (RedisSessionStore.save (H:=Demo.kv) Demo.standing
                   Demo.render 0%nat Demo.redis_talking) in
  let e2 := snd (RedisSessionStore.get (H:=Demo.kv) Demo.parse "s-42" e1) in
  fst (RedisSessionStore.get (H:=Demo.kv) Demo.parse "s-42" e1)
  = Ok (Some 1%nat)
  /\ deref (heap e2) 1%nat
     = Session.set_updated_at Demo.new_year Demo.conversation.
Proof.
  intros e1 e2.
  destruct (redis_save_then_get (H:=Demo.kv) Demo.standing Demo.render
              Demo.parse 0%nat Demo.redis_talking
              (mkEnv [Demo.conversation] 0
                 (RedisSessionStore.set_client true (Demo.redis_store ∅)) [])
              (<["omnia:session:s-42" :=
                   RedisSessionStore._serialize Demo.render
                     (Session.set_updated_at Demo.new_year
                        Demo.conversation)]> ∅)
              (<["omnia:session:s-42" :=
                   RedisSessionStore._serialize Demo.render
                     (Session.set_updated_at Demo.new_year
                        Demo.conversation)]> ∅)
              ltac:(vm_compute; lia) ltac:(repeat constructor)
              eq_refl eq_refl ltac:(vm_compute; reflexivity)
              eq_refl eq_refl ltac:(vm_compute; reflexivity))
    as (_ & Hget & Hnew & _).
  split; [exact (f_equal fst Hget)|exact Hnew].
Defined.

Lemma redis_failed_turn_not_saved_witness :
  let run :=
    LangChainHandler.handle_message
      (H:=RedisSessionStore.session_store (H:=Demo.kv) Demo.standing
            Demo.render Demo.parse)
      Demo.standing Demo.always_down Demo.parse Demo.render Demo.breaking
      Demo.plain "s1" (Some "hello") [] ∅ Demo.redis_started in
  let reread := RedisSessionStore.get (H:=Demo.kv) Demo.parse "s1" (snd run) in
  fst run = [runtime_pb2.chunk "Hi";
             runtime_pb2.error "HANDLER_ERROR" "model overloaded"]
  /\ Session.messages (deref (heap (snd run)) 0%nat)
     = [HumanMessage (JStr "hello") (JObj [])]
  /\ fst reread = Ok (Some 1%nat)
  /\ Session.messages (deref (heap (snd reread)) 1%nat) = [].
Proof.
  intros run reread.
  destruct (redis_failed_turn_not_saved (H:=Demo.kv) Demo.standing
              Demo.render Demo.parse Demo.always_down Demo.breaking
              Demo.plain "s1" (Some "hello") [] ∅ ["Hi"] Demo.overloaded
              0%nat Demo.redis_started
              (snd (SessionStore.get_or_create
                      (H:=RedisSessionStore.session_store (H:=Demo.kv)
                            Demo.standing Demo.render Demo.parse)
                      Demo.standing "s1" Demo.redis_started))
              ltac:(vm_compute; reflexivity) ltac:(vm_compute; lia)
              ltac:(apply list_elem_of_here)
              ltac:(repeat constructor; discriminate) eq_refl)
    as (Hout & _ & Hmsgs & Hsame & Hcopy).
  fold run in Hout, Hmsgs, Hsame, Hcopy. fold reread in Hsame, Hcopy.
  split; [exact Hout|]. split; [exact Hmsgs|].
  split.
  - rewrite Hsame. vm_compute. reflexivity.
  - rewrite (Hcopy 1%nat) by (vm_compute; reflexivity).
    vm_compute. reflexivity.
Defined.
